(** * gale: dataframe helpers, loss builder, task optimisation set-up, logger

    A shallow embedding of the decision logic of the [gale] package
    ([gale/collections/pandas.py], [gale/core/nn/losses.py],
    [gale/core_classes.py], [gale/utils/logger.py]) and the properties of it
    that the specification states.

    Python values are modelled as the code has them: exceptions are an
    explicit error result, dictionaries are finite maps, objects that the code
    mutates or copies live in an explicit store. *)

From Stdlib Require Import ZArith String List Bool Lia OrdersEx.
From Stdlib Require Import Floats.SpecFloat.
From stdpp Require Import base option list vector gmap strings sorting pretty.

Local Open Scope string_scope.
Local Open Scope Z_scope.
Local Open Scope list_scope.

(** ** Python results: a value or a raised exception *)

Inductive exn : Type :=
  | KeyError (key : string)
  | TypeError
  | AttributeError
  | ValueError (msg : string)
  | AssertionError (msg : string)
  | ZeroDivisionError
  | OverflowError
  | RuntimeError
  | NoObject.

Inductive result (A : Type) : Type :=
  | Ok (a : A)
  | Raise (e : exn).
Arguments Ok {A} a.
Arguments Raise {A} e.

Definition is_ok {A} (r : result A) : bool :=
  match r with Ok _ => true | Raise _ => false end.

Definition rbind {A B} (r : result A) (k : A → result B) : result B :=
  match r with Ok a => k a | Raise e => Raise e end.

(** ** Configuration values

    What an OmegaConf container holds once converted to native Python
    objects: [None], booleans, integers, floats (IEEE binary64, as
    [spec_float]), strings and lists; and the tensors that [torch.tensor]
    makes of such data. *)

#[warnings="-register-all"] Inductive pyval : Type :=
  | VNone
  | VBool (b : bool)
  | VInt (z : Z)
  | VFloat (f : spec_float)
  | VStr (s : string)
  | VList (l : list pyval)
  | VTensor (data : pyval).

(** Keyword arguments, [**kwargs]. *)
Abbreviation kwds := (gmap string pyval) (only parsing).

(** ** gale/collections/pandas.py *)

Module Pandas.

(** A cell of a frame: a string (paths, class names) or an integer (fold
    ids, encoded labels). *)
Inductive cell : Type :=
  | CStr (s : string)
  | CInt (z : Z).

Global Instance cell_eq_dec : EqDecision cell.
Proof. solve_decision. Defined.

(** A frame: column names and rows; each row carries its index label and one
    cell per column. *)
Record DataFrame : Type := mkDataFrame {
  df_width : nat;
  df_columns : vec string df_width;
  df_rows : list (Z * vec cell df_width)
}.

Fixpoint col_pos {n} (c : string) (cols : vec string n) : option (fin n) :=
  match cols with
  | vnil => None
  | vcons x xs => if decide (x = c) then Some 0%fin else FS <$> col_pos c xs
  end.

(** [df[c]]: the column as a series of cells, [KeyError] when absent. *)
Definition df_getitem (df : DataFrame) (c : string) : result (list cell) :=
  match col_pos c (df_columns df) with
  | None => Raise (KeyError c)
  | Some j => Ok ((λ r, snd r !!! j) <$> df_rows df)
  end.

(** [series == v] and [series != v] for an integer [v], element by element. *)
Definition cell_eq_int (v : Z) (x : cell) : bool :=
  match x with CInt z => Z.eqb z v | CStr _ => false end.
Definition cell_ne_int (v : Z) (x : cell) : bool :=
  match x with CInt z => negb (Z.eqb z v) | CStr _ => true end.
Definition series_eq (s : list cell) (v : Z) : list bool := cell_eq_int v <$> s.
Definition series_ne (s : list cell) (v : Z) : list bool := cell_ne_int v <$> s.

(** [l.loc[mask]]: the entries at which the boolean mask holds, in order. *)
Fixpoint mask_select {A} (mask : list bool) (l : list A) : list A :=
  match mask, l with
  | b :: mask', x :: l' =>
      if b then x :: mask_select mask' l' else mask_select mask' l'
  | _, _ => []
  end.

Definition df_loc (df : DataFrame) (mask : list bool) : DataFrame :=
  {| df_width := df_width df;
     df_columns := df_columns df;
     df_rows := mask_select mask (df_rows df) |}.

(** [df.reset_index(drop=True)]: the labels become 0, 1, ... *)
Definition df_reset_index (df : DataFrame) : DataFrame :=
  {| df_width := df_width df;
     df_columns := df_columns df;
     df_rows := imap (λ i r, (Z.of_nat i, snd r)) (df_rows df) |}.

(** [df[c] = values] for a column that exists: [vinsert] in every row. *)
Definition df_setitem (df : DataFrame) (c : string) (values : list cell)
  : result DataFrame :=
  match col_pos c (df_columns df) with
  | None => Raise (KeyError c)
  | Some j =>
      Ok {| df_width := df_width df;
            df_columns := df_columns df;
            df_rows := zip_with (λ r v, (fst r, vinsert j v (snd r)))
                         (df_rows df) values |}
  end.

(** *** The store of frame objects

    Frames are objects: a variable holds a reference, [copy] makes a new
    object, the in-place methods change the object a reference points to. *)

Abbreviation loc := nat (only parsing).
Abbreviation heap := (list DataFrame) (only parsing).

Definition M (A : Type) : Type := heap → result A * heap.

Global Instance M_ret : MRet M := λ A a h, (Ok a, h).
Global Instance M_bind : MBind M := λ A B k m h,
  match m h with
  | (Ok a, h') => k a h'
  | (Raise e, h') => (Raise e, h')
  end.
Definition lift {A} (r : result A) : M A := λ h, (r, h).

(** Every reference comes from [alloc]; [NoObject] stands for one that
    does not. *)
Definition deref (l : loc) : M DataFrame :=
  λ h, match h !! l with
       | Some df => (Ok df, h)
       | None => (Raise NoObject, h)
       end.
Definition alloc (df : DataFrame) : M loc :=
  λ h, (Ok (length h), h ++ [df]).
Definition store (l : loc) (df : DataFrame) : M unit :=
  λ h, (Ok tt, <[l := df]> h).

(** [dataframe.copy()] *)
Definition copy (l : loc) : M loc := df ← deref l; alloc df.
(** [dataframe[c]] *)
Definition getitem (l : loc) (c : string) : M (list cell) :=
  df ← deref l; lift (df_getitem df c).
(** [dataframe.loc[mask]]: a new object. *)
Definition loc_mask (l : loc) (mask : list bool) : M loc :=
  df ← deref l; alloc (df_loc df mask).
(** [dataframe.reset_index(drop=True, inplace=True)] *)
Definition reset_index_inplace (l : loc) : M unit :=
  df ← deref l; store l (df_reset_index df).
(** [dataframe[c] = values] *)
Definition setitem (l : loc) (c : string) (values : list cell) : M unit :=
  df ← deref l; df' ← lift (df_setitem df c values); store l df'.

(** [get_dataframe_fold(dataframe, split_column, split_idx)] *)
Definition get_dataframe_fold (dataframe : loc) (split_column : string)
    (split_idx : Z) : M (loc * loc) :=
  data ← copy dataframe;
  col ← getitem data split_column;
  train_data ← loc_mask data (series_ne col split_idx);
  col' ← getitem data split_column;
  valid_data ← loc_mask data (series_eq col' split_idx);
  reset_index_inplace train_data;;
  reset_index_inplace valid_data;;
  mret (train_data, valid_data).

(** [series.unique()]: the distinct values in order of first appearance. *)
Fixpoint unique_from (seen : list cell) (l : list cell) : list cell :=
  match l with
  | [] => []
  | x :: t =>
      if decide (x ∈ seen) then unique_from seen t
      else x :: unique_from (x :: seen) t
  end.
Definition unique (l : list cell) : list cell := unique_from [] l.

(** The order of [str] values: lexicographic on the characters' codes. *)
Definition str_le (a b : string) : Prop := String.leb a b = true.
Global Instance str_le_dec : RelDecision str_le.
Proof. intros a b. unfold str_le. apply _. Defined.

Definition as_str (c : cell) : option string :=
  match c with CStr s => Some s | CInt _ => None end.
Definition as_int (c : cell) : option Z :=
  match c with CInt z => Some z | CStr _ => None end.

(** [sorted(values)]: strings compare with strings and integers with
    integers; ordering a string against an integer raises [TypeError]. *)
Definition sorted (l : list cell) : result (list cell) :=
  match mapM as_str l, mapM as_int l with
  | Some ss, _ => Ok (CStr <$> merge_sort str_le ss)
  | None, Some zs => Ok (CInt <$> merge_sort Z.le zs)
  | None, None => Raise TypeError
  end.

(** [str(x)] *)
Definition py_str (c : cell) : string :=
  match c with CStr s => s | CInt z => pretty z end.

(** [enumerate(l)] *)
Definition enumerate {A} (l : list A) : list (nat * A) := imap (λ i x, (i, x)) l.

(** [{str(class_name): label for label, class_name in items}] *)
Definition dict_of_labels (items : list (nat * cell)) : gmap string Z :=
  foldl (λ d it, <[py_str (snd it) := Z.of_nat (fst it)]> d) ∅ items.

(** [get_dataset_labeling(dataframe, label_column)] *)
Definition get_dataset_labeling (dataframe : loc) (label_column : string)
  : M (gmap string Z) :=
  col ← getitem dataframe label_column;
  names ← lift (sorted (unique col));
  mret (dict_of_labels (enumerate names)).

(** [series.apply(func)] *)
Fixpoint series_apply (func : cell → result cell) (s : list cell)
  : result (list cell) :=
  match s with
  | [] => Ok []
  | x :: t => rbind (func x) (λ y, rbind (series_apply func t) (λ t', Ok (y :: t')))
  end.

(** [tag_to_labels[key]] *)
Definition dict_getitem (d : gmap string Z) (key : string) : result Z :=
  match d !! key with Some v => Ok v | None => Raise (KeyError key) end.

(** [dataframe_labels_2_int(dataframe, label_column, return_labelling)]:
    the second component is the labelling when it is asked for. *)
Definition dataframe_labels_2_int (dataframe : loc) (label_column : string)
    (return_labelling : bool) : M (loc * option (gmap string Z)) :=
  data ← copy dataframe;
  tag_to_labels ← get_dataset_labeling data label_column;
  col ← getitem data label_column;
  col' ← lift (series_apply
                 (λ x, rbind (dict_getitem tag_to_labels (py_str x))
                             (λ v, Ok (CInt v))) col);
  setitem data label_column col';;
  if return_labelling then mret (data, Some tag_to_labels)
  else mret (data, None).

(** *** Notions for the statements *)

(** What the statements say of a frame that a function returns: it has
    the columns of [df], its rows are the given rows in the given order,
    and its index labels are 0, 1, ..., one per row. This is the wording
    of the properties, not a part of the code; [df_reset_index] above is
    the code. *)
Definition reindexed (df : DataFrame) (rows : list (vec cell (df_width df)))
  : DataFrame :=
  {| df_width := df_width df;
     df_columns := df_columns df;
     df_rows := zip (seqZ 0 (Z.of_nat (length rows))) rows |}.

(** The column at position [j] of [df] holds the strings [labels]. *)
Definition column_strings (df : DataFrame) (j : fin (df_width df))
    (labels : list string) : Prop :=
  (λ r, snd r !!! j) <$> df_rows df = CStr <$> labels.

(** The class names of a column of strings: distinct, in increasing order. *)
Definition class_names (labels : list string) : list string :=
  merge_sort str_le (omap as_str (unique (CStr <$> labels))).

(** The frame [df] with the strings of column [j] replaced by their
    integers under [m]. *)
Definition encoded (df : DataFrame) (j : fin (df_width df))
    (m : gmap string Z) (labels : list string) : DataFrame :=
  {| df_width := df_width df;
     df_columns := df_columns df;
     df_rows := zip_with (λ r s, (fst r, vinsert j (CInt (m !!! s)) (snd r)))
                  (df_rows df) labels |}.

(** The cells of the first row of a frame. *)
Definition first_row (df : DataFrame) : list cell :=
  match df_rows df with
  | r :: _ => vec_to_list (snd r)
  | [] => []
  end.

(** The column at position [j] of [df] holds the cells [cells]. *)
Definition column_cells (df : DataFrame) (j : fin (df_width df))
    (cells : list cell) : Prop :=
  (λ r, snd r !!! j) <$> df_rows df = cells.

(** The frame [df] with every cell [x] of column [j] replaced by the
    integer of [str(x)] under [m]. *)
Definition relabelled (df : DataFrame) (j : fin (df_width df))
    (m : gmap string Z) (cells : list cell) : DataFrame :=
  {| df_width := df_width df;
     df_columns := df_columns df;
     df_rows := zip_with (λ r x, (fst r, vinsert j (CInt (m !!! py_str x)) (snd r)))
                  (df_rows df) cells |}.

(** The distinct values of a column of integers, in increasing order. *)
Definition int_names (values : list Z) : list Z :=
  merge_sort Z.le (omap as_int (unique (CInt <$> values))).

End Pandas.

(** ** gale/core/nn/losses.py *)

Module Losses.
Section build.

(** The loss objects, and what is outside this module: the class name of
    an object, [torch.tensor(data, dtype=torch.float)], the table of the
    losses registered in [LOSS_REGISTRY] and the attributes of the
    namespace [torch.nn.modules.loss]. An entry is called with keyword
    arguments and constructs a loss or raises. *)
Context {Loss : Type}.
Variable class_name : Loss → string.
Variable torch_tensor : pyval → result pyval.
Variable LOSS_REGISTRY : gmap string (kwds → result Loss).
Variable torch_losses : gmap string (kwds → result Loss).

(** The configuration of a loss: the keys [name] and [init_args], each
    present or not; [init_args] is null or a mapping. *)
Record LossConfig : Type := mkLossConfig {
  cfg_name : option pyval;
  cfg_init_args : option (option kwds)
}.

(** The [weight] argument, when there is one and it is not [None],
    becomes a tensor. *)
Definition convert_weight (args : option kwds) : result (option kwds) :=
  match args with
  | Some a =>
      match a !! "weight" with
      | Some VNone | None => Ok (Some a)
      | Some w => rbind (torch_tensor w) (λ t, Ok (Some (<["weight" := t]> a)))
      end
  | None => Ok None
  end.

(** [name in LOSS_REGISTRY], else [hasattr(torch_losses, name)]. *)
Definition resolve (name : string) : result (kwds → result Loss) :=
  match LOSS_REGISTRY !! name with
  | Some instance => Ok instance
  | None =>
      match torch_losses !! name with
      | Some instance => Ok instance
      | None =>
          Raise (AssertionError
                   (name +:+ " isn't a registered loss"
                         +:+ ", nor is it available in torch.nn.modules.loss"))
      end
  end.

(** The constructor called with the keyword arguments [args], or with
    none when [args] is [None]. *)
Definition construct (instance : kwds → result Loss) (args : option kwds)
  : result Loss :=
  match args with Some a => instance a | None => instance ∅ end.

(** [build_loss(config)]: the loss or the exception, and the lines logged
    at level INFO. The message of the first assertion goes on with the
    printed configuration, which is left out. *)
Definition build_loss (config : LossConfig) : result Loss * list string :=
  match cfg_name config with
  | None => (Raise (AssertionError "name not provided for loss"), [])
  | Some name =>
      match cfg_init_args config with
      | None => (Raise (KeyError "init_args"), [])
      | Some args =>
          match convert_weight args with
          | Raise e => (Raise e, [])
          | Ok args =>
              match name with
              | VStr name =>
                  match resolve name with
                  | Raise e => (Raise e, [])
                  | Ok instance =>
                      match construct instance args with
                      | Ok loss =>
                          (Ok loss,
                           ["Built loss function: " +:+ class_name loss])
                      | Raise e => (Raise e, [])
                      end
                  end
              | _ => (Raise TypeError, [])
              end
          end
      end
  end.

End build.

(** *** [LabelSmoothingCrossEntropy] *)

(** The floating-point types of the tensors: single and double precision,
    whose arithmetic is done in the type itself. *)
Inductive dtype : Type := Float32 | Float64.

Definition dtype_prec (d : dtype) : Z :=
  match d with Float32 => 24 | Float64 => 53 end.
Definition dtype_emax (d : dtype) : Z :=
  match d with Float32 => 128 | Float64 => 1024 end.

(** A Python number: an [int] or a [float]. *)
Inductive number : Type :=
  | PyInt (z : Z)
  | PyFloat (x : spec_float).

(** A Python float as a number of the type [d]: rounded to nearest. *)
Definition of_double (d : dtype) (x : spec_float) : spec_float :=
  match x with
  | S754_finite s m e =>
      binary_normalize (dtype_prec d) (dtype_emax d) (cond_Zopp s (Z.pos m)) e false
  | _ => x
  end.

(** A Python number as the scalar operand of an operation on a tensor of
    type [d]. *)
Definition scalar (d : dtype) (v : number) : spec_float :=
  match v with
  | PyInt z => binary_normalize (dtype_prec d) (dtype_emax d) z 0 false
  | PyFloat x => of_double d x
  end.

(** [1 - eps] *)
Definition one_minus (eps : number) : number :=
  match eps with
  | PyInt z => PyInt (1 - z)
  | PyFloat x => PyFloat (SFsub 53 1024 (binary_normalize 53 1024 1 0 false) x)
  end.

(** A tensor of no dimension or of one. *)
Inductive tensor : Type :=
  | Scalar (x : spec_float)
  | Vector (xs : list spec_float).

Definition tmap (f : spec_float → spec_float) (t : tensor) : tensor :=
  match t with
  | Scalar x => Scalar (f x)
  | Vector xs => Vector (f <$> xs)
  end.

(** [t * v], [t / v] and [v * t] for a tensor [t] and a Python number
    [v]: element by element, with [v] as a number of the type. *)
Definition mul_scalar (d : dtype) (t : tensor) (v : number) : tensor :=
  tmap (λ x, SFmul (dtype_prec d) (dtype_emax d) x (scalar d v)) t.
Definition div_scalar (d : dtype) (t : tensor) (v : number) : tensor :=
  tmap (λ x, SFdiv (dtype_prec d) (dtype_emax d) x (scalar d v)) t.
Definition rmul_scalar (d : dtype) (v : number) (t : tensor) : tensor :=
  tmap (λ x, SFmul (dtype_prec d) (dtype_emax d) x (scalar d v)) t.

(** [a + b]: element by element, a tensor of one element being stretched
    to the other; two vectors of other lengths do not add. *)
Definition tadd (d : dtype) (a b : tensor) : result tensor :=
  let add := SFadd (dtype_prec d) (dtype_emax d) in
  match a, b with
  | Scalar x, Scalar y => Ok (Scalar (add x y))
  | Scalar x, Vector ys => Ok (Vector (add x <$> ys))
  | Vector xs, Scalar y => Ok (Vector ((λ x, add x y) <$> xs))
  | Vector xs, Vector ys =>
      if decide (length xs = length ys) then Ok (Vector (zip_with add xs ys))
      else match xs, ys with
           | [x], _ => Ok (Vector (add x <$> ys))
           | _, [y] => Ok (Vector ((λ x, add x y) <$> xs))
           | _, _ => Raise RuntimeError
           end
  end.

Section smoothing.

(** What is outside this module: the tensors of shape (N, C) and their
    targets and weights, of the type [d]; the number of classes
    [input.size()[1]]; [F.log_softmax(input, dim=1)]; [t.sum()],
    [t.sum(dim=1)] and [t.mean()]; and
    [F.nll_loss(log_preds, target.long(), weight=..., reduction=...)],
    which gives a tensor or raises. *)
Context {Tensor2 Target Weight : Type}.
Variable d : dtype.
Variable size1 : Tensor2 → Z.
Variable log_softmax : Tensor2 → Tensor2.
Variable sum_all : Tensor2 → spec_float.
Variable sum_dim1 : Tensor2 → list spec_float.
Variable mean : list spec_float → spec_float.
Variable nll_loss : Tensor2 → Target → option Weight → string → result tensor.

Record LabelSmoothingCrossEntropy : Type := mkLabelSmoothingCrossEntropy {
  eps : number;
  reduction : string;
  weight : option Weight
}.

(** The first part of [forward]: [loss] before the last assignment. *)
Definition smoothing_term (self : LabelSmoothingCrossEntropy)
    (log_preds : Tensor2) : tensor :=
  if decide (reduction self = "sum") then Scalar (SFopp (sum_all log_preds))
  else
    let loss := SFopp <$> sum_dim1 log_preds in
    if decide (reduction self = "mean") then Scalar (mean loss)
    else Vector loss.

(** [forward(input, target)] *)
Definition forward (self : LabelSmoothingCrossEntropy) (input : Tensor2)
    (target : Target) : result tensor :=
  let c := size1 input in
  let log_preds := log_softmax input in
  let loss := smoothing_term self log_preds in
  let smoothed := div_scalar d (mul_scalar d loss (eps self)) (PyInt c) in
  let keep := one_minus (eps self) in
  rbind (nll_loss log_preds target (weight self) (reduction self)) (λ nll,
  tadd d smoothed (rmul_scalar d keep nll)).

End smoothing.

(** Notions for the statements: a number that is zero, one that is not
    infinite and not a NaN, and two tensors of the same shape. *)
Definition is_zero (x : spec_float) : bool :=
  match x with S754_zero _ => true | _ => false end.
Definition is_finite (x : spec_float) : bool :=
  match x with S754_zero _ | S754_finite _ _ _ => true | _ => false end.
Definition elements (t : tensor) : list spec_float :=
  match t with Scalar x => [x] | Vector xs => xs end.
Definition same_shape (a b : tensor) : Prop :=
  match a, b with
  | Scalar _, Scalar _ => True
  | Vector xs, Vector ys => length xs = length ys
  | _, _ => False
  end.

End Losses.

(** ** gale/core_classes.py: the optimisation set-up of [DefaultTask] *)

Module CoreClasses.

(** *** Numbers *)

Definition prec : Z := 53.
Definition emax : Z := 1024.

(** [float(n)] *)
Definition float_of_int (n : Z) : result spec_float :=
  match binary_normalize prec emax n 0 false with
  | S754_infinity _ => Raise OverflowError
  | f => Ok f
  end.

(** [int(x)]: truncation towards zero. *)
Definition int_of_float (x : spec_float) : result Z :=
  match x with
  | S754_zero _ => Ok 0
  | S754_finite s m e =>
      Ok (cond_Zopp s (if 0 <=? e then Z.pos m * 2 ^ e
                       else Z.pos m / 2 ^ (- e)))
  | S754_infinity _ => Raise OverflowError
  | S754_nan => Raise (ValueError "cannot convert float NaN to integer")
  end.

(** [int(n * x)] for an integer [n] and a float [x]. *)
Definition int_mul_float (n : Z) (x : spec_float) : result Z :=
  rbind (float_of_int n) (λ f, int_of_float (SFmul prec emax f x)).

(** [v == n] for a configuration value [v] and an integer [n]. *)
Definition py_eq_int (v : pyval) (n : Z) : bool :=
  match v with
  | VInt z => Z.eqb z n
  | VBool b => Z.eqb (if b then 1 else 0) n
  | VFloat f => SFeqb f (binary_normalize prec emax n 0 false)
  | _ => false
  end.

(** *** The trainer *)

(** [limit_train_batches]: an [int], a [float], or something else. *)
Inductive Limit : Type :=
  | LimitInt (n : Z)
  | LimitFloat (f : spec_float)
  | LimitOther.

(** [tpu_cores]: [None], a number of cores or a list of core indices. *)
Inductive TpuCores : Type :=
  | TpuNone
  | TpuInt (n : Z)
  | TpuList (l : list Z).

Record Trainer : Type := mkTrainer {
  max_epochs : option Z;
  max_steps : option Z;
  limit_train_batches : Limit;
  accumulate_grad_batches : Z;
  num_gpus : Z;
  num_processes : Z;
  tpu_cores : TpuCores
}.

(** *** The optimisation configuration *)

Record OptimizerConf : Type := mkOptimizerConf {
  opt_name : option string;
  opt_init_args : option kwds
}.

Record SchedulerConf : Type := mkSchedulerConf {
  sch_name : option string;
  sch_init_args : option kwds;
  sch_interval : pyval;
  sch_monitor : pyval
}.

Record OptimConf : Type := mkOptimConf {
  conf_steps_per_epoch : Z;
  conf_max_steps : Z;
  conf_max_epochs : Z;
  optimizer : OptimizerConf;
  scheduler : SchedulerConf
}.

(** An attribute that starts as [noop], and is later [None] or an object. *)
Inductive attr (A : Type) : Type :=
  | Noop
  | PyNone
  | Obj (a : A).
Arguments Noop {A}.
Arguments PyNone {A}.
Arguments Obj {A} a.

Definition attr_of_option {A} (o : option A) : attr A :=
  match o with Some a => Obj a | None => PyNone end.

Section task.

(** The objects that the registries construct, and the parameters they
    are given, are those of the optimiser library. A registered optimiser
    is called with the parameters and keyword arguments, a registered
    scheduler with the optimiser ([None] or an optimiser) and keyword
    arguments; each constructs its object or raises. Looking up a name
    that is not registered raises [KeyError]. *)
Context {Optimizer Scheduler Params : Type}.
Variable optimizer_class : Optimizer → string.
Variable scheduler_class : Scheduler → string.
Variable OPTIM_REGISTRY : gmap string (Params → kwds → result Optimizer).
Variable SCHEDULER_REGISTRY :
  gmap string (option Optimizer → kwds → result Scheduler).

(** The scheduler in the form the trainer takes it. *)
Record LRScheduler : Type := mkLRScheduler {
  lrs_scheduler : Scheduler;
  lrs_interval : pyval;
  lrs_monitor : pyval
}.

(** The task: its trainer, the length of its training dataloader when it
    has one, the learning rate [self._model.hypers.lr] when the model has
    one ([__init__] leaves [noop] for the model, which has no [hypers]),
    the [optimization] part of its configuration if any, its parameters,
    its two attributes, and, for the log, the rank of the process and the
    records emitted so far (level and message). *)
Record Task : Type := mkTask {
  _trainer : Trainer;
  _train_dl : option Z;
  hypers_lr : option pyval;
  cfg_optimization : option OptimConf;
  param_dicts : Params;
  _optimizer : attr Optimizer;
  _scheduler : attr LRScheduler;
  rank : Z;
  log : list (Z * string)
}.

Definition T (A : Type) : Type := Task → result A * Task.

Global Instance T_ret : MRet T := λ A a t, (Ok a, t).
Global Instance T_bind : MBind T := λ A B k m t,
  match m t with
  | (Ok a, t') => k a t'
  | (Raise e, t') => (Raise e, t')
  end.
Definition throw {A} (e : exn) : T A := λ t, (Raise e, t).
Definition of_result {A} (r : result A) : T A := λ t, (r, t).
Definition self : T Task := λ t, (Ok t, t).

Definition DEBUG : Z := 10.
Definition INFO : Z := 20.
Definition WARNING : Z := 30.

Definition add_log (records : list (Z * string)) (t : Task) : Task :=
  {| _trainer := _trainer t; _train_dl := _train_dl t;
     hypers_lr := hypers_lr t; cfg_optimization := cfg_optimization t;
     param_dicts := param_dicts t; _optimizer := _optimizer t;
     _scheduler := _scheduler t; rank := rank t;
     log := log t ++ records |}.

(** [log_main_process(_logger, lvl, msg)]: emitted on rank zero only. *)
Definition log_main_process (lvl : Z) (msg : string) : T unit := λ t,
  (Ok tt, if Z.eqb (rank t) 0 then add_log [(lvl, msg)] t else t).

Definition set_optimizer (o : attr Optimizer) : T unit := λ t,
  (Ok tt,
   {| _trainer := _trainer t; _train_dl := _train_dl t;
      hypers_lr := hypers_lr t; cfg_optimization := cfg_optimization t;
      param_dicts := param_dicts t; _optimizer := o;
      _scheduler := _scheduler t; rank := rank t; log := log t |}).

Definition set_scheduler (s : attr LRScheduler) : T unit := λ t,
  (Ok tt,
   {| _trainer := _trainer t; _train_dl := _train_dl t;
      hypers_lr := hypers_lr t; cfg_optimization := cfg_optimization t;
      param_dicts := param_dicts t; _optimizer := _optimizer t;
      _scheduler := s; rank := rank t; log := log t |}).

(** [len(self._train_dl)] *)
Definition len_train_dl (t : Task) : result Z :=
  match _train_dl t with Some n => Ok n | None => Raise TypeError end.

(** What [num_training_steps] returns: the pair
    [(max_estimated_steps, dataset_size)], or the bare [max_steps]. *)
Inductive steps : Type :=
  | Steps (n : Z)
  | StepsPair (max_estimated_steps dataset_size : Z).

(** [num_training_steps()] *)
Definition num_training_steps (t : Task) : result steps :=
  let trainer := _trainer t in
  rbind
    (match limit_train_batches trainer with
     | LimitInt n => if negb (Z.eqb n 0) then Ok n else len_train_dl t
     | LimitFloat f => rbind (len_train_dl t) (λ n, int_mul_float n f)
     | LimitOther => len_train_dl t
     end)
    (λ dataset_size,
  let num_devices := Z.max (Z.max 1 (num_gpus trainer)) (num_processes trainer) in
  rbind
    (match tpu_cores trainer with
     | TpuNone => Ok num_devices
     | TpuInt n => if Z.eqb n 0 then Ok num_devices else Ok (Z.max num_devices n)
     | TpuList [] => Ok num_devices
     | TpuList (_ :: _) => Raise TypeError
     end)
    (λ num_devices,
  let effective_batch_size := accumulate_grad_batches trainer * num_devices in
  if Z.eqb effective_batch_size 0 then Raise ZeroDivisionError else
  match max_epochs trainer with
  | None => Raise TypeError
  | Some epochs =>
      let max_estimated_steps := (dataset_size / effective_batch_size) * epochs in
      match max_steps trainer with
      | Some cap =>
          if negb (Z.eqb cap 0) && Z.ltb cap max_estimated_steps
          then Ok (Steps cap)
          else Ok (StepsPair max_estimated_steps dataset_size)
      | None => Ok (StepsPair max_estimated_steps dataset_size)
      end
  end)).

(** [ifnone(a, b)], with [b] already evaluated. *)
Definition ifnone {A} (a : option A) (b : A) : A := default b a.

(** One of the four [if key in sched_config: if sched_config[key] == -1:]
    blocks: the update of the scheduler's argument and the log record. *)
Definition fill_sentinel (key : string) (value : Z) (sched_config : kwds)
    (init_args : kwds) : T kwds :=
  match sched_config !! key with
  | Some v =>
      if py_eq_int v (-1) then
        log_main_process DEBUG
          ("Set the value of '" +:+ key +:+ "' to be " +:+ pretty value +:+ ".");;
        mret (<[key := VInt value]> init_args)
      else mret init_args
  | None => mret init_args
  end.

(** [process_optim_config(opt_conf)] *)
Definition process_optim_config (opt_conf : OptimConf) : T OptimConf :=
  t ← self;
  if bool_decide (max_epochs (_trainer t) = None ∧ max_steps (_trainer t) = None)
  then throw (ValueError
                "Either one of max_epochs or max_epochs must be provided in Trainer")
  else
    r ← of_result (num_training_steps t);
    '(max_steps, steps) ←
      match r with
      | StepsPair a b => mret (a, b)
      | Steps _ => throw TypeError
      end;
    quotient ← (if Z.eqb steps 0 then throw ZeroDivisionError
                else mret (max_steps / steps));
    let max_epochs := ifnone (max_epochs (_trainer t)) quotient in
    let steps_per_epoch' :=
      if conf_steps_per_epoch opt_conf <? 1 then steps
      else conf_steps_per_epoch opt_conf in
    let max_steps' :=
      if conf_max_steps opt_conf <? 1 then max_steps
      else conf_max_steps opt_conf in
    let max_epochs' :=
      if conf_max_epochs opt_conf <? 1 then max_epochs
      else conf_max_epochs opt_conf in
    sched_config ←
      match sch_init_args (scheduler opt_conf) with
      | Some d => mret d
      | None =>
          throw (ValueError
                   "Input cfg is not an OmegaConf config object (NoneType)")
      end;
    a ← fill_sentinel "max_iters" max_steps sched_config sched_config;
    a ← fill_sentinel "epochs" max_epochs sched_config a;
    a ← fill_sentinel "steps_per_epoch" steps sched_config a;
    a ← fill_sentinel "max_steps" max_steps sched_config a;
    mret {| conf_steps_per_epoch := steps_per_epoch';
            conf_max_steps := max_steps';
            conf_max_epochs := max_epochs';
            optimizer := optimizer opt_conf;
            scheduler :=
              {| sch_name := sch_name (scheduler opt_conf);
                 sch_init_args := Some a;
                 sch_interval := sch_interval (scheduler opt_conf);
                 sch_monitor := sch_monitor (scheduler opt_conf) |} |}.

(** Modelled from the spec: the [Registry] class of
    [gale/utils/structures.py] is not among the sources. A registry is a
    table keyed by name, looked up by exact match; [REGISTRY.get(name)]
    gives the entry, and for a name without entry it is taken to raise
    [KeyError]. *)
Definition registry_get {A} (reg : gmap string A) (name : string) : result A :=
  match reg !! name with Some a => Ok a | None => Raise (KeyError name) end.

(** [build_optimizer(opt_conf, params)] *)
Definition build_optimizer (opt_conf : OptimConf) (params : Params)
  : T (option Optimizer) :=
  match opt_name (optimizer opt_conf) with
  | None =>
      log_main_process WARNING
        "Optimizer is None, therefore no optimizer will be created.";;
      mret None
  | Some name =>
      instance ← of_result (registry_get OPTIM_REGISTRY name);
      init_args ← match opt_init_args (optimizer opt_conf) with
                  | Some a => mret a
                  | None => throw TypeError
                  end;
      opt ← of_result (instance params init_args);
      log_main_process DEBUG ("Created optimizer: " +:+ optimizer_class opt);;
      mret (Some opt)
  end.

(** The loop that builds the keyword arguments of the scheduler: a list
    value is passed on as a list, otherwise [max_lr] becomes the learning
    rate of the model, otherwise the value is passed on. *)
Definition scheduler_kwds (max_lrs : pyval) (d_args : kwds) : kwds :=
  map_fold (λ key value kwds,
              match value with
              | VList l => <[key := VList l]> kwds
              | _ => if decide (key = "max_lr") then <["max_lr" := max_lrs]> kwds
                     else <[key := value]> kwds
              end) ∅ d_args.

(** [build_lr_scheduler(opt_conf, optimizer)] *)
Definition build_lr_scheduler (opt_conf : OptimConf)
    (optimizer : option Optimizer) : T (option LRScheduler) :=
  t ← self;
  max_lrs ← match hypers_lr t with
            | Some lr => mret lr
            | None => throw AttributeError
            end;
  match sch_name (scheduler opt_conf) with
  | None =>
      log_main_process INFO
        "scheduler is None, so no scheduler will be created.";;
      mret None
  | Some name =>
      d_args ← match sch_init_args (scheduler opt_conf) with
               | Some d => mret d
               | None =>
                   throw (ValueError
                            "Input cfg is not an OmegaConf config object (NoneType)")
               end;
      let kwds := scheduler_kwds max_lrs d_args in
      instance ← of_result (registry_get SCHEDULER_REGISTRY name);
      sch ← of_result (instance optimizer kwds);
      log_main_process DEBUG
        ("Created lr_scheduler : " +:+ scheduler_class sch +:+ ".");;
      mret (Some {| lrs_scheduler := sch;
                    lrs_interval := sch_interval (scheduler opt_conf);
                    lrs_monitor := sch_monitor (scheduler opt_conf) |})
  end.

(** [setup_optimization(conf)] *)
Definition setup_optimization (conf : option OptimConf) : T unit :=
  t ← self;
  let conf := match conf with
              | None => cfg_optimization t
              | Some c => Some c
              end in
  match conf with
  | None =>
      log_main_process WARNING
        "No optimization config found, therefore no optimizer was created";;
      set_optimizer PyNone;;
      set_scheduler PyNone
  | Some opt_conf =>
      opt_conf ← process_optim_config opt_conf;
      t ← self;
      opt ← build_optimizer opt_conf (param_dicts t);
      set_optimizer (attr_of_option opt);;
      sch ← build_lr_scheduler opt_conf opt;
      set_scheduler (attr_of_option sch)
  end.

(** What [configure_optimizers] returns: the optimiser attribute alone, or
    the pair of one-element lists [[optimizer], [scheduler]]. *)
Inductive configured : Type :=
  | JustOptimizer (o : attr Optimizer)
  | WithScheduler (o : list (attr Optimizer)) (s : list (attr LRScheduler)).

Definition is_noop {A} (a : attr A) : bool :=
  match a with Noop => true | _ => false end.

(** [configure_optimizers()] *)
Definition configure_optimizers : T configured :=
  t ← self;
  (if is_noop (_optimizer t) && is_noop (_scheduler t)
   then setup_optimization None else mret tt);;
  t ← self;
  match _scheduler t with
  | PyNone => mret (JustOptimizer (_optimizer t))
  | s => mret (WithScheduler [_optimizer t] [s])
  end.

(** The task with another trainer. *)
Definition with_trainer (trainer : Trainer) (t : Task) : Task :=
  {| _trainer := trainer; _train_dl := _train_dl t;
     hypers_lr := hypers_lr t; cfg_optimization := cfg_optimization t;
     param_dicts := param_dicts t; _optimizer := _optimizer t;
     _scheduler := _scheduler t; rank := rank t; log := log t |}.

End task.

(** The trainer with another [max_steps]. *)
Definition with_max_steps (cap : option Z) (trainer : Trainer) : Trainer :=
  {| max_epochs := max_epochs trainer; max_steps := cap;
     limit_train_batches := limit_train_batches trainer;
     accumulate_grad_batches := accumulate_grad_batches trainer;
     num_gpus := num_gpus trainer; num_processes := num_processes trainer;
     tpu_cores := tpu_cores trainer |}.

(** The four arguments of a scheduler that [process_optim_config] fills
    in, with the value each one gets. *)
Definition sentinel_value (max_steps max_epochs steps : Z) (key : string)
  : option Z :=
  if decide (key = "max_iters") then Some max_steps
  else if decide (key = "epochs") then Some max_epochs
  else if decide (key = "steps_per_epoch") then Some steps
  else if decide (key = "max_steps") then Some max_steps
  else None.

(** The arguments of the scheduler after one of the four blocks of
    [process_optim_config]. *)
Definition fill (key : string) (value : Z) (sched_config init_args : kwds)
  : gmap string pyval :=
  match sched_config !! key with
  | Some v => if py_eq_int v (-1) then <[key := VInt value]> init_args
              else init_args
  | None => init_args
  end.

(** The arguments of the scheduler after the four blocks. *)
Definition filled (max_steps max_epochs steps : Z) (d : kwds)
  : gmap string pyval :=
  fill "max_steps" max_steps d
    (fill "steps_per_epoch" steps d
       (fill "epochs" max_epochs d (fill "max_iters" max_steps d d))).

(** The configuration with its three numbers resolved from the steps
    [max_steps], the epochs [max_epochs] and the dataset size [steps], and
    with the scheduler's arguments [init_args]. *)
Definition resolved (opt_conf : OptimConf) (max_steps max_epochs steps : Z)
    (init_args : kwds) : OptimConf :=
  {| conf_steps_per_epoch :=
       if conf_steps_per_epoch opt_conf <? 1 then steps
       else conf_steps_per_epoch opt_conf;
     conf_max_steps :=
       if conf_max_steps opt_conf <? 1 then max_steps
       else conf_max_steps opt_conf;
     conf_max_epochs :=
       if conf_max_epochs opt_conf <? 1 then max_epochs
       else conf_max_epochs opt_conf;
     optimizer := optimizer opt_conf;
     scheduler :=
       {| sch_name := sch_name (scheduler opt_conf);
          sch_init_args := Some init_args;
          sch_interval := sch_interval (scheduler opt_conf);
          sch_monitor := sch_monitor (scheduler opt_conf) |} |}.

(** What the loop of [build_lr_scheduler] does to the value at a key. *)
Definition kwd_value (max_lrs : pyval) (key : string) (value : pyval) : pyval :=
  match value with
  | VList l => VList l
  | _ => if decide (key = "max_lr") then max_lrs else value
  end.

(** The error of [process_optim_config] for a trainer without limits. *)
Definition no_limits_error : exn :=
  ValueError "Either one of max_epochs or max_epochs must be provided in Trainer".

End CoreClasses.

(** ** gale/core_classes.py: freezing the parameters of a [BasicModule] *)

Module BasicModule.

(** A module as far as freezing goes: the [requires_grad] flag of each of
    its parameters, in the order of [parameters()]; its mode; [frozen_idx]
    once it is set; the warnings logged. *)
Record nn_module : Type := mkModule {
  requires_grad : list bool;
  training : bool;
  frozen_idx : option Z;
  warnings : list string
}.

(** A bound of the slice [l[start:stop]] of a list of length [len]: left
    out it is the given end of the list, negative it counts from the end,
    and it is clamped to the list. *)
Definition slice_bound (len : nat) (end_ : nat) (i : option Z) : nat :=
  match i with
  | None => end_
  | Some i =>
      Z.to_nat (if i <? 0 then Z.max (Z.of_nat len + i) 0
                else Z.min i (Z.of_nat len))
  end.

(** [all_params(slice(start, stop))]: the parameters
    [self.param_lists[start:stop]], by their positions. *)
Definition all_params (m : nn_module) (start stop : option Z) : list nat :=
  let len := length (requires_grad m) in
  let lo := slice_bound len 0 start in
  let hi := slice_bound len len stop in
  seq lo (hi - lo).

(** [for o in params: self._set_require_grad(rg, o)] *)
Definition set_require_grad (rg : bool) (params : list nat) (m : nn_module)
  : nn_module :=
  {| requires_grad := foldl (λ flags p, <[p := rg]> flags) (requires_grad m) params;
     training := training m;
     frozen_idx := frozen_idx m;
     warnings := warnings m |}.

(** [unfreeze()] *)
Definition unfreeze (m : nn_module) : nn_module :=
  {| requires_grad := const true <$> requires_grad m;
     training := true;
     frozen_idx := frozen_idx m;
     warnings := warnings m |}.

(** [freeze()] *)
Definition freeze (m : nn_module) : nn_module :=
  {| requires_grad := const false <$> requires_grad m;
     training := false;
     frozen_idx := frozen_idx m;
     warnings := warnings m |}.

(** [freeze_to(n)] *)
Definition freeze_to (n : Z) (m : nn_module) : nn_module :=
  let len := Z.of_nat (length (requires_grad m)) in
  let idx := if 0 <=? n then n else len + n in
  let m := {| requires_grad := requires_grad m;
              training := training m;
              frozen_idx := Some idx;
              warnings :=
                if len <=? idx
                then warnings m
                       ++ ["Freezing " +:+ pretty idx +:+ " groups; model has "
                             +:+ pretty len +:+ "; whole model is frozen."]
                else warnings m |} in
  let m := set_require_grad true (all_params m (Some n) None) m in
  set_require_grad false (all_params m None (Some n)) m.

(** [with self.as_frozen(): body]: the module is frozen, the body runs,
    and the module is unfrozen whether the body returns or raises. *)
Definition as_frozen {A} (body : nn_module → result A * nn_module)
    (m : nn_module) : result A * nn_module :=
  let '(r, m') := body (freeze m) in
  (r, unfreeze m').

End BasicModule.

(** ** gale/utils/logger.py *)

Module Logger.

(** Levels of the [logging] module. *)
Definition NOTSET : Z := 0.
Definition DEBUG : Z := 10.
Definition INFO : Z := 20.
Definition WARNING : Z := 30.

(** The formatter of a handler: [_ColorfulFormatter] keeps the root name
    and the abbreviated name, each with a dot appended (the abbreviation
    only when it is not empty); the other one is the plain formatter. *)
Inductive Formatter : Type :=
  | ColorfulFormatter (_root_name _abbrev_name : string)
  | PlainFormatter.

Definition new_ColorfulFormatter (root_name abbrev_name : string) : Formatter :=
  ColorfulFormatter (root_name +:+ ".")
    (if decide (String.length abbrev_name = 0%nat) then abbrev_name
     else abbrev_name +:+ ".").

(** A [StreamHandler] on standard output. *)
Record Handler : Type := mkHandler {
  h_level : Z;
  h_formatter : Formatter
}.

Record LoggerObj : Type := mkLogger {
  level : Z;
  propagate : bool;
  handlers : list Handler
}.

(** The way a call is written: its positional arguments and its keyword
    arguments, in the order given. [functools.lru_cache] keys its entries
    on exactly this. *)
Inductive kwarg : Type :=
  | KwRank (distributed_rank : Z)
  | KwColor (color : bool)
  | KwName (name : string)
  | KwLevel (level : Z).

Record call : Type := mkCall {
  args : list Z;
  kwargs : list kwarg
}.

Global Instance Formatter_eq_dec : EqDecision Formatter.
Proof. solve_decision. Defined.
Global Instance kwarg_eq_dec : EqDecision kwarg.
Proof. solve_decision. Defined.
Global Instance call_eq_dec : EqDecision call.
Proof. solve_decision. Defined.

(** The state of the process: the entries of the cache of [setup_logger],
    most recently used first, and the loggers that the [logging] module has
    created, by name. A logger object is identified by that name. *)
Record state : Type := mkState {
  cache : list (call * string);
  manager : gmap string LoggerObj
}.

Definition init : state := {| cache := []; manager := ∅ |}.

Definition maxsize : nat := 128.

Definition kw_rank (kws : list kwarg) : option Z :=
  head (omap (λ k, match k with KwRank z => Some z | _ => None end) kws).
Definition kw_color (kws : list kwarg) : option bool :=
  head (omap (λ k, match k with KwColor b => Some b | _ => None end) kws).
Definition kw_name (kws : list kwarg) : option string :=
  head (omap (λ k, match k with KwName n => Some n | _ => None end) kws).
Definition kw_level (kws : list kwarg) : option Z :=
  head (omap (λ k, match k with KwLevel z => Some z | _ => None end) kws).

(** The parameters [(distributed_rank, color, name, level)] that a call
    binds, with the defaults of the signature
    [setup_logger(distributed_rank=0, *, color=True, name="gale",
    level=logging.DEBUG)]; a second positional argument, or the rank given
    both ways, is a [TypeError]. *)
Definition bind_args (c : call) : result (Z * bool * string * Z) :=
  let color := default true (kw_color (kwargs c)) in
  let name := default "gale" (kw_name (kwargs c)) in
  let level := default DEBUG (kw_level (kwargs c)) in
  match args c, kw_rank (kwargs c) with
  | [], None => Ok (0, color, name, level)
  | [], Some r => Ok (r, color, name, level)
  | [r], None => Ok (r, color, name, level)
  | [_], Some _ => Raise TypeError
  | _ :: _ :: _, _ => Raise TypeError
  end.

(** [logging.getLogger(name)]: the logger of that name, created on first
    use; the empty name is the root logger. *)
Definition logger_ref (name : string) : string :=
  if decide (name = "") then "root" else name.
Definition new_logger (ref : string) : LoggerObj :=
  {| level := if decide (ref = "root") then WARNING else NOTSET;
     propagate := true;
     handlers := [] |}.
Definition getLogger (name : string) (m : gmap string LoggerObj)
  : string * gmap string LoggerObj :=
  let ref := logger_ref name in
  match m !! ref with
  | Some _ => (ref, m)
  | None => (ref, <[ref := new_logger ref]> m)
  end.

Definition setLevel (lvl : Z) (l : LoggerObj) : LoggerObj :=
  {| level := lvl; propagate := propagate l; handlers := handlers l |}.
Definition set_propagate (b : bool) (l : LoggerObj) : LoggerObj :=
  {| level := level l; propagate := b; handlers := handlers l |}.
Definition addHandler (hd : Handler) (l : LoggerObj) : LoggerObj :=
  {| level := level l; propagate := propagate l;
     handlers := handlers l ++ [hd] |}.

(** The body of [setup_logger]. *)
Definition setup_logger_body (distributed_rank : Z) (color : bool)
    (name : string) (lvl : Z) (m : gmap string LoggerObj)
  : string * gmap string LoggerObj :=
  let '(logger, m) := getLogger name m in
  let m := alter (setLevel lvl) logger m in
  let m := alter (set_propagate false) logger m in
  let abbrev_name := name in
  let plain_formatter := PlainFormatter in
  if Z.eqb distributed_rank 0 then
    let formatter :=
      if color then new_ColorfulFormatter name abbrev_name
      else plain_formatter in
    let ch := {| h_level := DEBUG; h_formatter := formatter |} in
    (logger, alter (addHandler ch) logger m)
  else (logger, m).

Fixpoint cache_find (c : call) (entries : list (call * string))
  : option string :=
  match entries with
  | [] => None
  | e :: entries' =>
      if decide (fst e = c) then Some (snd e) else cache_find c entries'
  end.

(** [setup_logger] under [@functools.lru_cache()]: a call whose key is in
    the cache returns the stored logger and becomes the most recent entry;
    otherwise the body runs and its result is stored, in place of the least
    recently used entry when the cache is full. A call that raises stores
    nothing. *)
Definition setup_logger (c : call) (s : state) : result string * state :=
  match cache_find c (cache s) with
  | Some logger =>
      (Ok logger,
       {| cache := (c, logger) :: filter (λ e, fst e ≠ c) (cache s);
          manager := manager s |})
  | None =>
      match bind_args c with
      | Raise e => (Raise e, s)
      | Ok (distributed_rank, color, name, lvl) =>
          let '(logger, m) :=
            setup_logger_body distributed_rank color name lvl (manager s) in
          let kept :=
            if decide (maxsize ≤ length (cache s))%nat
            then take (maxsize - 1) (cache s) else cache s in
          (Ok logger, {| cache := (c, logger) :: kept; manager := m |})
      end
  end.

(** A sequence of calls, one after the other: the results and the final
    state. *)
Fixpoint run (calls : list call) (s : state) : list (result string) * state :=
  match calls with
  | [] => ([], s)
  | c :: calls' =>
      let '(r, s') := setup_logger c s in
      let '(rs, s'') := run calls' s' in
      (r :: rs, s'')
  end.

(** The handlers attached to the logger named [ref]. *)
Definition handlers_in (m : gmap string LoggerObj) (ref : string)
  : list Handler :=
  match m !! ref with
  | Some l => handlers l
  | None => []
  end.
Definition handlers_of (s : state) (ref : string) : list Handler :=
  handlers_in (manager s) ref.

(** What a call returns whatever the cache holds: the logger of the name it
    binds, or the error of a call that does not bind. *)
Definition returns (c : call) : result string :=
  match bind_args c with
  | Ok (_, _, name, _) => Ok (logger_ref name)
  | Raise e => Raise e
  end.

(** The call binds rank 0 and the name of the logger [ref]: its body
    attaches a handler to that logger. *)
Definition attaches (ref : string) (c : call) : bool :=
  match bind_args c with
  | Ok (distributed_rank, _, name, _) =>
      bool_decide (distributed_rank = 0 ∧ logger_ref name = ref)
  | Raise _ => false
  end.

Definition keys (s : state) : list call := fst <$> cache s.

(** What holds of the state after the calls [t], as long as the cache has
    not been full: the keys of the cache are the calls made that bind, each
    once, each with the logger it returns, and every logger has one handler
    per key that attaches one. *)
Record Inv (t : list call) (s : state) : Prop := {
  inv_nodup : NoDup (keys s);
  inv_sound : ∀ c r, (c, r) ∈ cache s → c ∈ t ∧ returns c = Ok r;
  inv_complete : ∀ c, c ∈ t → is_ok (bind_args c) → c ∈ keys s;
  inv_handlers : ∀ ref,
    length (handlers_of s ref)
    = length (filter (λ c, attaches ref c) (keys s))
}.

(** What holds of the state after the calls [t] however many they are:
    every entry of the cache holds the logger that its call returns, the
    cache is within its size, a logger has at most one handler per call
    made that attaches one, and every logger set up does not propagate
    and has its handlers at level [DEBUG]. *)
Record Sound (t : list call) (s : state) : Prop := {
  sound_cache : ∀ c r, (c, r) ∈ cache s → returns c = Ok r;
  sound_size : (length (cache s) ≤ maxsize)%nat;
  sound_handlers : ∀ ref,
    (length (handlers_of s ref) ≤ length (filter (λ c, attaches ref c) t))%nat;
  sound_loggers : ∀ ref l,
    manager s !! ref = Some l →
    propagate l = false ∧ ∀ hd, hd ∈ handlers l → h_level hd = DEBUG
}.

End Logger.

(** * Inputs for the examples *)

Section pandas_inputs.
Import Pandas.

Example fold_frame : DataFrame :=
  {| df_width := 3;
     df_columns := [# "image_id"; "target"; "kfold"];
     df_rows := [ (10, [# CStr "a.png"; CStr "dog"; CInt 0]);
                  (11, [# CStr "b.png"; CStr "cat"; CInt 1]);
                  (12, [# CStr "c.png"; CStr "dog"; CInt 1]);
                  (13, [# CStr "d.png"; CStr "ant"; CInt 2]) ] |}.

Example shuffled_frame : DataFrame :=
  {| df_width := 2;
     df_columns := [# "label"; "file"];
     df_rows := [ (0, [# CStr "ant"; CStr "1.png"]);
                  (1, [# CStr "dog"; CStr "2.png"]);
                  (2, [# CStr "ant"; CStr "3.png"]);
                  (3, [# CStr "cat"; CStr "4.png"]) ] |}.

(** Integer labels are ordered as numbers before [str] is applied. *)
Example int_label_frame : DataFrame :=
  {| df_width := 1;
     df_columns := [# "target"];
     df_rows := [ (0, [# CInt 10]); (1, [# CInt 2]); (2, [# CInt 10]) ] |}.

Example mixed_frame : DataFrame :=
  {| df_width := 1;
     df_columns := [# "target"];
     df_rows := [ (0, [# CStr "cat"]); (1, [# CInt 3]) ] |}.

Example encoded_fold_frame : DataFrame :=
  {| df_width := 3;
     df_columns := [# "image_id"; "target"; "kfold"];
     df_rows := [ (10, [# CStr "a.png"; CInt 2; CInt 0]);
                  (11, [# CStr "b.png"; CInt 1; CInt 1]);
                  (12, [# CStr "c.png"; CInt 2; CInt 1]);
                  (13, [# CStr "d.png"; CInt 0; CInt 2]) ] |}.

End pandas_inputs.

Section logger_inputs.
Import Logger.

(** The four parameters bound, the written calls differing: one run. *)
Example logger_run : list call :=
  [ mkCall [] []; mkCall [] []; mkCall [1] [KwName "worker"];
    mkCall [] [KwName "gale"; KwColor false]; mkCall [] [] ].

(** With more than 128 distinct written calls the cache evicts: after
    129 calls that name 129 loggers, the first call written again runs the
    body again and its logger has two handlers. *)
Example eviction_run : list call :=
  let named := (λ i : nat, mkCall [] [KwName (pretty i)]) <$> seq 0 129 in
  named ++ [mkCall [] [KwName "0"]].

End logger_inputs.

(** A registry with the three losses of the module, each constructing an
    object that records its class and its arguments, and a fragment of
    [torch.nn.modules.loss]. *)
Definition demo_loss : Type := string * gmap string pyval.
Definition demo_ctor (cls : string) (a : gmap string pyval)
  : result demo_loss := Ok (cls, a).
Definition demo_registry : gmap string (gmap string pyval → result demo_loss) :=
  list_to_map [ ("LabelSmoothingCrossEntropy", demo_ctor "LabelSmoothingCrossEntropy");
                ("BinarySigmoidFocalLoss", demo_ctor "BinarySigmoidFocalLoss");
                ("FocalLoss", demo_ctor "FocalLoss") ].
Definition demo_torch_losses : gmap string (gmap string pyval → result demo_loss) :=
  list_to_map [ ("CrossEntropyLoss", demo_ctor "CrossEntropyLoss");
                ("MSELoss", demo_ctor "MSELoss") ].
Definition demo_tensor (v : pyval) : result pyval :=
  match v with
  | VList _ | VInt _ | VFloat _ | VBool _ => Ok (VTensor v)
  | _ => Raise TypeError
  end.

(** *** A task to run the set-up on

    Optimisers and schedulers that record what they were constructed
    with: an optimiser is its class and keyword arguments, a scheduler the
    optimiser it was bound to and its keyword arguments. *)

Definition demo_optimizer : Type := string * gmap string pyval.
Definition demo_scheduler : Type :=
  string * option demo_optimizer * gmap string pyval.
Definition demo_optim_registry
  : gmap string (unit → gmap string pyval → result demo_optimizer) :=
  list_to_map [ ("SGD", λ _ a, Ok ("SGD", a)); ("Adam", λ _ a, Ok ("Adam", a)) ].
Definition demo_scheduler_registry
  : gmap string (option demo_optimizer → gmap string pyval → result demo_scheduler) :=
  list_to_map [ ("OneCycleLR", λ o a, Ok ("OneCycleLR", o, a));
                ("StepLR", λ o a, Ok ("StepLR", o, a)) ].

(** The float [m * 2^e]. *)
Definition float_lit (m e : Z) : spec_float :=
  binary_normalize CoreClasses.prec CoreClasses.emax m e false.

Definition demo_trainer : CoreClasses.Trainer :=
  {| CoreClasses.max_epochs := Some 10;
     CoreClasses.max_steps := None;
     CoreClasses.limit_train_batches := CoreClasses.LimitFloat (float_lit 1 0);
     CoreClasses.accumulate_grad_batches := 1;
     CoreClasses.num_gpus := 1;
     CoreClasses.num_processes := 1;
     CoreClasses.tpu_cores := CoreClasses.TpuNone |}.

Definition demo_task (trainer : CoreClasses.Trainer)
  : @CoreClasses.Task demo_optimizer demo_scheduler unit :=
  {| CoreClasses._trainer := trainer;
     CoreClasses._train_dl := Some 500;
     CoreClasses.hypers_lr := Some (VFloat (float_lit 1 (-10)));
     CoreClasses.cfg_optimization := None;
     CoreClasses.param_dicts := tt;
     CoreClasses._optimizer := CoreClasses.Noop;
     CoreClasses._scheduler := CoreClasses.Noop;
     CoreClasses.rank := 0;
     CoreClasses.log := [] |}.

Definition demo_conf (optimizer_name scheduler_name : option string)
    (scheduler_args : gmap string pyval) : CoreClasses.OptimConf :=
  {| CoreClasses.conf_steps_per_epoch := -1;
     CoreClasses.conf_max_steps := -1;
     CoreClasses.conf_max_epochs := -1;
     CoreClasses.optimizer :=
       {| CoreClasses.opt_name := optimizer_name;
          CoreClasses.opt_init_args := Some {["lr" := VFloat (float_lit 1 (-10))]} |};
     CoreClasses.scheduler :=
       {| CoreClasses.sch_name := scheduler_name;
          CoreClasses.sch_init_args := Some scheduler_args;
          CoreClasses.sch_interval := VStr "step";
          CoreClasses.sch_monitor := VNone |} |}.

Definition demo_build_lr_scheduler :=
  @CoreClasses.build_lr_scheduler demo_optimizer demo_scheduler unit
    (λ s, fst (fst s)) demo_scheduler_registry.

(** The trainer of C1: [max_epochs=None], [max_steps=1000],
    [accumulate_grad_batches=1], [num_gpus=1]; the rest as given. *)
Definition c1_trainer (limit : CoreClasses.Limit) (processes : Z)
    (tpu : CoreClasses.TpuCores) : CoreClasses.Trainer :=
  {| CoreClasses.max_epochs := None;
     CoreClasses.max_steps := Some 1000;
     CoreClasses.limit_train_batches := limit;
     CoreClasses.accumulate_grad_batches := 1;
     CoreClasses.num_gpus := 1;
     CoreClasses.num_processes := processes;
     CoreClasses.tpu_cores := tpu |}.

Definition demo_setup_optimization :=
  @CoreClasses.setup_optimization demo_optimizer demo_scheduler unit
    (λ o, fst o) (λ s, fst (fst s)) demo_optim_registry demo_scheduler_registry.

(** A configuration without optimiser name and with a scheduler name. *)
Definition no_optimizer_conf : CoreClasses.OptimConf :=
  demo_conf None (Some "StepLR") {["step_size" := VInt 3]}.
Definition no_optimizer_resolved : CoreClasses.OptimConf :=
  match fst (CoreClasses.process_optim_config no_optimizer_conf
               (demo_task demo_trainer)) with
  | Ok c => c
  | Raise _ => no_optimizer_conf
  end.

(** A configuration that names neither an optimiser nor a scheduler, and
    what [process_optim_config] makes of it. *)
Definition no_names_conf : CoreClasses.OptimConf := demo_conf None None ∅.
Definition no_names_resolved : CoreClasses.OptimConf :=
  match fst (CoreClasses.process_optim_config no_names_conf
               (demo_task demo_trainer)) with
  | Ok c => c
  | Raise _ => no_names_conf
  end.

(** The task as [__init__] leaves its model: the [noop] placeholder, which
    has no [hypers]. *)
Definition without_model
    (t : @CoreClasses.Task demo_optimizer demo_scheduler unit)
  : @CoreClasses.Task demo_optimizer demo_scheduler unit :=
  {| CoreClasses._trainer := CoreClasses._trainer t;
     CoreClasses._train_dl := CoreClasses._train_dl t;
     CoreClasses.hypers_lr := None;
     CoreClasses.cfg_optimization := CoreClasses.cfg_optimization t;
     CoreClasses.param_dicts := CoreClasses.param_dicts t;
     CoreClasses._optimizer := CoreClasses._optimizer t;
     CoreClasses._scheduler := CoreClasses._scheduler t;
     CoreClasses.rank := CoreClasses.rank t;
     CoreClasses.log := CoreClasses.log t |}.

(** A scheduler registry whose constructors reject [optimizer=None], as
    those of the optimiser library do. *)
Definition strict_scheduler_registry
  : gmap string (option demo_optimizer → gmap string pyval → result demo_scheduler) :=
  list_to_map
    [ ("StepLR", λ o a, match o with
                        | Some _ => Ok ("StepLR", o, a)
                        | None => Raise TypeError
                        end) ].

Definition demo_configure_optimizers :=
  @CoreClasses.configure_optimizers demo_optimizer demo_scheduler unit
    (λ o, fst o) (λ s, fst (fst s)) demo_optim_registry demo_scheduler_registry.

(** A configuration with an optimiser and a one-cycle scheduler whose
    [epochs] and [steps_per_epoch] are left to be filled in, and what
    [process_optim_config] makes of it on the task above. *)
Definition one_cycle_conf : CoreClasses.OptimConf :=
  demo_conf (Some "SGD") (Some "OneCycleLR")
    {[ "max_lr" := VFloat (float_lit 1 (-1));
       "epochs" := VInt (-1);
       "steps_per_epoch" := VInt (-1);
       "three_phase" := VBool false ]}.
Definition one_cycle_resolved : CoreClasses.OptimConf :=
  match fst (CoreClasses.process_optim_config one_cycle_conf
               (demo_task demo_trainer)) with
  | Ok c => c
  | Raise _ => one_cycle_conf
  end.

(** A configuration whose scheduler is not registered. *)
Definition unknown_scheduler_conf : CoreClasses.OptimConf :=
  demo_conf (Some "SGD") (Some "CosineLR") ∅.

(** The task above with an [optimization] part in its configuration, on
    the process of the given rank. *)
Definition demo_task_with (conf : CoreClasses.OptimConf) (rank : Z)
  : @CoreClasses.Task demo_optimizer demo_scheduler unit :=
  {| CoreClasses._trainer := demo_trainer;
     CoreClasses._train_dl := Some 500;
     CoreClasses.hypers_lr := Some (VFloat (float_lit 1 (-10)));
     CoreClasses.cfg_optimization := Some conf;
     CoreClasses.param_dicts := tt;
     CoreClasses._optimizer := CoreClasses.Noop;
     CoreClasses._scheduler := CoreClasses.Noop;
     CoreClasses.rank := rank;
     CoreClasses.log := [] |}.

(** What [configure_optimizers] returns on it. *)
Definition one_cycle_configured
  : @CoreClasses.configured demo_optimizer demo_scheduler :=
  match fst (demo_configure_optimizers (demo_task_with one_cycle_conf 0)) with
  | Ok r => r
  | Raise _ => CoreClasses.JustOptimizer CoreClasses.Noop
  end.

(** A module of three parameters, all requiring a gradient, in training
    mode. *)
Definition three_params : BasicModule.nn_module :=
  {| BasicModule.requires_grad := [true; true; true];
     BasicModule.training := true;
     BasicModule.frozen_idx := None;
     BasicModule.warnings := [] |}.

(** *** Tensors to run the loss on

    Tensors of shape (N, C) as lists of rows, targets as lists of
    class numbers, no weights; sums from left to right. On a row whose
    greatest logit is 0 and whose other logits are [-inf], or so far
    below that their exponential is 0 in the type, [log_softmax] gives
    the row itself: the sum of the exponentials is 1 and its logarithm
    0. The rows of the examples are of that kind, and
    [demo_log_softmax] is for them. *)
Definition demo_sum (d : Losses.dtype) (xs : list spec_float) : spec_float :=
  foldl (SFadd (Losses.dtype_prec d) (Losses.dtype_emax d)) (S754_zero false) xs.
Definition demo_size1 (x : list (list spec_float)) : Z :=
  match x with r :: _ => Z.of_nat (length r) | [] => 0 end.
Definition demo_log_softmax (x : list (list spec_float))
  : list (list spec_float) := x.
Definition demo_sum_all (d : Losses.dtype) (x : list (list spec_float))
  : spec_float := demo_sum d (concat x).
Definition demo_sum_dim1 (d : Losses.dtype) (x : list (list spec_float))
  : list spec_float := demo_sum d <$> x.
Definition demo_mean (d : Losses.dtype) (xs : list spec_float) : spec_float :=
  SFdiv (Losses.dtype_prec d) (Losses.dtype_emax d) (demo_sum d xs)
    (Losses.scalar d (Losses.PyInt (Z.of_nat (length xs)))).
Definition demo_nll_loss (d : Losses.dtype) (log_preds : list (list spec_float))
    (target : list nat) (weight : option Empty_set) (reduction : string)
  : result Losses.tensor :=
  let picked :=
    zip_with (λ row t, SFopp (default S754_nan (row !! t))) log_preds target in
  if decide (reduction = "none") then Ok (Losses.Vector picked)
  else if decide (reduction = "sum") then Ok (Losses.Scalar (demo_sum d picked))
  else if decide (reduction = "mean") then Ok (Losses.Scalar (demo_mean d picked))
  else Raise (ValueError (reduction +:+ " is not a valid value for reduction")).

Definition demo_forward (d : Losses.dtype) :=
  @Losses.forward (list (list spec_float)) (list nat) Empty_set d
    demo_size1 demo_log_softmax (demo_sum_all d) (demo_sum_dim1 d)
    (demo_mean d) (demo_nll_loss d).
Definition demo_smoothing_term (d : Losses.dtype) :=
  @Losses.smoothing_term (list (list spec_float)) Empty_set
    (demo_sum_all d) (demo_sum_dim1 d) (demo_mean d).

(** The loss with [eps=0], and two single precision inputs of one sample
    and two classes: logits 0 and -1000, and logits 0 and [-inf]. *)
Definition no_smoothing (reduction : string)
  : @Losses.LabelSmoothingCrossEntropy Empty_set :=
  {| Losses.eps := Losses.PyInt 0;
     Losses.reduction := reduction;
     Losses.weight := None |}.
Definition far_logits : list (list spec_float) :=
  [[S754_zero false; binary_normalize 24 128 (-1000) 0 false]].
Definition masked_logits : list (list spec_float) :=
  [[S754_zero false; S754_infinity true]].

(** * Properties *)

Section pandas_facts.
Import Pandas.

Lemma mask_select_fmap {A B} (g : A → B) (mask : list bool) (l : list A) :
  g <$> mask_select mask l = mask_select mask (g <$> l).
Proof.
  revert l. induction mask as [|b mask IH]; intros [|x l]; try done.
  rewrite fmap_cons. cbn [mask_select]. rewrite <- IH. by destruct b.
Qed.

Lemma mask_select_filter {A} (p : A → bool) (l : list A) :
  mask_select (p <$> l) l = filter (λ x, p x) l.
Proof.
  induction l as [|x l IH]; [done|].
  rewrite fmap_cons, filter_cons. cbn [mask_select]. rewrite IH.
  by destruct (p x).
Qed.

Lemma cell_eq_int_spec v x : cell_eq_int v x ↔ x = CInt v.
Proof.
  destruct x as [s|z]; simpl; [naive_solver|].
  destruct (Z.eqb_spec z v); simpl; naive_solver.
Qed.

Lemma cell_ne_int_spec v x : cell_ne_int v x ↔ x ≠ CInt v.
Proof.
  destruct x as [s|z]; simpl; [naive_solver|].
  destruct (Z.eqb_spec z v); simpl; naive_solver.
Qed.

(** The rows that [df[c] == v] and [df[c] != v] select, read off the rows. *)
Lemma loc_series_rows (p : cell → bool) (df : DataFrame) (j : fin (df_width df)) :
  snd <$> mask_select (p <$> ((λ r, snd r !!! j) <$> df_rows df)) (df_rows df)
  = filter (λ r : vec cell (df_width df), p (r !!! j)) (snd <$> df_rows df).
Proof.
  rewrite mask_select_fmap.
  rewrite <- (mask_select_filter (λ r : vec cell (df_width df), p (r !!! j))).
  f_equal. rewrite <- !list_fmap_compose. done.
Qed.

(** One step of a computation in the store. *)
Lemma bind_ok {A B} (m : M A) (k : A → M B) h a h' :
  m h = (Ok a, h') → (m ≫= k) h = k a h'.
Proof. unfold mbind, M_bind. by intros ->. Qed.

Lemma bind_raise {A B} (m : M A) (k : A → M B) h e h' :
  m h = (Raise e, h') → (m ≫= k) h = (Raise e, h').
Proof. unfold mbind, M_bind. by intros ->. Qed.

Lemma copy_ok h l df : h !! l = Some df → copy l h = (Ok (length h), h ++ [df]).
Proof. intros H. unfold copy, deref, alloc, mbind, M_bind. by rewrite H. Qed.

Lemma getitem_ok h l df c col :
  h !! l = Some df → df_getitem df c = Ok col → getitem l c h = (Ok col, h).
Proof.
  intros H Hc. unfold getitem, deref, lift, mbind, M_bind. by rewrite H, Hc.
Qed.

Lemma getitem_raise h l df c e :
  h !! l = Some df → df_getitem df c = Raise e → getitem l c h = (Raise e, h).
Proof.
  intros H Hc. unfold getitem, deref, lift, mbind, M_bind. by rewrite H, Hc.
Qed.

Lemma loc_mask_ok h l df mask :
  h !! l = Some df → loc_mask l mask h = (Ok (length h), h ++ [df_loc df mask]).
Proof. intros H. unfold loc_mask, deref, alloc, mbind, M_bind. by rewrite H. Qed.

Lemma reset_index_inplace_ok h l df :
  h !! l = Some df →
  reset_index_inplace l h = (Ok (), <[l := df_reset_index df]> h).
Proof.
  intros H. unfold reset_index_inplace, deref, store, mbind, M_bind.
  by rewrite H.
Qed.

Lemma setitem_ok h l df c values df' :
  h !! l = Some df → df_setitem df c values = Ok df' →
  setitem l c values h = (Ok (), <[l := df']> h).
Proof.
  intros H Hs. unfold setitem, deref, store, lift, mbind, M_bind.
  by rewrite H, Hs.
Qed.

Lemma df_getitem_ok df c j :
  col_pos c (df_columns df) = Some j →
  df_getitem df c = Ok ((λ r, snd r !!! j) <$> df_rows df).
Proof. intros H. unfold df_getitem. by rewrite H. Qed.

Lemma lookup_snoc_new {A} (l : list A) x : (l ++ [x]) !! length l = Some x.
Proof. rewrite lookup_app_r by lia. by rewrite Nat.sub_diag. Qed.

Lemma lookup_snoc_old {A} (l : list A) x i y :
  l !! i = Some y → (l ++ [x]) !! i = Some y.
Proof. intros H. by apply lookup_app_l_Some. Qed.

(** Without the split column there is no split: [KeyError]. *)
Lemma get_dataframe_fold_missing_column
    (h : heap) (dataframe : loc) (df : DataFrame) (split_column : string)
    (f : Z) :
  h !! dataframe = Some df →
  col_pos split_column (df_columns df) = None →
  get_dataframe_fold dataframe split_column f h
  = (Raise (KeyError split_column), h ++ [df]).
Proof.
  intros Hdf Hcol. unfold get_dataframe_fold.
  erewrite bind_ok by (by apply copy_ok).
  erewrite bind_raise; [done|].
  eapply getitem_raise; [apply lookup_snoc_new|].
  unfold df_getitem. by rewrite Hcol.
Qed.

Lemma imap_index_zip {A B} (l : list (A * B)) (k : nat) :
  imap (λ i r, (Z.of_nat (k + i), snd r)) l
  = zip (seqZ (Z.of_nat k) (Z.of_nat (length l))) (snd <$> l).
Proof.
  revert k. induction l as [|x l IH]; intros k; [done|].
  rewrite imap_cons, fmap_cons. cbn [length].
  rewrite seqZ_cons by lia. cbn [zip zip_with]. f_equal.
  - f_equal. f_equal. lia.
  - replace (Z.pred (Z.of_nat (S (length l)))) with (Z.of_nat (length l)) by lia.
    replace (Z.succ (Z.of_nat k)) with (Z.of_nat (S k)) by lia.
    rewrite <- IH. apply imap_ext. intros i y _. cbn. do 2 f_equal. lia.
Qed.

(** [reset_index] gives the frame that the statements describe. *)
Lemma df_reset_index_reindexed (df : DataFrame) :
  df_reset_index df = reindexed df (snd <$> df_rows df).
Proof.
  unfold df_reset_index, reindexed. f_equal.
  rewrite length_fmap. apply (imap_index_zip (df_rows df) 0).
Qed.

(** C6. [get_dataframe_fold(dataframe, split_column, f)], for a frame that
    has the split column, returns two new frames [(train, validation)], both
    re-indexed from 0: the validation rows are exactly the rows whose split
    column equals [f], the training rows are exactly all the others, no row
    is in both, together they are the rows of the original frame as a
    multiset, each keeps the rows in their original relative order, and the
    caller's frame is unchanged. *)
Theorem get_dataframe_fold_partition
    (h : heap) (dataframe : loc) (df : DataFrame) (split_column : string)
    (f : Z) (j : fin (df_width df)) :
  h !! dataframe = Some df →
  col_pos split_column (df_columns df) = Some j →
  let rows := snd <$> df_rows df in
  ∃ (train valid : loc) (h' : heap) (train_rows valid_rows : list (vec cell (df_width df))),
    get_dataframe_fold dataframe split_column f h = (Ok (train, valid), h') ∧
    h' !! train = Some (reindexed df train_rows) ∧
    h' !! valid = Some (reindexed df valid_rows) ∧
    h' !! dataframe = Some df ∧
    valid_rows = filter (λ r, r !!! j = CInt f) rows ∧
    train_rows = filter (λ r, r !!! j ≠ CInt f) rows ∧
    (∀ r, r ∈ train_rows → r ∈ valid_rows → False) ∧
    train_rows ++ valid_rows ≡ₚ rows ∧
    sublist train_rows rows ∧ sublist valid_rows rows.
Proof.
  intros Hdf Hcol rows.
  assert (Hlen : (dataframe < length h)%nat) by (by eapply lookup_lt_Some).
  set (col := (λ r : Z * vec cell (df_width df), snd r !!! j) <$> df_rows df).
  set (tr := df_loc df (series_ne col f)).
  set (va := df_loc df (series_eq col f)).
  set (h1 := h ++ [df]). set (h2 := h1 ++ [tr]). set (h3 := h2 ++ [va]).
  assert (H1 : h1 !! length h = Some df) by apply lookup_snoc_new.
  assert (H2 : h2 !! length h = Some df) by by apply lookup_snoc_old.
  assert (Hl1 : length h1 = S (length h)).
  { unfold h1. rewrite length_app. simpl. lia. }
  assert (Hl2 : length h2 = S (S (length h))).
  { unfold h2. rewrite length_app. simpl. lia. }
  assert (Hl3 : length h3 = S (S (S (length h)))).
  { unfold h3. rewrite length_app. simpl. lia. }
  assert (H3t : h3 !! length h1 = Some tr).
  { unfold h3. apply lookup_snoc_old. apply lookup_snoc_new. }
  assert (H3v : h3 !! length h2 = Some va) by apply lookup_snoc_new.
  set (h4 := <[length h1 := df_reset_index tr]> h3).
  set (h5 := <[length h2 := df_reset_index va]> h4).
  assert (Hrun : get_dataframe_fold dataframe split_column f h
                 = (Ok (length h1, length h2), h5)).
  { unfold get_dataframe_fold.
    erewrite bind_ok by (by apply copy_ok).
    erewrite bind_ok by (eapply getitem_ok; [done|by apply df_getitem_ok]).
    erewrite bind_ok by (by apply loc_mask_ok).
    erewrite bind_ok by (eapply getitem_ok; [done|by apply df_getitem_ok]).
    erewrite bind_ok by (by apply loc_mask_ok).
    erewrite bind_ok by (by apply reset_index_inplace_ok).
    erewrite bind_ok; [done|]. apply reset_index_inplace_ok.
    unfold h4. rewrite list_lookup_insert_ne by lia. done. }
  exists (length h1), (length h2), h5,
    (filter (λ r, r !!! j ≠ CInt f) rows), (filter (λ r, r !!! j = CInt f) rows).
  split; [done|].
  split.
  { unfold h5, h4. rewrite list_lookup_insert_ne by lia.
    rewrite list_lookup_insert_eq by lia. f_equal.
    rewrite df_reset_index_reindexed. change (reindexed tr) with (reindexed df).
    f_equal. unfold tr, df_loc; cbn [df_rows]. unfold series_ne.
    etrans; [apply (loc_series_rows (cell_ne_int f) df j)|].
    apply list_filter_iff. intros r. apply cell_ne_int_spec. }
  split.
  { unfold h5. rewrite list_lookup_insert_eq by (unfold h4; rewrite length_insert; lia).
    f_equal. rewrite df_reset_index_reindexed.
    change (reindexed va) with (reindexed df).
    f_equal. unfold va, df_loc; cbn [df_rows]. unfold series_eq.
    etrans; [apply (loc_series_rows (cell_eq_int f) df j)|].
    apply list_filter_iff. intros r. apply cell_eq_int_spec. }
  split.
  { unfold h5, h4. rewrite !list_lookup_insert_ne by lia.
    unfold h3, h2, h1. by do 3 apply lookup_snoc_old. }
  split; [done|]. split; [done|].
  split.
  { intros r [Hne _]%list_elem_of_filter [Heq _]%list_elem_of_filter. done. }
  split.
  { rewrite Permutation_app_comm. apply filter_app_complement. }
  split; apply sublist_filter.
Qed.

(** The statement of C6 at the frame [fold_frame], fold 1. *)
Lemma get_dataframe_fold_partition_witness :
  let rows := snd <$> df_rows fold_frame in
  ∃ (train valid : loc) (h' : heap) (train_rows valid_rows : list (vec cell 3)),
    get_dataframe_fold 0%nat "kfold" 1 [fold_frame] = (Ok (train, valid), h') ∧
    h' !! train = Some (reindexed fold_frame train_rows) ∧
    h' !! valid = Some (reindexed fold_frame valid_rows) ∧
    h' !! 0%nat = Some fold_frame ∧
    valid_rows = filter (λ r, r !!! 2%fin = CInt 1) rows ∧
    train_rows = filter (λ r, r !!! 2%fin ≠ CInt 1) rows ∧
    (∀ r, r ∈ train_rows → r ∈ valid_rows → False) ∧
    train_rows ++ valid_rows ≡ₚ rows ∧
    sublist train_rows rows ∧ sublist valid_rows rows.
Proof.
  apply (get_dataframe_fold_partition [fold_frame] 0%nat fold_frame "kfold" 1 2%fin);
    reflexivity.
Defined.

(** *** The order of strings *)

Lemma string_compare_OT (a b : string) :
  String.compare a b = String_as_OT.compare a b.
Proof.
  revert b. induction a as [|x a IH]; intros [|y b]; simpl; done.
Qed.

Lemma str_le_alt (a b : string) : str_le a b ↔ a = b ∨ String_as_OT.lt a b.
Proof.
  unfold str_le, String.leb, String_as_OT.lt. rewrite string_compare_OT.
  destruct (String_as_OT.compare_spec a b) as [->|Hlt|Hgt].
  - naive_solver.
  - naive_solver.
  - split; [done|]. intros [->|Hlt].
    + by apply (irreflexivity String_as_OT.lt) in Hgt.
    + destruct (irreflexivity String_as_OT.lt a). by etrans.
Qed.

Global Instance str_le_trans : Transitive str_le.
Proof.
  intros a b c. rewrite !str_le_alt. intros [->|H1] [->|H2]; auto.
  right. by etrans.
Qed.

Global Instance str_le_antisym : AntiSymm (=) str_le.
Proof. intros a b. apply String.leb_antisym. Qed.

Global Instance str_le_total : Total str_le.
Proof. intros a b. apply String.leb_total. Qed.

(** *** [unique] *)

Lemma elem_of_unique_from seen l x :
  x ∈ unique_from seen l ↔ x ∈ l ∧ x ∉ seen.
Proof.
  revert seen. induction l as [|y l IH]; intros seen; simpl.
  { rewrite !elem_of_nil. naive_solver. }
  destruct (decide (y ∈ seen)) as [Hin|Hnin].
  - rewrite IH, elem_of_cons. naive_solver.
  - rewrite !elem_of_cons, IH, elem_of_cons.
    destruct (decide (x = y)); naive_solver.
Qed.

Lemma NoDup_unique_from seen l : NoDup (unique_from seen l).
Proof.
  revert seen. induction l as [|y l IH]; intros seen; simpl; [constructor|].
  destruct (decide (y ∈ seen)); [apply IH|].
  constructor; [|apply IH].
  rewrite elem_of_unique_from, elem_of_cons. naive_solver.
Qed.

Lemma elem_of_unique l x : x ∈ unique l ↔ x ∈ l.
Proof. unfold unique. rewrite elem_of_unique_from, elem_of_nil. naive_solver. Qed.

Lemma NoDup_unique l : NoDup (unique l).
Proof. apply NoDup_unique_from. Qed.

Global Instance CStr_inj : Inj (=) (=) CStr.
Proof. by intros a b [= ->]. Qed.

(** A series of strings stays a series of strings under [unique]. *)
Lemma unique_strings (ss : list string) :
  ∃ us, unique (CStr <$> ss) = CStr <$> us ∧ NoDup us ∧ ∀ s, s ∈ us ↔ s ∈ ss.
Proof.
  assert (Hall : Forall (λ c, ∃ s, c = CStr s) (unique (CStr <$> ss))).
  { apply Forall_forall. intros c [s [-> _]]%elem_of_unique%list_elem_of_fmap. eauto. }
  assert (∃ us, unique (CStr <$> ss) = CStr <$> us) as [us Hus].
  { induction Hall as [|c l [s ->] _ [us ->]]; [by exists []|by exists (s :: us)]. }
  exists us. split; [done|]. split.
  - apply (NoDup_fmap CStr). rewrite <- Hus. apply NoDup_unique.
  - intros s. rewrite <- (list_elem_of_fmap_inj CStr), <- Hus, elem_of_unique.
    apply (list_elem_of_fmap_inj CStr).
Qed.

Lemma sorted_strings (us : list string) :
  sorted (CStr <$> us) = Ok (CStr <$> merge_sort str_le us).
Proof.
  unfold sorted. rewrite mapM_fmap_Some; [done|]. done.
Qed.

(** *** The labelling dictionary *)

Lemma enumerate_snoc {A} (l : list A) x :
  enumerate (l ++ [x]) = enumerate l ++ [(length l, x)].
Proof. unfold enumerate. rewrite imap_app. simpl. by rewrite Nat.add_0_r. Qed.

Lemma dict_of_labels_snoc items it :
  dict_of_labels (items ++ [it])
  = <[py_str (snd it) := Z.of_nat (fst it)]> (dict_of_labels items).
Proof. unfold dict_of_labels. by rewrite foldl_app. Qed.

Lemma dict_of_labels_lookup (names : list string) (s : string) (i : Z) :
  NoDup names →
  dict_of_labels (enumerate (CStr <$> names)) !! s = Some i
  ↔ ∃ k : nat, i = Z.of_nat k ∧ names !! k = Some s.
Proof.
  revert s i. induction names as [|x names IH] using rev_ind; intros s i Hnd.
  { unfold dict_of_labels, enumerate. simpl. rewrite lookup_empty.
    split; [done|]. by intros (k & _ & ?). }
  apply NoDup_app in Hnd as (Hnd & Hx & _).
  rewrite fmap_app. change (CStr <$> [x]) with [CStr x].
  rewrite enumerate_snoc, dict_of_labels_snoc. cbn [fst snd py_str].
  rewrite length_fmap, lookup_insert. case_decide as Hs.
  - subst s. split.
    + intros [= <-]. exists (length names). split; [done|].
      by rewrite lookup_app_r, Nat.sub_diag by lia.
    + intros (k & -> & Hk). f_equal. f_equal.
      destruct (decide (k < length names)%nat) as [Hlt|Hge].
      * rewrite lookup_app_l in Hk by done.
        apply list_elem_of_lookup_2 in Hk. destruct (Hx x); [done|]. left.
      * apply lookup_lt_Some in Hk. rewrite length_app in Hk. simpl in Hk. lia.
  - rewrite IH by done. split.
    + intros (k & -> & Hk). exists k. split; [done|].
      by apply lookup_app_l_Some.
    + intros (k & -> & Hk). exists k. split; [done|].
      destruct (decide (k < length names)%nat) as [Hlt|Hge].
      * by rewrite lookup_app_l in Hk.
      * rewrite lookup_app_r in Hk by lia.
        apply list_lookup_singleton_Some in Hk as [_ ->]. done.
Qed.

Lemma class_names_spec (labels : list string) :
  sorted (unique (CStr <$> labels)) = Ok (CStr <$> class_names labels) ∧
  Sorted str_le (class_names labels) ∧ NoDup (class_names labels) ∧
  ∀ s, s ∈ class_names labels ↔ s ∈ labels.
Proof.
  unfold class_names.
  destruct (unique_strings labels) as (us & Hus & Hnd & Hin). rewrite Hus.
  assert (omap as_str (CStr <$> us) = us) as ->.
  { clear. induction us as [|u us IH]; [done|].
    change (omap as_str (CStr <$> u :: us))
      with (u :: omap as_str (CStr <$> us)). by rewrite IH. }
  split; [apply sorted_strings|].
  split; [apply Sorted_merge_sort, _|].
  split; [by rewrite merge_sort_Permutation|].
  intros s. by rewrite merge_sort_Permutation.
Qed.

Lemma class_names_ext (labels labels' : list string) :
  (∀ s, s ∈ labels ↔ s ∈ labels') → class_names labels = class_names labels'.
Proof.
  intros Hsame.
  destruct (class_names_spec labels) as (_ & Hs & Hnd & Hin).
  destruct (class_names_spec labels') as (_ & Hs' & Hnd' & Hin').
  apply (Sorted_unique str_le); [done..|].
  apply NoDup_Permutation; [done..|].
  intros s. by rewrite Hin, Hin', Hsame.
Qed.

Lemma get_dataset_labeling_strings h dataframe df label_column j labels :
  h !! dataframe = Some df →
  col_pos label_column (df_columns df) = Some j →
  column_strings df j labels →
  get_dataset_labeling dataframe label_column h
  = (Ok (dict_of_labels (enumerate (CStr <$> class_names labels))), h).
Proof.
  intros Hdf Hcol Hstr. unfold get_dataset_labeling.
  erewrite bind_ok by (eapply getitem_ok; [done|by apply df_getitem_ok]).
  rewrite Hstr. destruct (class_names_spec labels) as (Hsorted & _).
  unfold lift at 1. unfold mbind, M_bind. by rewrite Hsorted.
Qed.

(** C7. For a frame whose label column holds strings,
    [get_dataset_labeling] returns the dictionary that sends the k-th of the
    sorted distinct label strings to the integer k, for k = 0, 1, ...: it
    is one-to-one, its values are exactly the integers of
    [0, num_classes), and a second frame with the same set of labels, in
    whatever rows and order, gets the identical dictionary. *)
Theorem get_dataset_labeling_bijection
    (h : heap) (dataframe : loc) (df : DataFrame) (label_column : string)
    (j : fin (df_width df)) (labels : list string)
    (h2 : heap) (dataframe2 : loc) (df2 : DataFrame) (label_column2 : string)
    (j2 : fin (df_width df2)) (labels2 : list string) :
  h !! dataframe = Some df →
  col_pos label_column (df_columns df) = Some j →
  column_strings df j labels →
  h2 !! dataframe2 = Some df2 →
  col_pos label_column2 (df_columns df2) = Some j2 →
  column_strings df2 j2 labels2 →
  ∃ (m : gmap string Z) (names : list string),
    get_dataset_labeling dataframe label_column h = (Ok m, h) ∧
    Sorted str_le names ∧ NoDup names ∧ (∀ s, s ∈ names ↔ s ∈ labels) ∧
    (∀ s i, m !! s = Some i ↔ ∃ k : nat, i = Z.of_nat k ∧ names !! k = Some s) ∧
    (∀ s i, m !! s = Some i → 0 ≤ i < Z.of_nat (length names)) ∧
    (∀ i, 0 ≤ i < Z.of_nat (length names) → ∃ s, m !! s = Some i) ∧
    (∀ s s' i, m !! s = Some i → m !! s' = Some i → s = s') ∧
    ((∀ s, s ∈ labels ↔ s ∈ labels2) →
     get_dataset_labeling dataframe2 label_column2 h2 = (Ok m, h2)).
Proof.
  intros Hdf Hcol Hstr Hdf2 Hcol2 Hstr2.
  destruct (class_names_spec labels) as (_ & Hsorted & Hnd & Hin).
  exists (dict_of_labels (enumerate (CStr <$> class_names labels))),
    (class_names labels).
  pose proof (λ s i, dict_of_labels_lookup (class_names labels) s i Hnd) as Hm.
  split; [by eapply get_dataset_labeling_strings|].
  split; [done|]. split; [done|]. split; [done|]. split; [done|].
  split.
  { intros s i (k & -> & Hk)%Hm. apply lookup_lt_Some in Hk. lia. }
  split.
  { intros i Hi. destruct (lookup_lt_is_Some_2 (class_names labels) (Z.to_nat i))
      as [s Hs]; [lia|].
    exists s. apply Hm. exists (Z.to_nat i). split; [lia|done]. }
  split.
  { intros s s' i (k & -> & Hk)%Hm (k' & Hkk & Hk')%Hm.
    assert (k' = k) as -> by lia. congruence. }
  intros Hsame. rewrite (class_names_ext labels labels2 Hsame).
  by eapply get_dataset_labeling_strings.
Qed.

(** The statement of C7 at [fold_frame] and [shuffled_frame], which have
    the labels ant, cat, dog in different rows. *)
Lemma get_dataset_labeling_bijection_witness :
  ∃ (m : gmap string Z) (names : list string),
    get_dataset_labeling 0%nat "target" [fold_frame] = (Ok m, [fold_frame]) ∧
    Sorted str_le names ∧ NoDup names ∧
    (∀ s, s ∈ names ↔ s ∈ ["dog"; "cat"; "dog"; "ant"]) ∧
    (∀ s i, m !! s = Some i ↔ ∃ k : nat, i = Z.of_nat k ∧ names !! k = Some s) ∧
    (∀ s i, m !! s = Some i → 0 ≤ i < Z.of_nat (length names)) ∧
    (∀ i, 0 ≤ i < Z.of_nat (length names) → ∃ s, m !! s = Some i) ∧
    (∀ s s' i, m !! s = Some i → m !! s' = Some i → s = s') ∧
    get_dataset_labeling 1%nat "label" [fold_frame; shuffled_frame]
    = (Ok m, [fold_frame; shuffled_frame]).
Proof.
  destruct (get_dataset_labeling_bijection
              [fold_frame] 0%nat fold_frame "target" 1%fin
              ["dog"; "cat"; "dog"; "ant"]
              [fold_frame; shuffled_frame] 1%nat shuffled_frame "label" 0%fin
              ["ant"; "dog"; "ant"; "cat"]
              eq_refl eq_refl eq_refl eq_refl eq_refl eq_refl)
    as (m & names & H1 & H2 & H3 & H4 & H5 & H6 & H7 & H8 & H9).
  exists m, names. repeat (split; [assumption|]).
  apply H9. intros s. rewrite !elem_of_cons, !elem_of_nil. tauto.
Defined.

Example get_dataset_labeling_int_labels :
  get_dataset_labeling 0%nat "target" [int_label_frame]
  = (Ok (<["2" := 0]> (<["10" := 1]> ∅)), [int_label_frame]).
Proof. vm_compute. reflexivity. Qed.

(** *** Encoding the labels *)

Lemma series_apply_labels (m : gmap string Z) (labels : list string) :
  (∀ s, s ∈ labels → is_Some (m !! s)) →
  series_apply (λ x, rbind (dict_getitem m (py_str x)) (λ v, Ok (CInt v)))
    (CStr <$> labels)
  = Ok ((λ s, CInt (m !!! s)) <$> labels).
Proof.
  induction labels as [|s labels IH]; intros Hm; [done|].
  rewrite !fmap_cons. cbn [series_apply py_str]. unfold dict_getitem at 1.
  destruct (Hm s) as [i Hi]; [left|].
  rewrite Hi. cbn [rbind]. rewrite IH.
  - cbn [rbind]. by rewrite (lookup_total_correct _ _ _ Hi).
  - intros s' Hs'. apply Hm. by right.
Qed.

(** C8 (as amended). [dataframe_labels_2_int] works on a copy: for a frame
    whose label column holds strings it returns a new frame object in which
    every label string is replaced by its integer from the label index
    (every label has one), and leaves the caller's frame object, like every
    other object that existed before the call, as it was. *)
Theorem dataframe_labels_2_int_copy
    (h : heap) (dataframe : loc) (df : DataFrame) (label_column : string)
    (j : fin (df_width df)) (labels : list string) (return_labelling : bool) :
  h !! dataframe = Some df →
  col_pos label_column (df_columns df) = Some j →
  column_strings df j labels →
  ∃ (m : gmap string Z),
    get_dataset_labeling dataframe label_column h = (Ok m, h) ∧
    (∀ s, s ∈ labels → is_Some (m !! s)) ∧
    dataframe_labels_2_int dataframe label_column return_labelling h
    = (Ok (length h, if return_labelling then Some m else None),
       h ++ [encoded df j m labels]) ∧
    length h ≠ dataframe ∧
    (h ++ [encoded df j m labels]) !! dataframe = Some df.
Proof.
  intros Hdf Hcol Hstr.
  destruct (class_names_spec labels) as (_ & _ & Hnd & Hin).
  set (m := dict_of_labels (enumerate (CStr <$> class_names labels))).
  assert (Hm : ∀ s, s ∈ labels → is_Some (m !! s)).
  { intros s [k Hk]%Hin%list_elem_of_lookup_1. exists (Z.of_nat k).
    apply dict_of_labels_lookup; [done|]. eauto. }
  exists m.
  split; [by eapply get_dataset_labeling_strings|].
  split; [done|].
  assert (Hlen : (dataframe < length h)%nat) by (by eapply lookup_lt_Some).
  split; [|split; [lia|by apply lookup_snoc_old]].
  unfold dataframe_labels_2_int.
  erewrite bind_ok by (by apply copy_ok).
  erewrite bind_ok
    by (eapply get_dataset_labeling_strings; [apply lookup_snoc_new|done..]).
  erewrite bind_ok
    by (eapply getitem_ok; [apply lookup_snoc_new|by apply df_getitem_ok]).
  rewrite Hstr. fold m.
  erewrite bind_ok; [|unfold lift; by rewrite (series_apply_labels m labels Hm)].
  erewrite bind_ok; last first.
  { eapply setitem_ok; [apply lookup_snoc_new|].
    unfold df_setitem. rewrite Hcol. reflexivity. }
  rewrite zip_with_fmap_r.
  replace (<[length h:=_]> (h ++ [df])) with (h ++ [encoded df j m labels]).
  - by destruct return_labelling.
  - rewrite insert_app_r_alt, Nat.sub_diag by lia. done.
Qed.

(** The statement of C8 (as amended) at [fold_frame], labels in "target". *)
Lemma dataframe_labels_2_int_copy_witness :
  ∃ (m : gmap string Z),
    get_dataset_labeling 0%nat "target" [fold_frame] = (Ok m, [fold_frame]) ∧
    (∀ s, s ∈ ["dog"; "cat"; "dog"; "ant"] → is_Some (m !! s)) ∧
    dataframe_labels_2_int 0%nat "target" true [fold_frame]
    = (Ok (1%nat, Some m),
       [fold_frame; encoded fold_frame 1%fin m ["dog"; "cat"; "dog"; "ant"]]) ∧
    1%nat ≠ 0%nat ∧
    [fold_frame; encoded fold_frame 1%fin m ["dog"; "cat"; "dog"; "ant"]] !! 0%nat
    = Some fold_frame.
Proof.
  apply (dataframe_labels_2_int_copy [fold_frame] 0%nat fold_frame "target"
           1%fin ["dog"; "cat"; "dog"; "ant"] true); reflexivity.
Defined.

(** C8 as stated fails: after the call the caller's object still holds the
    label strings, it is not the encoded frame; the integers are in the new
    object only. *)
Lemma dataframe_labels_2_int_not_in_place :
  ∃ (data : loc) (h' : heap),
    dataframe_labels_2_int 0%nat "target" false [fold_frame]
    = (Ok (data, None), h') ∧
    data ≠ 0%nat ∧
    h' !! data = Some encoded_fold_frame ∧
    h' !! 0%nat = Some fold_frame ∧
    fold_frame ≠ encoded_fold_frame.
Proof.
  eexists _, _. split; [vm_compute; reflexivity|].
  split; [discriminate|]. split; [reflexivity|]. split; [reflexivity|].
  intros Heq. apply (f_equal first_row) in Heq. discriminate Heq.
Qed.

End pandas_facts.

Section logger_facts.
Import Logger.

Lemma handlers_in_alter (m : gmap string LoggerObj) f r ref :
  (∀ l, handlers (f l) = handlers l) →
  handlers_in (alter f r m) ref = handlers_in m ref.
Proof.
  intros Hf. unfold handlers_in. rewrite lookup_alter.
  case_decide as Hr; [subst ref|done].
  destruct (m !! r); simpl; [apply Hf|done].
Qed.

Lemma handlers_in_getLogger name m :
  ∃ m' l, getLogger name m = (logger_ref name, m') ∧
    m' !! logger_ref name = Some l ∧
    ∀ ref, handlers_in m' ref = handlers_in m ref.
Proof.
  unfold getLogger. destruct (m !! logger_ref name) as [l|] eqn:Hl.
  - by exists m, l.
  - exists (<[logger_ref name := new_logger (logger_ref name)]> m),
      (new_logger (logger_ref name)).
    split; [done|]. split; [apply lookup_insert_eq|].
    intros ref. unfold handlers_in. rewrite lookup_insert.
    case_decide as Hr; [subst ref; by rewrite Hl|done].
Qed.

(** The body returns the logger of the name and attaches one handler to
    it when the rank is 0, and none otherwise; the handlers of the other
    loggers stay. *)
Lemma setup_logger_body_spec rank color name lvl m :
  ∃ m' hd, setup_logger_body rank color name lvl m = (logger_ref name, m') ∧
    ∀ ref, handlers_in m' ref
           = handlers_in m ref
             ++ if bool_decide (rank = 0 ∧ logger_ref name = ref) then [hd] else [].
Proof.
  unfold setup_logger_body.
  destruct (handlers_in_getLogger name m) as (m1 & l & -> & Hl & Hm1).
  set (r := logger_ref name) in *.
  set (m2 := alter (set_propagate false) r (alter (setLevel lvl) r m1)).
  assert (Hm2 : ∀ ref, handlers_in m2 ref = handlers_in m ref).
  { intros ref. unfold m2. by rewrite !handlers_in_alter, Hm1. }
  destruct (Z.eqb_spec rank 0) as [->|Hrank].
  - eexists _, _. split; [reflexivity|]. intros ref.
    case_bool_decide as Hd.
    + destruct Hd as [_ <-]. rewrite <- Hm2.
      unfold handlers_in. rewrite lookup_alter_eq.
      assert (is_Some (m2 !! r)) as [l2 ->]; [|done].
      unfold m2. rewrite !lookup_alter_is_Some. by eexists.
    + rewrite app_nil_r, <- Hm2. unfold handlers_in.
      rewrite lookup_alter_ne; [done|]. naive_solver.
  - exists m2, {| h_level := DEBUG; h_formatter := PlainFormatter |}.
    split; [done|]. intros ref.
    rewrite bool_decide_eq_false_2 by naive_solver. by rewrite app_nil_r.
Qed.

Lemma cache_find_Some c entries r :
  cache_find c entries = Some r → (c, r) ∈ entries.
Proof.
  induction entries as [|[k v] es IH]; simpl; [done|].
  case_decide as Hk; simpl in Hk.
  - intros [= <-]. subst k. left.
  - intros H. right. by apply IH.
Qed.

Lemma cache_find_None c entries :
  cache_find c entries = None → c ∉ fst <$> entries.
Proof.
  induction entries as [|[k v] es IH]; cbn [cache_find];
    [intros _; apply not_elem_of_nil|].
  case_decide as Hk; simpl in Hk; [done|].
  intros H. rewrite fmap_cons, not_elem_of_cons. split; [done|by apply IH].
Qed.

Lemma Inv_init : Inv [] init.
Proof.
  split; unfold keys, handlers_of, handlers_in; simpl.
  - constructor.
  - intros c r []%elem_of_nil.
  - intros c []%elem_of_nil.
  - intros ref. by rewrite lookup_empty.
Qed.

Lemma Inv_length t s : Inv t s → (length (cache s) ≤ length (remove_dups t))%nat.
Proof.
  intros [Hnd Hsound _ _].
  rewrite <- (length_fmap fst (cache s)). apply submseteq_length.
  apply NoDup_submseteq; [done|].
  intros c [[c' r] [-> Hin]]%list_elem_of_fmap. simpl.
  apply elem_of_remove_dups. by apply Hsound in Hin as [? _].
Qed.

Lemma keys_hit (c : call) (r : string) (entries : list (call * string)) :
  NoDup (fst <$> entries) → (c, r) ∈ entries →
  NoDup (c :: (fst <$> filter (λ e, fst e ≠ c) entries)) ∧
  c :: (fst <$> filter (λ e, fst e ≠ c) entries) ≡ₚ fst <$> entries.
Proof.
  intros Hnd Hin.
  assert (Hnd' : NoDup (c :: (fst <$> filter (λ e, fst e ≠ c) entries))).
  { apply NoDup_cons. split.
    - intros [[k v] [-> [Hne _]%list_elem_of_filter]]%list_elem_of_fmap. done.
    - eapply sublist_NoDup; [done|]. apply fmap_sublist, sublist_filter. }
  split; [done|]. apply NoDup_Permutation; [done..|].
  intros x. rewrite elem_of_cons, !list_elem_of_fmap. split.
  - intros [->|[e [-> [_ He]%list_elem_of_filter]]]; [by exists (c, r)|by exists e].
  - intros [e [-> He]]. destruct (decide (fst e = c)) as [|Hne]; [by left|].
    right. exists e. split; [done|]. by apply list_elem_of_filter.
Qed.

(** One more call keeps the invariant and returns what [returns] says. *)
Lemma setup_logger_step t c s :
  Inv t s → (length (remove_dups (t ++ [c])) ≤ maxsize)%nat →
  ∃ s', setup_logger c s = (returns c, s') ∧ Inv (t ++ [c]) s'.
Proof.
  intros HI Hsize. pose proof HI as [Hnd Hsound Hcompl Hh].
  unfold setup_logger. destruct (cache_find c (cache s)) as [r|] eqn:Hfind.
  - apply cache_find_Some in Hfind.
    destruct (Hsound _ _ Hfind) as [Hct Hret].
    destruct (keys_hit c r (cache s) Hnd Hfind) as [Hnd' Hperm].
    eexists. split; [by rewrite Hret|].
    split; unfold keys, handlers_of; cbn [cache manager].
    + by rewrite fmap_cons.
    + intros c' r' [ [= -> ->] |[_ Hin]%list_elem_of_filter]%elem_of_cons.
      * split; [|done]. apply elem_of_app. by left.
      * destruct (Hsound _ _ Hin). split; [|done]. apply elem_of_app. by left.
    + intros c' Hc' Hok. rewrite fmap_cons. rewrite Hperm.
      apply elem_of_app in Hc' as [Hc'|Hc'];
        [|apply list_elem_of_singleton in Hc' as ->].
      * by apply Hcompl.
      * apply list_elem_of_fmap. by exists (c, r).
    + intros ref. rewrite fmap_cons, Hperm. apply Hh.
  - apply cache_find_None in Hfind. fold (keys s) in Hfind.
    unfold returns. destruct (bind_args c) as [[[[rank color] name] lvl]|e] eqn:Hb.
    + destruct (setup_logger_body_spec rank color name lvl (manager s))
        as (m' & hd & -> & Hm').
      assert (Hlt : (length (cache s) < maxsize)%nat).
      { assert (Hsub : (length (c :: keys s) ≤ length (remove_dups (t ++ [c])))%nat).
        { apply submseteq_length, NoDup_submseteq.
          - by apply NoDup_cons.
          - intros x [->|Hx]%elem_of_cons; apply elem_of_remove_dups, elem_of_app.
            + right. left.
            + left. apply list_elem_of_fmap in Hx as [[k v] [-> Hin]].
              by apply Hsound in Hin as [? _]. }
        simpl in Hsub. unfold keys in Hsub. rewrite length_fmap in Hsub. lia. }
      rewrite decide_False by lia.
      eexists. split; [done|].
      split; unfold keys, handlers_of; cbn [cache manager].
      * rewrite fmap_cons. by apply NoDup_cons.
      * intros c' r' [ [= -> ->] |Hin]%elem_of_cons.
        -- split; [apply elem_of_app; right; left|].
           unfold returns. by rewrite Hb.
        -- destruct (Hsound _ _ Hin). split; [|done]. apply elem_of_app. by left.
      * intros c' Hc' Hok. rewrite fmap_cons.
        apply elem_of_app in Hc' as [Hc'|Hc'];
        [|apply list_elem_of_singleton in Hc' as ->].
        -- right. by apply Hcompl.
        -- left.
      * intros ref. rewrite Hm', length_app, fmap_cons, filter_cons.
        cbn [fst].
        assert (attaches ref c
                = bool_decide (rank = 0 ∧ logger_ref name = ref)) as <-.
        { unfold attaches. by rewrite Hb. }
        fold (handlers_of s ref). rewrite Hh. fold (keys s).
        destruct (attaches ref c); simpl; lia.
      (* the body ran once more: one more key *)
    + eexists. split; [done|].
      split; try done.
      * intros c' r' Hin. destruct (Hsound _ _ Hin). split; [|done].
        apply elem_of_app. by left.
      * intros c' Hc' Hok.
        apply elem_of_app in Hc' as [Hc'|Hc'];
        [|apply list_elem_of_singleton in Hc' as ->].
        -- by apply Hcompl.
        -- by rewrite Hb in Hok.
Qed.

Lemma run_Inv t0 t s :
  Inv t0 s → (length (remove_dups (t0 ++ t)) ≤ maxsize)%nat →
  ∃ s', run t s = (returns <$> t, s') ∧ Inv (t0 ++ t) s'.
Proof.
  revert t0 s. induction t as [|c t IH]; intros t0 s HI Hsize.
  { exists s. split; [done|]. by rewrite app_nil_r. }
  destruct (setup_logger_step t0 c s HI) as (s1 & Hs1 & HI1).
  { etrans; [|exact Hsize]. apply submseteq_length, NoDup_submseteq.
    - apply NoDup_remove_dups.
    - intros x. rewrite !elem_of_remove_dups, !elem_of_app, !elem_of_cons,
        elem_of_nil. tauto. }
  destruct (IH (t0 ++ [c]) s1 HI1) as (s2 & Hs2 & HI2).
  { by rewrite <- app_assoc. }
  exists s2. cbn [run]. rewrite Hs1, Hs2. split; [done|].
  by rewrite <- app_assoc in HI2.
Qed.

(** A call with a nonzero rank attaches no handler, whatever the state. *)
Lemma setup_logger_nonzero_rank c s rank color name lvl :
  bind_args c = Ok (rank, color, name, lvl) → rank ≠ 0 →
  ∀ ref, handlers_of (snd (setup_logger c s)) ref = handlers_of s ref.
Proof.
  intros Hb Hrank ref. unfold setup_logger.
  destruct (cache_find c (cache s)); [done|]. rewrite Hb.
  destruct (setup_logger_body_spec rank color name lvl (manager s))
    as (m' & hd & -> & Hm').
  unfold handlers_of. cbn [snd manager]. rewrite Hm'.
  rewrite bool_decide_eq_false_2 by naive_solver. by rewrite app_nil_r.
Qed.

(** C10 (as amended). In a run of calls of [setup_logger] from process
    start with at most 128 distinct ways of writing the call (so that the
    cache evicts nothing): every call returns the logger of the name it
    binds, so calls with the same name return the identical logger object;
    and in the end every logger holds exactly one handler for each distinct
    written call that binds its name and rank 0: a repeated written call
    attaches at most one handler over all its repetitions, and one with a
    nonzero rank attaches none. In whatever state, a call with a nonzero
    rank leaves the handlers of every logger as they were. *)
Theorem setup_logger_memoised (t : list call) :
  (length (remove_dups t) ≤ maxsize)%nat →
  (∃ s, run t init = (returns <$> t, s) ∧
     ∀ ref, length (handlers_of s ref)
            = length (filter (λ c, attaches ref c) (remove_dups t))) ∧
  (∀ c s rank color name lvl,
     bind_args c = Ok (rank, color, name, lvl) → rank ≠ 0 →
     attaches (logger_ref name) c = false ∧
     ∀ ref, handlers_of (snd (setup_logger c s)) ref = handlers_of s ref).
Proof.
  intros Hsize. split.
  - destruct (run_Inv [] t init Inv_init Hsize) as (s & Hrun & HI).
    exists s. split; [done|]. intros ref.
    destruct HI as [Hnd Hsound Hcompl Hh]. rewrite Hh.
    apply Permutation_length, NoDup_Permutation.
    + by apply NoDup_filter.
    + apply NoDup_filter, NoDup_remove_dups.
    + intros c. rewrite !list_elem_of_filter, elem_of_remove_dups.
      split; intros [Hatt Hin]; (split; [done|]).
      * apply list_elem_of_fmap in Hin as [[k v] [-> Hin]].
        by apply Hsound in Hin as [? _].
      * apply Hcompl; [done|]. unfold attaches in Hatt.
        by destruct (bind_args c).
  - intros c s rank color name lvl Hb Hrank. split.
    + unfold attaches. rewrite Hb. apply bool_decide_eq_false_2. naive_solver.
    + by eapply setup_logger_nonzero_rank.
Qed.

(** The statement of C10 (as amended) at [logger_run]. *)
Lemma setup_logger_memoised_witness :
  (∃ s, run logger_run init = (returns <$> logger_run, s) ∧
     ∀ ref, length (handlers_of s ref)
            = length (filter (λ c, attaches ref c) (remove_dups logger_run))) ∧
  (∀ c s rank color name lvl,
     bind_args c = Ok (rank, color, name, lvl) → rank ≠ 0 →
     attaches (logger_ref name) c = false ∧
     ∀ ref, handlers_of (snd (setup_logger c s)) ref = handlers_of s ref).
Proof.
  apply (setup_logger_memoised logger_run). vm_compute. lia.
Defined.

(** C10 as stated fails, in two ways. [setup_logger()] and
    [setup_logger(0)] bind the same [(distributed_rank, color, name,
    level)], are cached under different keys, and leave two handlers on the
    logger. And the cache holds 128 entries: after 129 calls that name 129
    loggers the first of them, written again in the same way, runs the body
    again, and its logger has two handlers. *)
Lemma setup_logger_same_tuple_two_handlers :
  (bind_args (mkCall [] []) = Ok (0, true, "gale", DEBUG) ∧
   bind_args (mkCall [0] []) = Ok (0, true, "gale", DEBUG) ∧
   ∃ s, run [mkCall [] []; mkCall [0] []] init = ([Ok "gale"; Ok "gale"], s) ∧
        length (handlers_of s "gale") = 2%nat) ∧
  (length (remove_dups eviction_run) = 129%nat ∧
   head eviction_run = Some (mkCall [] [KwName "0"]) ∧
   last eviction_run = Some (mkCall [] [KwName "0"]) ∧
   length (handlers_of (snd (run eviction_run init)) "0") = 2%nat).
Proof.
  split.
  - split; [reflexivity|]. split; [reflexivity|].
    eexists. split; [vm_compute; reflexivity|]. reflexivity.
  - repeat split; vm_compute; reflexivity.
Qed.

End logger_facts.

Section losses_facts.
Import Losses.
Context {Loss : Type}.
Variable class_name : Loss → string.
Variable torch_tensor : pyval → result pyval.
Variable LOSS_REGISTRY : gmap string (kwds → result Loss).
Variable torch_losses : gmap string (kwds → result Loss).



End losses_facts.


(** ** Floating-point numbers: rounding a positive integer, and the
    product with one *)

Lemma shr_m_shr_1 (mrs : shr_record) :
  0 ≤ shr_m mrs → shr_m (shr_1 mrs) = Z.shiftr (shr_m mrs) 1.
Proof.
  destruct mrs as [m r s]. cbn [shr_m].
  destruct m as [|[p|p|]|p]; intros Hm; try lia; done.
Qed.

Lemma shr_m_iter_pos (p : positive) (mrs : shr_record) :
  0 ≤ shr_m mrs →
  shr_m (SpecFloat.iter_pos shr_1 p mrs) = Z.shiftr (shr_m mrs) (Z.pos p).
Proof.
  revert mrs. induction p as [p IH|p IH|]; intros mrs Hm; cbn [SpecFloat.iter_pos].
  - assert (H1 : 0 ≤ shr_m (shr_1 mrs)).
    { rewrite shr_m_shr_1 by done. by apply Z.shiftr_nonneg. }
    assert (H2 : 0 ≤ shr_m (SpecFloat.iter_pos shr_1 p (shr_1 mrs))).
    { rewrite IH by done. by apply Z.shiftr_nonneg. }
    rewrite IH, IH, shr_m_shr_1 by done.
    rewrite !Z.shiftr_shiftr by lia. f_equal. lia.
  - assert (H2 : 0 ≤ shr_m (SpecFloat.iter_pos shr_1 p mrs)).
    { rewrite IH by done. by apply Z.shiftr_nonneg. }
    rewrite IH, IH by done.
    rewrite !Z.shiftr_shiftr by lia. f_equal. lia.
  - by apply shr_m_shr_1.
Qed.

Lemma digits2_pos_lower (m : positive) :
  2 ^ (Z.pos (digits2_pos m) - 1) ≤ Z.pos m.
Proof.
  induction m as [m IH|m IH|]; cbn [digits2_pos]; [| |done].
  - rewrite Pos2Z.inj_succ. change (Z.pos m~1) with (2 * Z.pos m + 1).
    replace (Z.succ (Z.pos (digits2_pos m)) - 1)
      with (Z.succ (Z.pos (digits2_pos m) - 1)) by lia.
    rewrite Z.pow_succ_r by lia.
    revert IH. generalize (2 ^ (Z.pos (digits2_pos m) - 1)). intros z Hz. lia.
  - rewrite Pos2Z.inj_succ. change (Z.pos m~0) with (2 * Z.pos m).
    replace (Z.succ (Z.pos (digits2_pos m)) - 1)
      with (Z.succ (Z.pos (digits2_pos m) - 1)) by lia.
    rewrite Z.pow_succ_r by lia.
    revert IH. generalize (2 ^ (Z.pos (digits2_pos m) - 1)). intros z Hz. lia.
Qed.

Section float_facts.
Variable prec emax : Z.
Hypothesis prec_pos : 0 < prec.

(** A shift of a positive mantissa to its format leaves a positive
    mantissa, when the exponent is not below the least one. *)
Lemma shr_fexp_pos (m : positive) (e : Z) (l : location) :
  emin prec emax ≤ e →
  ∃ m' r s e', shr_fexp prec emax (Z.pos m) e l
               = ({| shr_m := Z.pos m'; shr_r := r; shr_s := s |}, e') ∧ e ≤ e'.
Proof.
  intros He. unfold shr_fexp, shr.
  set (mrs := shr_record_of_loc (Z.pos m) l).
  assert (Hm : shr_m mrs = Z.pos m) by (unfold mrs; by destruct l as [|[]]).
  destruct (fexp prec emax (Zdigits2 (Z.pos m) + e) - e) as [|n|n] eqn:Hn.
  - destruct mrs as [m0 r s]. cbn in Hm. subst m0. exists m, r, s, e. split; [done|lia].
  - pose proof (shr_m_iter_pos n mrs ltac:(lia)) as Hs.
    rewrite Hm in Hs.
    assert (Hpos : 0 < Z.shiftr (Z.pos m) (Z.pos n)).
    { rewrite Z.shiftr_div_pow2 by lia.
      apply Z.div_str_pos. split; [lia|].
      etrans; [|apply digits2_pos_lower].
      apply Z.pow_le_mono_r; [lia|].
      revert Hn. unfold fexp. cbn [Zdigits2]. lia. }
    destruct (SpecFloat.iter_pos shr_1 n mrs) as [m0 r s]. cbn [shr_m] in Hs.
    destruct m0 as [|m0|m0]; try lia.
    exists m0, r, s, (e + Z.pos n). split; [done|lia].
  - destruct mrs as [m0 r s]. cbn in Hm. subst m0. exists m, r, s, e. split; [done|lia].
Qed.

Lemma binary_round_aux_pos (sx : bool) (m : positive) (e : Z) (l : location) :
  emin prec emax ≤ e →
  ∃ m' e', binary_round_aux prec emax sx (Z.pos m) e l = S754_finite sx m' e'
           ∨ binary_round_aux prec emax sx (Z.pos m) e l = S754_infinity sx.
Proof.
  intros He. unfold binary_round_aux.
  destruct (shr_fexp_pos m e l He) as (m1 & r1 & s1 & e1 & -> & He1).
  cbn [shr_m].
  assert (Hr : ∃ m2, round_nearest_even (Z.pos m1)
                       (loc_of_shr_record {| shr_m := Z.pos m1; shr_r := r1; shr_s := s1 |})
                     = Z.pos m2).
  { unfold round_nearest_even, loc_of_shr_record.
    destruct r1, s1; try (by eexists).
    destruct (IntDef.Z.even (Z.pos m1)); by eexists. }
  destruct Hr as [m2 ->].
  destruct (shr_fexp_pos m2 e1 loc_Exact ltac:(lia)) as (m3 & r3 & s3 & e3 & -> & He3).
  cbn [shr_m]. exists m3, e3. destruct (e3 <=? emax - prec); auto.
Qed.

Lemma binary_normalize_pos (z : Z) :
  emin prec emax ≤ 0 → 0 < z →
  ∃ m e, binary_normalize prec emax z 0 false = S754_finite false m e
         ∨ binary_normalize prec emax z 0 false = S754_infinity false.
Proof.
  intros Hemin Hz. destruct z as [|m|m]; try lia.
  unfold binary_normalize, binary_round.
  destruct (shl_align m 0 (fexp prec emax (Z.pos (digits2_pos m) + 0)))
    as [mz ez] eqn:Hal.
  apply binary_round_aux_pos.
  revert Hal. unfold shl_align.
  destruct (fexp prec emax (Z.pos (digits2_pos m) + 0) - 0) as [|d|d] eqn:Hd;
    intros [= <- <-]; try lia.
  revert Hd. unfold fexp. lia.
Qed.

End float_facts.

(** The product of a valid finite number and the number one, whose
    mantissa is [2 ^ k] and whose exponent is [- k]. *)
Ltac mul_one_exact one k :=
  match goal with
  | Hv : valid_binary ?prec ?emax (S754_finite ?s ?m ?e) = true |- _ =>
      cbn [valid_binary] in Hv; unfold bounded, canonical_mantissa in Hv;
      apply andb_prop in Hv as [Hc Hb];
      apply Z.eqb_eq in Hc;
      unfold SFmul; rewrite (Pos.mul_comm m);
      (let t := eval lazy in (one * m)%positive in
       change (one * m)%positive with t);
      unfold binary_round_aux, shr_fexp at 1;
      cbn [Zdigits2 digits2_pos shr_record_of_loc];
      rewrite !Pos2Z.inj_succ;
      match goal with
      | |- context [shr _ _ (fexp prec emax ?x - ?y)] =>
          replace (fexp prec emax x - y) with k
            by (revert Hc; unfold fexp, emin; lia)
      end;
      cbn [shr SpecFloat.iter_pos shr_1 orb shr_m loc_of_shr_record
           round_nearest_even];
      unfold shr_fexp; cbn [Zdigits2 shr_record_of_loc];
      (let nk := eval cbv in (- k) in
       replace (e + nk + k) with e by lia);
      rewrite Hc, Z.sub_diag; cbn [shr shr_m];
      rewrite Hb; by destruct s
  end.

Lemma SFmul_one_32 (n : spec_float) :
  valid_binary 24 128 n = true →
  SFmul 24 128 n (S754_finite false 8388608 (-23)) = n.
Proof.
  destruct n as [s|s| |s m e]; intros Hv; try done; try (by destruct s).
  mul_one_exact 8388608%positive 23.
Qed.

Lemma SFmul_one_64 (n : spec_float) :
  valid_binary 53 1024 n = true →
  SFmul 53 1024 n (S754_finite false 4503599627370496 (-52)) = n.
Proof.
  destruct n as [s|s| |s m e]; intros Hv; try done; try (by destruct s).
  mul_one_exact 4503599627370496%positive 52.
Qed.

(** ** The label-smoothing loss without smoothing *)

Section smoothing_facts.
Import Losses.
Context {Tensor2 Target Weight : Type}.
Variable d : dtype.
Variable size1 : Tensor2 → Z.
Variable log_softmax : Tensor2 → Tensor2.
Variable sum_all : Tensor2 → spec_float.
Variable sum_dim1 : Tensor2 → list spec_float.
Variable mean : list spec_float → spec_float.
Variable nll_loss : Tensor2 → Target → option Weight → string → result tensor.

Local Abbreviation forward :=
  (@forward Tensor2 Target Weight d size1 log_softmax sum_all sum_dim1 mean
     nll_loss).
Local Abbreviation smoothing_term :=
  (@smoothing_term Tensor2 Weight sum_all sum_dim1 mean).

(** The number one of the type. *)
Lemma scalar_one : scalar d (PyInt 1) = binary_normalize (dtype_prec d) (dtype_emax d) 1 0 false.
Proof. done. Qed.

Lemma SFmul_one (n : spec_float) :
  valid_binary (dtype_prec d) (dtype_emax d) n = true →
  SFmul (dtype_prec d) (dtype_emax d) n (scalar d (PyInt 1)) = n.
Proof. destruct d; [apply SFmul_one_32|apply SFmul_one_64]. Qed.

(** With [eps] zero, [1 - eps] is the number one and [eps] is a zero. *)
Lemma eps_zero_scalars (e : number) :
  e = PyInt 0 ∨ (∃ s, e = PyFloat (S754_zero s)) →
  scalar d (one_minus e) = scalar d (PyInt 1) ∧ is_zero (scalar d e) = true.
Proof. intros [->|[s ->]]; by destruct d. Qed.

(** The number of classes as a number of the type: not zero, not a NaN. *)
Lemma scalar_classes (c : Z) :
  1 ≤ c →
  ∃ m e, scalar d (PyInt c) = S754_finite false m e
         ∨ scalar d (PyInt c) = S754_infinity false.
Proof.
  intros Hc. apply binary_normalize_pos; [by destruct d|by destruct d|lia].
Qed.

(** One element of the last assignment of [forward], with [eps] zero. *)
Lemma smoothed_element (l z c n : spec_float) :
  is_zero z = true →
  (∃ m e, c = S754_finite false m e ∨ c = S754_infinity false) →
  valid_binary (dtype_prec d) (dtype_emax d) n = true →
  let o := SFadd (dtype_prec d) (dtype_emax d)
             (SFdiv (dtype_prec d) (dtype_emax d)
                (SFmul (dtype_prec d) (dtype_emax d) l z) c)
             (SFmul (dtype_prec d) (dtype_emax d) n (scalar d (PyInt 1))) in
  if is_finite l then o = n ∨ (is_zero n = true ∧ is_zero o = true)
  else o = S754_nan.
Proof.
  intros Hz (m & e & Hc) Hn o. subst o. rewrite SFmul_one by done.
  destruct z as [sz| | |]; try done.
  destruct l as [sl|sl| |sl ml el], Hc as [->| ->], n as [sn|sn| |sn mn en];
    cbn; auto; destruct sl, sz, sn; cbn; auto.
Qed.

(** C9 (as amended). [LabelSmoothingCrossEntropy.forward] with [eps]
    zero, on single or double precision logits of at least one class,
    when [F.nll_loss] gives a tensor [nll] of valid numbers in the
    shape of the smoothing term: [forward] gives a tensor of that shape
    and, element by element, where the smoothing term (the negated sum
    of the log-probabilities) is finite the element is that of [nll], up
    to the sign of a zero; where the smoothing term is infinite or a NaN
    the element is a NaN, whatever [nll] holds there. *)
Theorem forward_eps_zero
    (self : LabelSmoothingCrossEntropy) (input : Tensor2) (target : Target)
    (nll : tensor) :
  eps self = PyInt 0 ∨ (∃ s, eps self = PyFloat (S754_zero s)) →
  1 ≤ size1 input →
  nll_loss (log_softmax input) target (weight self) (reduction self) = Ok nll →
  Forall (λ x, valid_binary (dtype_prec d) (dtype_emax d) x = true) (elements nll) →
  same_shape (smoothing_term self (log_softmax input)) nll →
  ∃ out,
    forward self input target = Ok out ∧
    same_shape out nll ∧
    ∀ (i : nat) (l n : spec_float),
      elements (smoothing_term self (log_softmax input)) !! i = Some l →
      elements nll !! i = Some n →
      ∃ o, elements out !! i = Some o ∧
           if is_finite l then o = n ∨ (is_zero n = true ∧ is_zero o = true)
           else o = S754_nan.
Proof.
  intros Heps Hc Hnll Hvalid Hshape.
  destruct (eps_zero_scalars _ Heps) as [Hone Hzero].
  pose proof (scalar_classes _ Hc) as Hclasses.
  unfold Losses.forward. rewrite Hnll. cbn [rbind].
  unfold div_scalar, mul_scalar, rmul_scalar. rewrite Hone.
  set (z := scalar d (eps self)) in *.
  set (c := scalar d (PyInt (size1 input))) in *.
  set (loss := smoothing_term self (log_softmax input)) in *.
  assert (Helem : ∀ l n, n ∈ elements nll →
    let o := SFadd (dtype_prec d) (dtype_emax d)
               (SFdiv (dtype_prec d) (dtype_emax d)
                  (SFmul (dtype_prec d) (dtype_emax d) l z) c)
               (SFmul (dtype_prec d) (dtype_emax d) n (scalar d (PyInt 1))) in
    if is_finite l then o = n ∨ (is_zero n = true ∧ is_zero o = true)
    else o = S754_nan).
  { intros l n Hn. apply smoothed_element; [done|done|].
    by apply (proj1 (Forall_forall _ _) Hvalid). }
  destruct loss as [l|ls], nll as [n|ns]; try done; cbn [tmap tadd].
  - eexists. split; [done|]. split; [done|].
    intros [|i] l' n' [= <-] [= <-]; [|done..].
    eexists. split; [done|]. apply Helem. cbn. left.
  - cbn [same_shape] in Hshape. rewrite !length_fmap.
    rewrite decide_True by done.
    eexists. split; [done|]. split; [cbn; by rewrite length_zip_with, !length_fmap; lia|].
    intros i l n Hl Hn. cbn [elements] in *.
    rewrite lookup_zip_with, !list_lookup_fmap, Hl, Hn. cbn.
    eexists. split; [done|]. apply Helem. by eapply list_elem_of_lookup_2.
Qed.

End smoothing_facts.

(** The statement of C9 (as amended) at the logits 0 and -1000 with the
    second class as target: the loss is 1000, as the plain
    cross-entropy. *)
Lemma forward_eps_zero_witness :
  let nll := Losses.Vector [binary_normalize 24 128 1000 0 false] in
  ∃ out,
    demo_forward Losses.Float32 (no_smoothing "none") far_logits [1%nat] = Ok out ∧
    Losses.same_shape out nll ∧
    ∀ (i : nat) (l n : spec_float),
      Losses.elements
        (demo_smoothing_term Losses.Float32 (no_smoothing "none")
           (demo_log_softmax far_logits)) !! i = Some l →
      Losses.elements nll !! i = Some n →
      ∃ o, Losses.elements out !! i = Some o ∧
           if Losses.is_finite l
           then o = n ∨ (Losses.is_zero n = true ∧ Losses.is_zero o = true)
           else o = S754_nan.
Proof.
  apply (forward_eps_zero Losses.Float32 demo_size1 demo_log_softmax
           (demo_sum_all Losses.Float32) (demo_sum_dim1 Losses.Float32)
           (demo_mean Losses.Float32) (demo_nll_loss Losses.Float32)
           (no_smoothing "none") far_logits [1%nat]
           (Losses.Vector [binary_normalize 24 128 1000 0 false])).
  - left. reflexivity.
  - vm_compute. discriminate.
  - vm_compute. reflexivity.
  - repeat constructor.
  - reflexivity.
Defined.

(** C9 as stated fails when a logit is [-inf]: on the logits 0 and
    [-inf] with the first class as target the plain cross-entropy is a
    zero, for each reduction, and the loss with [eps=0] is a NaN: the
    sum of the log-probabilities is infinite, and its product with 0 is
    a NaN. On the logits 0 and -1000 both are 1000. *)
Lemma forward_eps_zero_not_cross_entropy :
  (∀ reduction, reduction ∈ ["none"; "mean"; "sum"] →
     ∃ out nll,
       demo_forward Losses.Float32 (no_smoothing reduction) masked_logits [0%nat]
       = Ok out ∧
       demo_nll_loss Losses.Float32 (demo_log_softmax masked_logits) [0%nat] None
         reduction = Ok nll ∧
       Losses.elements out = [S754_nan] ∧
       (∃ s, Losses.elements nll = [S754_zero s]) ∧
       out ≠ nll) ∧
  demo_forward Losses.Float32 (no_smoothing "none") far_logits [1%nat]
  = demo_nll_loss Losses.Float32 (demo_log_softmax far_logits) [1%nat] None "none".
Proof.
  split; [|vm_compute; reflexivity].
  intros reduction Hr.
  repeat (apply elem_of_cons in Hr as [->|Hr]); [| | |by apply elem_of_nil in Hr];
    eexists _, _; (split; [vm_compute; reflexivity|]);
    (split; [vm_compute; reflexivity|]);
    (split; [reflexivity|]); (split; [by eexists|]); discriminate.
Qed.

Section core_facts.
Import CoreClasses.
Context {Optimizer Scheduler Params : Type}.
Variable optimizer_class : Optimizer → string.
Variable scheduler_class : Scheduler → string.
Variable OPTIM_REGISTRY : gmap string (Params → kwds → result Optimizer).
Variable SCHEDULER_REGISTRY :
  gmap string (option Optimizer → kwds → result Scheduler).

Local Abbreviation Task := (@Task Optimizer Scheduler Params).
Local Abbreviation build_lr_scheduler :=
  (@build_lr_scheduler Optimizer Scheduler Params scheduler_class
     SCHEDULER_REGISTRY).
Local Abbreviation build_optimizer :=
  (@build_optimizer Optimizer Scheduler Params optimizer_class OPTIM_REGISTRY).
Local Abbreviation setup_optimization :=
  (@setup_optimization Optimizer Scheduler Params optimizer_class
     scheduler_class OPTIM_REGISTRY SCHEDULER_REGISTRY).
Local Abbreviation process_optim_config :=
  (@process_optim_config Optimizer Scheduler Params).

Lemma scheduler_kwds_lookup (max_lrs : pyval) (d_args : gmap string pyval)
    (key : string) :
  scheduler_kwds max_lrs d_args !! key = kwd_value max_lrs key <$> d_args !! key.
Proof.
  unfold scheduler_kwds.
  apply (map_fold_weak_ind (λ r m, r !! key = kwd_value max_lrs key <$> m !! key)).
  { by rewrite !lookup_empty. }
  intros i x m r Hi IH.
  assert (Hstep : ∀ (r : gmap string pyval),
    match x with
    | VList l => <[i := VList l]> r
    | _ => if decide (i = "max_lr") then <["max_lr" := max_lrs]> r
           else <[i := x]> r
    end = <[i := kwd_value max_lrs i x]> r).
  { intros r'. unfold kwd_value.
    destruct x; try done; by destruct (decide (i = "max_lr")) as [->|]. }
  rewrite Hstep, !lookup_insert.
  destruct (decide (i = key)) as [->|]; [done|exact IH].
Qed.

Lemma T_bind_ok {A B} (m : T A) (k : A → T B) (t t' : Task) a :
  m t = (Ok a, t') → (m ≫= k) t = k a t'.
Proof. unfold mbind, T_bind. by intros ->. Qed.

Lemma T_bind_raise {A B} (m : T A) (k : A → T B) (t t' : Task) e :
  m t = (Raise e, t') → (m ≫= k) t = (Raise e, t').
Proof. unfold mbind, T_bind. by intros ->. Qed.

(** C3 (as amended). For a task whose model has a learning rate in its
    hyperparameters: when the scheduler is named and registered and its
    [init_args] have the key [max_lr], [build_lr_scheduler] calls the
    registered constructor with the optimiser and with keyword arguments
    in which [max_lr] is the learning rate of the model's hyperparameters
    if the configured value is not a list, and the configured list itself
    if it is one; what the constructor gives is the result. *)
Theorem build_lr_scheduler_max_lr
    (opt_conf : OptimConf) (opt : option Optimizer) (t : Task)
    (name : string) (d_args : gmap string pyval)
    (instance : option Optimizer → gmap string pyval → result Scheduler)
    (value lr : pyval) :
  hypers_lr t = Some lr →
  sch_name (scheduler opt_conf) = Some name →
  sch_init_args (scheduler opt_conf) = Some d_args →
  SCHEDULER_REGISTRY !! name = Some instance →
  d_args !! "max_lr" = Some value →
  let kwds := scheduler_kwds lr d_args in
  kwds !! "max_lr"
  = Some (match value with VList l => VList l | _ => lr end) ∧
  ((∀ l, value ≠ VList l) → kwds !! "max_lr" = Some lr) ∧
  fst (build_lr_scheduler opt_conf opt t)
  = rbind (instance opt kwds)
      (λ sch, Ok (Some {| lrs_scheduler := sch;
                          lrs_interval := sch_interval (scheduler opt_conf);
                          lrs_monitor := sch_monitor (scheduler opt_conf) |})).
Proof.
  intros Hlr' Hname Hargs Hreg Hlr kwds.
  assert (Hk : kwds !! "max_lr"
               = Some (match value with VList l => VList l | _ => lr end)).
  { unfold kwds. rewrite scheduler_kwds_lookup, Hlr. by destruct value. }
  split; [done|]. split.
  { intros Hnl. rewrite Hk. f_equal. destruct value; try done. by destruct (Hnl l). }
  unfold CoreClasses.build_lr_scheduler.
  unfold mbind, T_bind, self, of_result, registry_get, mret, T_ret.
  rewrite Hlr', Hname, Hargs, Hreg. fold kwds.
  by destruct (instance opt kwds).
Qed.

(** C4. With both [max_epochs] and [max_steps] of the trainer [None],
    [process_optim_config] raises at once the error for the missing
    configuration (a [ValueError] with the message of the source),
    whatever the configuration; the task is left as it was, and
    [setup_optimization] stops there with the same error: no optimiser and
    no scheduler is constructed or stored, nothing is logged. *)
Theorem process_optim_config_no_limits (opt_conf : OptimConf) (t : Task) :
  max_epochs (_trainer t) = None →
  max_steps (_trainer t) = None →
  process_optim_config opt_conf t = (Raise no_limits_error, t) ∧
  setup_optimization (Some opt_conf) t = (Raise no_limits_error, t).
Proof.
  intros He Hs.
  assert (Hp : process_optim_config opt_conf t = (Raise no_limits_error, t)).
  { unfold CoreClasses.process_optim_config, mbind, T_bind, self.
    rewrite bool_decide_eq_true_2 by done. done. }
  split; [done|].
  unfold CoreClasses.setup_optimization.
  erewrite T_bind_ok by reflexivity.
  by erewrite T_bind_raise by exact Hp.
Qed.

(** Without [max_epochs], [num_training_steps] does not return: whatever
    else the trainer holds, it raises, at the latest at the product with
    [max_epochs]. *)
Lemma num_training_steps_no_epochs (t : Task) :
  max_epochs (_trainer t) = None → ∃ e, num_training_steps t = Raise e.
Proof.
  intros He. unfold num_training_steps.
  repeat match goal with
         | |- ∃ e, rbind ?r _ = _ => destruct r; simpl; [|by eauto]
         | |- ∃ e, (if ?b then _ else _) = _ => destruct b; [by eauto|]
         end.
  rewrite He. by eauto.
Qed.

Lemma process_optim_config_no_epochs (opt_conf : OptimConf) (t : Task) :
  max_epochs (_trainer t) = None →
  ∃ e, process_optim_config opt_conf t = (Raise e, t).
Proof.
  intros He. unfold CoreClasses.process_optim_config, mbind, T_bind, self, of_result.
  case_bool_decide; [by eexists|].
  destruct (num_training_steps_no_epochs t He) as [e ->]. by eexists.
Qed.

(** *** What the resolution of the configuration leaves alone *)

Lemma add_log_nil (t : Task) : add_log [] t = t.
Proof. destruct t. unfold add_log; simpl. by rewrite app_nil_r. Qed.

Lemma add_log_add_log (l1 l2 : list (Z * string)) (t : Task) :
  add_log l2 (add_log l1 t) = add_log (l1 ++ l2) t.
Proof. unfold add_log; simpl. by rewrite app_assoc. Qed.

Lemma log_main_process_spec lvl msg (t : Task) :
  log_main_process lvl msg t
  = (Ok (), add_log (if Z.eqb (rank t) 0 then [(lvl, msg)] else []) t).
Proof.
  unfold log_main_process. destruct (Z.eqb (rank t) 0); [done|].
  by rewrite add_log_nil.
Qed.

Lemma fill_sentinel_spec key value sched_config init_args (t : Task) :
  ∃ a l, fill_sentinel key value sched_config init_args t = (Ok a, add_log l t).
Proof.
  unfold fill_sentinel. destruct (sched_config !! key) as [v|].
  - destruct (py_eq_int v (-1)).
    + unfold mbind, T_bind. rewrite log_main_process_spec. by eexists _, _.
    + exists init_args, []. by rewrite add_log_nil.
  - exists init_args, []. by rewrite add_log_nil.
Qed.

Lemma process_optim_config_frame (opt_conf opt_conf' : OptimConf) (t t1 : Task) :
  process_optim_config opt_conf t = (Ok opt_conf', t1) →
  (∃ l, t1 = add_log l t) ∧
  optimizer opt_conf' = optimizer opt_conf ∧
  sch_name (scheduler opt_conf') = sch_name (scheduler opt_conf) ∧
  sch_interval (scheduler opt_conf') = sch_interval (scheduler opt_conf) ∧
  sch_monitor (scheduler opt_conf') = sch_monitor (scheduler opt_conf) ∧
  is_Some (sch_init_args (scheduler opt_conf')).
Proof.
  unfold CoreClasses.process_optim_config, mbind, T_bind, self, of_result, throw,
    mret, T_ret.
  case_bool_decide; [done|].
  destruct (num_training_steps t) as [[n|a b]|e]; try done.
  destruct (Z.eqb b 0); [done|].
  destruct (sch_init_args (scheduler opt_conf)) as [d|]; [|done].
  destruct (fill_sentinel_spec "max_iters" a d d t) as (a1 & l1 & ->).
  destruct (fill_sentinel_spec "epochs"
              (ifnone (max_epochs (_trainer t)) (a / b)) d a1 (add_log l1 t))
    as (a2 & l2 & ->).
  destruct (fill_sentinel_spec "steps_per_epoch" b d a2 (add_log l2 (add_log l1 t)))
    as (a3 & l3 & ->).
  destruct (fill_sentinel_spec "max_steps" a d a3
              (add_log l3 (add_log l2 (add_log l1 t)))) as (a4 & l4 & ->).
  intros [= <- <-]. simpl. rewrite !add_log_add_log. eauto 10.
Qed.

(** C2 (as amended). If the optimiser name is unset and the resolution of
    the configuration succeeds, [setup_optimization] constructs no
    optimiser: it logs the warning (on the rank-zero process), stores
    [None] as the optimiser and goes on to [build_lr_scheduler] with
    [optimizer=None], whose outcome is its own. That call first reads the
    learning rate of the model: for a task whose model has none it raises
    [AttributeError], whatever the scheduler name. Otherwise, if the
    scheduler name is unset too, no scheduler is produced and nothing is
    raised; and if a scheduler name is set and registered, its
    constructor is called with [optimizer=None]: the scheduler it
    constructs is stored, the error it raises is raised. *)
Theorem setup_optimization_no_optimizer
    (opt_conf opt_conf' : OptimConf) (t t1 : Task) :
  process_optim_config opt_conf t = (Ok opt_conf', t1) →
  opt_name (optimizer opt_conf) = None →
  let warning :=
    (WARNING, "Optimizer is None, therefore no optimizer will be created.") in
  let t2 := snd (set_optimizer PyNone (snd (log_main_process (fst warning) (snd warning) t1))) in
  _optimizer t2 = PyNone ∧
  (rank t = 0 → warning ∈ log t2) ∧
  setup_optimization (Some opt_conf) t
  = (build_lr_scheduler opt_conf' None
       ≫= λ sch, set_scheduler (attr_of_option sch)) t2 ∧
  match hypers_lr t with
  | None => setup_optimization (Some opt_conf) t = (Raise AttributeError, t2)
  | Some lr =>
      match sch_name (scheduler opt_conf) with
      | None =>
          ∃ t', setup_optimization (Some opt_conf) t = (Ok (), t') ∧
                _optimizer t' = PyNone ∧ _scheduler t' = PyNone ∧
                (rank t = 0 → warning ∈ log t')
      | Some name =>
          ∀ d_args instance,
            sch_init_args (scheduler opt_conf') = Some d_args →
            SCHEDULER_REGISTRY !! name = Some instance →
            match instance None (scheduler_kwds lr d_args) with
            | Ok sch =>
                ∃ t', setup_optimization (Some opt_conf) t = (Ok (), t') ∧
                      _optimizer t' = PyNone ∧
                      _scheduler t'
                      = Obj {| lrs_scheduler := sch;
                               lrs_interval := sch_interval (scheduler opt_conf);
                               lrs_monitor := sch_monitor (scheduler opt_conf) |}
            | Raise e =>
                ∃ t', setup_optimization (Some opt_conf) t = (Raise e, t') ∧
                      _optimizer t' = PyNone
            end
      end
  end.
Proof.
  intros Hp Hname warning t2.
  destruct (process_optim_config_frame _ _ _ _ Hp)
    as ([l ->] & Hopt & Hsn & Hsi & Hsm & Hargs).
  assert (Hrun : setup_optimization (Some opt_conf) t
                 = (build_lr_scheduler opt_conf' None
                      ≫= λ sch, set_scheduler (attr_of_option sch)) t2).
  { unfold CoreClasses.setup_optimization.
    erewrite T_bind_ok by reflexivity.
    erewrite T_bind_ok by exact Hp.
    erewrite T_bind_ok by reflexivity.
    unfold CoreClasses.build_optimizer. rewrite Hopt, Hname.
    erewrite T_bind_ok; [|erewrite T_bind_ok by reflexivity; reflexivity].
    erewrite T_bind_ok by reflexivity. reflexivity. }
  assert (Hlog : rank t = 0 → warning ∈ log t2).
  { intros Hr. unfold t2. rewrite log_main_process_spec. simpl. rewrite Hr. simpl.
    rewrite !elem_of_app. right. left. }
  assert (Ho : _optimizer t2 = PyNone) by done.
  assert (Hlr : hypers_lr t2 = hypers_lr t).
  { unfold t2. by rewrite log_main_process_spec. }
  clearbody t2.
  split; [done|]. split; [done|]. split; [done|].
  rewrite Hrun.
  unfold CoreClasses.build_lr_scheduler, mbind, T_bind, self, of_result, throw,
    registry_get, mret, T_ret.
  rewrite Hlr, Hsn.
  destruct (hypers_lr t) as [lr|]; [|done].
  destruct (sch_name (scheduler opt_conf)) as [name|].
  - intros d_args instance Hd Hreg. rewrite Hd, Hreg, Hsi, Hsm.
    destruct (instance None (scheduler_kwds lr d_args)) as [sch|e].
    + rewrite log_main_process_spec. eexists. split; [reflexivity|]. done.
    + eexists. split; [reflexivity|]. done.
  - rewrite log_main_process_spec.
    eexists. split; [reflexivity|].
    cbn [set_scheduler snd _optimizer _scheduler log add_log].
    split; [done|]. split; [done|].
    intros Hr. apply elem_of_app. left. by apply Hlog.
Qed.

End core_facts.

(** The statement of C3 (as amended) for a scalar [max_lr] in the
    configuration. *)
Lemma build_lr_scheduler_max_lr_witness :
  let d_args : gmap string pyval :=
    {["max_lr" := VFloat (float_lit 1 (-1)); "total_steps" := VInt (-1)]} in
  let opt_conf := demo_conf (Some "SGD") (Some "OneCycleLR") d_args in
  let t := demo_task demo_trainer in
  let lr := VFloat (float_lit 1 (-10)) in
  let kwds := CoreClasses.scheduler_kwds lr d_args in
  kwds !! "max_lr" = Some lr ∧
  ((∀ l, VFloat (float_lit 1 (-1)) ≠ VList l) → kwds !! "max_lr" = Some lr) ∧
  fst (demo_build_lr_scheduler opt_conf (Some ("SGD", ∅)) t)
  = rbind (Ok ("OneCycleLR", Some ("SGD", ∅), kwds))
      (λ sch, Ok (Some {| CoreClasses.lrs_scheduler := sch;
                          CoreClasses.lrs_interval := VStr "step";
                          CoreClasses.lrs_monitor := VNone |})).
Proof.
  apply (build_lr_scheduler_max_lr (λ s, fst (fst s)) demo_scheduler_registry
           (demo_conf (Some "SGD") (Some "OneCycleLR")
              {["max_lr" := VFloat (float_lit 1 (-1)); "total_steps" := VInt (-1)]})
           (Some ("SGD", ∅)) (demo_task demo_trainer) "OneCycleLR"
           {["max_lr" := VFloat (float_lit 1 (-1)); "total_steps" := VInt (-1)]}
           (λ o a, Ok ("OneCycleLR", o, a)) (VFloat (float_lit 1 (-1)))
           (VFloat (float_lit 1 (-10))));
    reflexivity.
Defined.

(** C3 as stated fails for a list: with [max_lr: [0.5, 0.25]] in the
    configuration the scheduler is constructed with that list, not with
    the learning rate of the model. *)
Lemma build_lr_scheduler_keeps_list_max_lr :
  let lrs := VList [VFloat (float_lit 1 (-1)); VFloat (float_lit 1 (-2))] in
  let opt_conf :=
    demo_conf (Some "SGD") (Some "OneCycleLR") {["max_lr" := lrs]} in
  let t := demo_task demo_trainer in
  ∃ (o : option demo_optimizer) (a : gmap string pyval) (interval monitor : pyval),
    fst (demo_build_lr_scheduler opt_conf (Some ("SGD", ∅)) t)
    = Ok (Some {| CoreClasses.lrs_scheduler := ("OneCycleLR", o, a);
                  CoreClasses.lrs_interval := interval;
                  CoreClasses.lrs_monitor := monitor |}) ∧
    a !! "max_lr" = Some lrs ∧
    a !! "max_lr" ≠ CoreClasses.hypers_lr t.
Proof.
  eexists _, _, _, _. split; [vm_compute; reflexivity|].
  split; [reflexivity|]. discriminate.
Qed.

(** The statement of C4 at a task whose trainer has neither limit. *)
Lemma process_optim_config_no_limits_witness :
  let t := demo_task
             {| CoreClasses.max_epochs := None;
                CoreClasses.max_steps := None;
                CoreClasses.limit_train_batches := CoreClasses.LimitFloat (float_lit 1 0);
                CoreClasses.accumulate_grad_batches := 1;
                CoreClasses.num_gpus := 1;
                CoreClasses.num_processes := 1;
                CoreClasses.tpu_cores := CoreClasses.TpuNone |} in
  let opt_conf := demo_conf (Some "SGD") (Some "StepLR") ∅ in
  CoreClasses.process_optim_config opt_conf t = (Raise CoreClasses.no_limits_error, t) ∧
  CoreClasses.setup_optimization (λ o, fst o) (λ s, fst (fst s))
    demo_optim_registry demo_scheduler_registry (Some opt_conf) t
  = (Raise CoreClasses.no_limits_error, t).
Proof.
  apply (process_optim_config_no_limits (λ o, fst o) (λ s, fst (fst s))
           demo_optim_registry demo_scheduler_registry);
    reflexivity.
Defined.

(** C1. On the trainer of C1 and a training set of 500,
    [process_optim_config] does not resolve anything: it raises, whatever
    the other settings of the trainer and whatever the configuration; with
    the trainer's defaults ([limit_train_batches=1.0], one process, no
    TPU) the exception is the [TypeError] of the product
    [(dataset_size // effective_batch_size) * max_epochs] with
    [max_epochs] being [None]. *)
Theorem process_optim_config_max_steps_only
    (opt_conf : CoreClasses.OptimConf) (limit : CoreClasses.Limit)
    (processes : Z) (tpu : CoreClasses.TpuCores) :
  (∃ e, CoreClasses.process_optim_config opt_conf
          (demo_task (c1_trainer limit processes tpu))
        = (Raise e, demo_task (c1_trainer limit processes tpu))) ∧
  CoreClasses.process_optim_config opt_conf
    (demo_task (c1_trainer (CoreClasses.LimitFloat (float_lit 1 0)) 1
                  CoreClasses.TpuNone))
  = (Raise TypeError,
     demo_task (c1_trainer (CoreClasses.LimitFloat (float_lit 1 0)) 1
                  CoreClasses.TpuNone)).
Proof.
  split; [by apply process_optim_config_no_epochs|reflexivity].
Qed.

(** The statement of C2 (as amended) at three inputs: a configuration
    that names neither an optimiser nor a scheduler, on a task with a
    model; the configuration [no_optimizer_conf], which names a
    scheduler; and the first configuration on a task whose model is still
    the placeholder. *)
Lemma setup_optimization_no_optimizer_witness :
  let warning :=
    (CoreClasses.WARNING,
     "Optimizer is None, therefore no optimizer will be created.") in
  (∃ t', demo_setup_optimization (Some no_names_conf) (demo_task demo_trainer)
         = (Ok (), t') ∧
         CoreClasses._optimizer t' = CoreClasses.PyNone ∧
         CoreClasses._scheduler t' = CoreClasses.PyNone ∧
         warning ∈ CoreClasses.log t') ∧
  (∃ t', demo_setup_optimization (Some no_optimizer_conf) (demo_task demo_trainer)
         = (Ok (), t') ∧
         CoreClasses._optimizer t' = CoreClasses.PyNone ∧
         CoreClasses._scheduler t'
         = CoreClasses.Obj
             {| CoreClasses.lrs_scheduler :=
                  ("StepLR", None, {["step_size" := VInt 3]});
                CoreClasses.lrs_interval := VStr "step";
                CoreClasses.lrs_monitor := VNone |}) ∧
  (∃ t', demo_setup_optimization (Some no_names_conf)
           (without_model (demo_task demo_trainer))
         = (Raise AttributeError, t') ∧
         CoreClasses._optimizer t' = CoreClasses.PyNone ∧
         CoreClasses._scheduler t' = CoreClasses.Noop).
Proof.
  intros warning. split; [|split].
  - destruct (setup_optimization_no_optimizer (λ o, fst o) (λ s, fst (fst s))
                demo_optim_registry demo_scheduler_registry
                no_names_conf no_names_resolved (demo_task demo_trainer)
                (snd (CoreClasses.process_optim_config no_names_conf
                        (demo_task demo_trainer))))
      as (_ & _ & _ & t' & Hrun & Ho & Hs & Hlog);
      [vm_compute; reflexivity|reflexivity|].
    exists t'. split; [exact Hrun|]. split; [exact Ho|]. split; [exact Hs|].
    apply Hlog. reflexivity.
  - destruct (setup_optimization_no_optimizer (λ o, fst o) (λ s, fst (fst s))
                demo_optim_registry demo_scheduler_registry
                no_optimizer_conf no_optimizer_resolved (demo_task demo_trainer)
                (snd (CoreClasses.process_optim_config no_optimizer_conf
                        (demo_task demo_trainer))))
      as (_ & _ & _ & H); [vm_compute; reflexivity|reflexivity|].
    exact (H {["step_size" := VInt 3]} (λ o a, Ok ("StepLR", o, a))
             eq_refl eq_refl).
  - destruct (setup_optimization_no_optimizer (λ o, fst o) (λ s, fst (fst s))
                demo_optim_registry demo_scheduler_registry
                no_names_conf no_names_resolved
                (without_model (demo_task demo_trainer))
                (snd (CoreClasses.process_optim_config no_names_conf
                        (without_model (demo_task demo_trainer)))))
      as (Ho & _ & _ & H); [vm_compute; reflexivity|reflexivity|].
    eexists. split; [exact H|]. split; [exact Ho|]. reflexivity.
Defined.

(** C2 as stated fails when a scheduler name is set: without an optimiser
    name the scheduler constructor is still called, with [optimizer=None].
    A constructor that accepts it yields a scheduler, which is stored; one
    that rejects it makes [setup_optimization] raise. *)
Lemma setup_optimization_scheduler_without_optimizer :
  CoreClasses.opt_name (CoreClasses.optimizer no_optimizer_conf) = None ∧
  (∃ t' a,
     demo_setup_optimization (Some no_optimizer_conf) (demo_task demo_trainer)
     = (Ok (), t') ∧
     CoreClasses._optimizer t' = CoreClasses.PyNone ∧
     CoreClasses._scheduler t'
     = CoreClasses.Obj {| CoreClasses.lrs_scheduler := ("StepLR", None, a);
                          CoreClasses.lrs_interval := VStr "step";
                          CoreClasses.lrs_monitor := VNone |}) ∧
  (∃ t',
     CoreClasses.setup_optimization (λ o, fst o) (λ s, fst (fst s))
       demo_optim_registry strict_scheduler_registry
       (Some no_optimizer_conf) (demo_task demo_trainer)
     = (Raise TypeError, t')).
Proof.
  split; [reflexivity|]. split.
  - eexists _, _. split; [vm_compute; reflexivity|]. split; reflexivity.
  - eexists. vm_compute. reflexivity.
Qed.

(** * Further properties *)

Section pandas_more.
Import Pandas.

Lemma fmap_snd_reindexed (df : DataFrame) (rows : list (vec cell (df_width df))) :
  snd <$> df_rows (reindexed df rows) = rows.
Proof.
  unfold reindexed; cbn [df_rows]. apply snd_zip.
  by rewrite length_seqZ, Nat2Z.id.
Qed.

(** The whole effect of [get_dataframe_fold] on the store: three new
    objects, the copy and the two parts. *)
Lemma get_dataframe_fold_run
    (h : heap) (dataframe : loc) (df : DataFrame) (split_column : string)
    (f : Z) (j : fin (df_width df)) :
  h !! dataframe = Some df →
  col_pos split_column (df_columns df) = Some j →
  get_dataframe_fold dataframe split_column f h
  = (Ok (S (length h), S (S (length h))),
     h ++ [df;
           reindexed df (filter (λ r, r !!! j ≠ CInt f) (snd <$> df_rows df));
           reindexed df (filter (λ r, r !!! j = CInt f) (snd <$> df_rows df))]).
Proof.
  intros Hdf Hcol.
  set (col := (λ r : Z * vec cell (df_width df), snd r !!! j) <$> df_rows df).
  set (tr := df_loc df (series_ne col f)).
  set (va := df_loc df (series_eq col f)).
  assert (Htr : df_reset_index tr
    = reindexed df (filter (λ r, r !!! j ≠ CInt f) (snd <$> df_rows df))).
  { rewrite df_reset_index_reindexed. change (reindexed tr) with (reindexed df).
    f_equal. unfold tr, df_loc; cbn [df_rows]. unfold series_ne.
    etrans; [apply (loc_series_rows (cell_ne_int f) df j)|].
    apply list_filter_iff. intros r. apply cell_ne_int_spec. }
  assert (Hva : df_reset_index va
    = reindexed df (filter (λ r, r !!! j = CInt f) (snd <$> df_rows df))).
  { rewrite df_reset_index_reindexed. change (reindexed va) with (reindexed df).
    f_equal. unfold va, df_loc; cbn [df_rows]. unfold series_eq.
    etrans; [apply (loc_series_rows (cell_eq_int f) df j)|].
    apply list_filter_iff. intros r. apply cell_eq_int_spec. }
  assert (Hl1 : length (h ++ [df]) = S (length h)).
  { rewrite length_app. simpl. lia. }
  assert (Hl2 : length ((h ++ [df]) ++ [tr]) = S (S (length h))).
  { rewrite !length_app. simpl. lia. }
  unfold get_dataframe_fold.
  erewrite bind_ok by (by apply copy_ok).
  erewrite bind_ok
    by (eapply getitem_ok; [apply lookup_snoc_new|by apply df_getitem_ok]).
  erewrite bind_ok by (apply loc_mask_ok, lookup_snoc_new).
  erewrite bind_ok
    by (eapply getitem_ok;
        [apply lookup_snoc_old, lookup_snoc_new|by apply df_getitem_ok]).
  erewrite bind_ok by (apply loc_mask_ok, lookup_snoc_old, lookup_snoc_new).
  fold col tr va. rewrite Hl1, Hl2.
  erewrite bind_ok; last first.
  { apply reset_index_inplace_ok. apply lookup_snoc_old.
    rewrite <- Hl1. apply lookup_snoc_new. }
  erewrite bind_ok; last first.
  { apply reset_index_inplace_ok. rewrite list_lookup_insert_ne by lia.
    rewrite <- Hl2. apply lookup_snoc_new. }
  unfold mret, M_ret. f_equal. rewrite Htr, Hva.
  rewrite <- !app_assoc. cbn [app].
  rewrite !insert_app_r_alt by lia.
  replace (S (length h) - length h)%nat with 1%nat by lia.
  replace (S (S (length h)) - length h)%nat with 2%nat by lia.
  reflexivity.
Qed.

(** Folds compose: the validation part for fold [f], taken from the
    training part of another fold [g], is the validation part for [f] of
    the whole frame; the training part is what belongs to neither fold. *)
Theorem get_dataframe_fold_nested
    (h : heap) (dataframe : loc) (df : DataFrame) (split_column : string)
    (f g : Z) (j : fin (df_width df)) :
  h !! dataframe = Some df →
  col_pos split_column (df_columns df) = Some j →
  f ≠ g →
  let rows := snd <$> df_rows df in
  ∃ (train_g valid_g train valid : loc) (h1 h2 : heap),
    get_dataframe_fold dataframe split_column g h = (Ok (train_g, valid_g), h1) ∧
    get_dataframe_fold train_g split_column f h1 = (Ok (train, valid), h2) ∧
    h2 !! valid = Some (reindexed df (filter (λ r, r !!! j = CInt f) rows)) ∧
    h2 !! train
    = Some (reindexed df
              (filter (λ r, r !!! j ≠ CInt f ∧ r !!! j ≠ CInt g) rows)).
Proof.
  intros Hdf Hcol Hfg rows.
  set (tg := reindexed df (filter (λ r, r !!! j ≠ CInt g) rows)).
  set (vg := reindexed df (filter (λ r, r !!! j = CInt g) rows)).
  set (h1 := h ++ [df; tg; vg]).
  assert (Htg : h1 !! S (length h) = Some tg).
  { unfold h1. rewrite lookup_app_r by lia.
    by replace (S (length h) - length h)%nat with 1%nat by lia. }
  eexists (S (length h)), (S (S (length h))), _, _, h1, _.
  split; [by apply get_dataframe_fold_run|].
  split; [by apply (get_dataframe_fold_run h1 _ tg split_column f j)|].
  assert (Hrows : snd <$> df_rows tg = filter (λ r, r !!! j ≠ CInt g) rows)
    by apply fmap_snd_reindexed.
  assert (Hlen : length h1 = S (S (S (length h)))).
  { unfold h1. rewrite length_app. simpl. lia. }
  split.
  - rewrite lookup_app_r by lia.
    replace (S (S (length h1)) - length h1)%nat with 2%nat by lia.
    cbn [lookup list_lookup]. f_equal. rewrite Hrows.
    change (reindexed tg) with (reindexed df). f_equal.
    rewrite list_filter_filter. apply list_filter_iff.
    intros r. split; [by intros [? _]|]. intros Hr. split; [done|congruence].
  - rewrite lookup_app_r by lia.
    replace (S (length h1) - length h1)%nat with 1%nat by lia.
    cbn [lookup list_lookup]. f_equal. rewrite Hrows.
    change (reindexed tg) with (reindexed df). f_equal.
    by rewrite list_filter_filter.
Qed.

Lemma get_dataframe_fold_nested_witness :
  let rows := snd <$> df_rows fold_frame in
  ∃ (train_g valid_g train valid : loc) (h1 h2 : heap),
    get_dataframe_fold 0%nat "kfold" 1 [fold_frame] = (Ok (train_g, valid_g), h1) ∧
    get_dataframe_fold train_g "kfold" 0 h1 = (Ok (train, valid), h2) ∧
    h2 !! valid
    = Some (reindexed fold_frame (filter (λ r, r !!! 2%fin = CInt 0) rows)) ∧
    h2 !! train
    = Some (reindexed fold_frame
              (filter (λ r, r !!! 2%fin ≠ CInt 0 ∧ r !!! 2%fin ≠ CInt 1) rows)).
Proof.
  apply (get_dataframe_fold_nested [fold_frame] 0%nat fold_frame "kfold" 0 1 2%fin);
    [reflexivity|reflexivity|discriminate].
Defined.

(** A fold id that no row carries: the validation frame is empty and the
    training frame holds every row, in order. This is also what a split
    column of strings gives, for every fold id. *)
Theorem get_dataframe_fold_absent_fold
    (h : heap) (dataframe : loc) (df : DataFrame) (split_column : string)
    (f : Z) (j : fin (df_width df)) :
  h !! dataframe = Some df →
  col_pos split_column (df_columns df) = Some j →
  (∀ r, r ∈ df_rows df → snd r !!! j ≠ CInt f) →
  get_dataframe_fold dataframe split_column f h
  = (Ok (S (length h), S (S (length h))),
     h ++ [df; reindexed df (snd <$> df_rows df); reindexed df []]).
Proof.
  intros Hdf Hcol Hno.
  rewrite (get_dataframe_fold_run h dataframe df split_column f j) by done.
  assert (Hall : Forall (λ r : vec cell (df_width df), r !!! j ≠ CInt f)
                   (snd <$> df_rows df)).
  { apply Forall_fmap, Forall_forall. intros r Hr. by apply Hno. }
  do 4 f_equal.
  - f_equal. induction Hall as [|r l Hr _ IH]; [done|].
    by rewrite filter_cons_True, IH.
  - f_equal. f_equal. induction Hall as [|r l Hr _ IH]; [done|].
    by rewrite filter_cons_False by tauto.
Qed.

Lemma get_dataframe_fold_absent_fold_witness :
  get_dataframe_fold 0%nat "kfold" 7 [fold_frame]
  = (Ok (2%nat, 3%nat),
     [fold_frame; fold_frame;
      reindexed fold_frame (snd <$> df_rows fold_frame);
      reindexed fold_frame []]).
Proof.
  refine (get_dataframe_fold_absent_fold [fold_frame] 0%nat fold_frame "kfold"
            7 2%fin eq_refl eq_refl _).
  intros r Hr. repeat (apply elem_of_cons in Hr as [->|Hr]; [discriminate|]).
  by apply elem_of_nil in Hr.
Defined.

(** A column that the frame does not have: the three functions raise
    [KeyError] with the column's name, and every object that was in the
    store is as before (the only new object is the copy that was made). *)
Theorem missing_column_errors
    (h : heap) (dataframe : loc) (df : DataFrame) (column : string)
    (f : Z) (return_labelling : bool) :
  h !! dataframe = Some df →
  col_pos column (df_columns df) = None →
  get_dataframe_fold dataframe column f h = (Raise (KeyError column), h ++ [df]) ∧
  get_dataset_labeling dataframe column h = (Raise (KeyError column), h) ∧
  dataframe_labels_2_int dataframe column return_labelling h
  = (Raise (KeyError column), h ++ [df]).
Proof.
  intros Hdf Hcol.
  assert (Hget : ∀ h' l, h' !! l = Some df →
            getitem l column h' = (Raise (KeyError column), h')).
  { intros h' l Hl. eapply getitem_raise; [done|].
    unfold df_getitem. by rewrite Hcol. }
  split; [|split].
  - unfold get_dataframe_fold.
    erewrite bind_ok by (by apply copy_ok).
    erewrite bind_raise; [done|]. apply Hget, lookup_snoc_new.
  - unfold get_dataset_labeling. erewrite bind_raise; [done|]. by apply Hget.
  - unfold dataframe_labels_2_int.
    erewrite bind_ok by (by apply copy_ok).
    erewrite bind_raise; [done|].
    unfold get_dataset_labeling. erewrite bind_raise; [done|].
    apply Hget, lookup_snoc_new.
Qed.

Lemma missing_column_errors_witness :
  get_dataframe_fold 0%nat "fold" 1 [fold_frame]
  = (Raise (KeyError "fold"), [fold_frame; fold_frame]) ∧
  get_dataset_labeling 0%nat "fold" [fold_frame]
  = (Raise (KeyError "fold"), [fold_frame]) ∧
  dataframe_labels_2_int 0%nat "fold" true [fold_frame]
  = (Raise (KeyError "fold"), [fold_frame; fold_frame]).
Proof.
  apply (missing_column_errors [fold_frame] 0%nat fold_frame "fold" 1 true);
    reflexivity.
Defined.

(** *** Labels that are not strings *)

Global Instance CInt_inj : Inj (=) (=) CInt.
Proof. by intros a b [= ->]. Qed.

Lemma unique_image {A} (f : A → cell) `{!Inj (=) (=) f} (l : list A) :
  ∃ us, unique (f <$> l) = f <$> us ∧ NoDup us ∧ ∀ x, x ∈ us ↔ x ∈ l.
Proof.
  assert (Hall : Forall (λ c, ∃ x, c = f x) (unique (f <$> l))).
  { apply Forall_forall. intros c [x [-> _]]%elem_of_unique%list_elem_of_fmap. eauto. }
  assert (∃ us, unique (f <$> l) = f <$> us) as [us Hus].
  { induction Hall as [|c k [x ->] _ [us ->]]; [by exists []|by exists (x :: us)]. }
  exists us. split; [done|]. split.
  - apply (NoDup_fmap f). rewrite <- Hus. apply NoDup_unique.
  - intros x. rewrite <- (list_elem_of_fmap_inj f), <- Hus, elem_of_unique.
    apply (list_elem_of_fmap_inj f).
Qed.

Lemma sorted_ints (us : list Z) :
  sorted (CInt <$> us) = Ok (CInt <$> merge_sort Z.le us).
Proof.
  unfold sorted. destruct us as [|u us]; [done|].
  rewrite (mapM_None_2 as_str) by (by left).
  by rewrite (mapM_fmap_Some as_int CInt).
Qed.

Lemma int_names_spec (values : list Z) :
  sorted (unique (CInt <$> values)) = Ok (CInt <$> int_names values) ∧
  Sorted Z.le (int_names values) ∧ NoDup (int_names values) ∧
  ∀ z, z ∈ int_names values ↔ z ∈ values.
Proof.
  unfold int_names.
  destruct (unique_image CInt values) as (us & Hus & Hnd & Hin). rewrite Hus.
  assert (omap as_int (CInt <$> us) = us) as ->.
  { clear. induction us as [|u us IH]; [done|].
    change (omap as_int (CInt <$> u :: us))
      with (u :: omap as_int (CInt <$> us)). by rewrite IH. }
  split; [apply sorted_ints|].
  split; [apply Sorted_merge_sort, _|].
  split; [by rewrite merge_sort_Permutation|].
  intros z. by rewrite merge_sort_Permutation.
Qed.

(** The dictionary of a list of class names whose [str] are distinct. *)
Lemma dict_of_labels_lookup_cells (names : list cell) (s : string) (i : Z) :
  NoDup (py_str <$> names) →
  dict_of_labels (enumerate names) !! s = Some i
  ↔ ∃ k : nat, i = Z.of_nat k ∧ py_str <$> names !! k = Some s.
Proof.
  revert s i. induction names as [|x names IH] using rev_ind; intros s i Hnd.
  { unfold dict_of_labels, enumerate. simpl. rewrite lookup_empty.
    split; [done|]. by intros (k & _ & ?). }
  rewrite fmap_app in Hnd. apply NoDup_app in Hnd as (Hnd & Hx & _).
  rewrite enumerate_snoc, dict_of_labels_snoc. cbn [fst snd].
  rewrite lookup_insert. case_decide as Hs.
  - subst s. split.
    + intros [= <-]. exists (length names). split; [done|].
      by rewrite lookup_app_r, Nat.sub_diag by lia.
    + intros (k & -> & Hk). f_equal. f_equal.
      destruct (decide (k < length names)%nat) as [Hlt|Hge].
      * rewrite lookup_app_l in Hk by done.
        destruct (names !! k) as [y|] eqn:Hy; [|done]. simpl in Hk.
        destruct (Hx (py_str y)).
        -- apply list_elem_of_fmap. exists y. split; [done|].
           by eapply list_elem_of_lookup_2.
        -- injection Hk as ->. left.
      * destruct ((names ++ [x]) !! k) eqn:Hy; [|done].
        apply lookup_lt_Some in Hy. rewrite length_app in Hy. simpl in Hy. lia.
  - rewrite IH by done. split.
    + intros (k & -> & Hk). exists k. split; [done|].
      destruct (names !! k) as [y|] eqn:Hy; [|done].
      by rewrite (lookup_app_l_Some _ _ _ _ Hy).
    + intros (k & -> & Hk). exists k. split; [done|].
      destruct (decide (k < length names)%nat) as [Hlt|Hge].
      * by rewrite lookup_app_l in Hk.
      * rewrite lookup_app_r in Hk by lia.
        destruct ([x] !! (k - length names)%nat) as [y|] eqn:Hy; [|done].
        apply list_lookup_singleton_Some in Hy as [_ <-].
        simpl in Hk. congruence.
Qed.

(** Integer labels are numbered in numeric order, and keyed by their
    decimal writing: the k-th smallest distinct value [z] gets [k] under the
    key [str(z)]; 10 comes after 2, although "10" sorts before "2". *)
Theorem get_dataset_labeling_int_order
    (h : heap) (dataframe : loc) (df : DataFrame) (label_column : string)
    (j : fin (df_width df)) (values : list Z) :
  h !! dataframe = Some df →
  col_pos label_column (df_columns df) = Some j →
  column_cells df j (CInt <$> values) →
  ∃ (m : gmap string Z) (names : list Z),
    get_dataset_labeling dataframe label_column h = (Ok m, h) ∧
    Sorted Z.le names ∧ NoDup names ∧ (∀ z, z ∈ names ↔ z ∈ values) ∧
    (∀ s i, m !! s = Some i
            ↔ ∃ (k : nat) (z : Z),
                i = Z.of_nat k ∧ names !! k = Some z ∧ s = pretty z).
Proof.
  intros Hdf Hcol Hints.
  destruct (int_names_spec values) as (Hsorted & Hs & Hnd & Hin).
  exists (dict_of_labels (enumerate (CInt <$> int_names values))), (int_names values).
  split.
  { unfold get_dataset_labeling.
    erewrite bind_ok by (eapply getitem_ok; [done|by apply df_getitem_ok]).
    rewrite Hints. unfold lift at 1. unfold mbind, M_bind. by rewrite Hsorted. }
  split; [done|]. split; [done|]. split; [done|].
  intros s i. rewrite dict_of_labels_lookup_cells.
  - split.
    + intros (k & -> & Hk). rewrite list_lookup_fmap in Hk.
      destruct (int_names values !! k) as [z|] eqn:Hz; [|done].
      injection Hk as <-. by exists k, z.
    + intros (k & z & -> & Hz & ->). exists k. split; [done|].
      by rewrite list_lookup_fmap, Hz.
  - rewrite <- list_fmap_compose. apply NoDup_fmap_2; [|done].
    intros a b Hab. simpl in Hab. by apply (inj pretty) in Hab.
Qed.

Lemma get_dataset_labeling_int_order_witness :
  ∃ (m : gmap string Z) (names : list Z),
    get_dataset_labeling 0%nat "target" [int_label_frame]
    = (Ok m, [int_label_frame]) ∧
    Sorted Z.le names ∧ NoDup names ∧ (∀ z, z ∈ names ↔ z ∈ [10; 2; 10]) ∧
    (∀ s i, m !! s = Some i
            ↔ ∃ (k : nat) (z : Z),
                i = Z.of_nat k ∧ names !! k = Some z ∧ s = pretty z).
Proof.
  apply (get_dataset_labeling_int_order [int_label_frame] 0%nat int_label_frame
           "target" 0%fin [10; 2; 10]); reflexivity.
Defined.

(** A column that holds a string and an integer cannot be sorted:
    [get_dataset_labeling] raises [TypeError], the store is as before. *)
Theorem get_dataset_labeling_mixed
    (h : heap) (dataframe : loc) (df : DataFrame) (label_column : string)
    (j : fin (df_width df)) (cells : list cell) (s : string) (z : Z) :
  h !! dataframe = Some df →
  col_pos label_column (df_columns df) = Some j →
  column_cells df j cells →
  CStr s ∈ cells → CInt z ∈ cells →
  get_dataset_labeling dataframe label_column h = (Raise TypeError, h).
Proof.
  intros Hdf Hcol Hcells Hs Hz. unfold get_dataset_labeling.
  erewrite bind_ok by (eapply getitem_ok; [done|by apply df_getitem_ok]).
  rewrite Hcells. unfold lift at 1. unfold mbind, M_bind, sorted.
  rewrite (mapM_None_2 as_str), (mapM_None_2 as_int); [done| |].
  - apply Exists_exists. exists (CStr s). by rewrite elem_of_unique.
  - apply Exists_exists. exists (CInt z). by rewrite elem_of_unique.
Qed.

Lemma get_dataset_labeling_mixed_witness :
  get_dataset_labeling 0%nat "target" [mixed_frame] = (Raise TypeError, [mixed_frame]).
Proof.
  apply (get_dataset_labeling_mixed [mixed_frame] 0%nat mixed_frame "target"
           0%fin [CStr "cat"; CInt 3] "cat" 3);
    [reflexivity|reflexivity|reflexivity|left|right; left].
Defined.

(** *** Encoding, decoding, encoding again *)

Lemma series_apply_cells (m : gmap string Z) (cells : list cell) :
  (∀ x, x ∈ cells → is_Some (m !! py_str x)) →
  series_apply (λ x, rbind (dict_getitem m (py_str x)) (λ v, Ok (CInt v))) cells
  = Ok ((λ x, CInt (m !!! py_str x)) <$> cells).
Proof.
  induction cells as [|x cells IH]; intros Hm; [done|].
  rewrite fmap_cons. cbn [series_apply]. unfold dict_getitem at 1.
  destruct (Hm x) as [i Hi]; [left|].
  rewrite Hi. cbn [rbind]. rewrite IH.
  - cbn [rbind]. by rewrite (lookup_total_correct _ _ _ Hi).
  - intros x' Hx'. apply Hm. by right.
Qed.

(** The whole effect of [dataframe_labels_2_int] on the store, for a
    column that can be sorted and whose values all have a number. *)
Lemma dataframe_labels_2_int_run
    (h : heap) (dataframe : loc) (df : DataFrame) (label_column : string)
    (j : fin (df_width df)) (cells names : list cell) (return_labelling : bool) :
  h !! dataframe = Some df →
  col_pos label_column (df_columns df) = Some j →
  column_cells df j cells →
  sorted (unique cells) = Ok names →
  let m := dict_of_labels (enumerate names) in
  (∀ x, x ∈ cells → is_Some (m !! py_str x)) →
  dataframe_labels_2_int dataframe label_column return_labelling h
  = (Ok (length h, if return_labelling then Some m else None),
     h ++ [relabelled df j m cells]).
Proof.
  intros Hdf Hcol Hcells Hsorted m Hm.
  assert (Hlab : ∀ h' l, h' !! l = Some df →
            get_dataset_labeling l label_column h' = (Ok m, h')).
  { intros h' l Hl. unfold get_dataset_labeling.
    erewrite bind_ok by (eapply getitem_ok; [done|by apply df_getitem_ok]).
    rewrite Hcells. unfold lift at 1. unfold mbind, M_bind. by rewrite Hsorted. }
  unfold dataframe_labels_2_int.
  erewrite bind_ok by (by apply copy_ok).
  erewrite bind_ok by (apply Hlab, lookup_snoc_new).
  erewrite bind_ok
    by (eapply getitem_ok; [apply lookup_snoc_new|by apply df_getitem_ok]).
  rewrite Hcells.
  erewrite bind_ok; [|unfold lift; by rewrite (series_apply_cells m cells Hm)].
  erewrite bind_ok; last first.
  { eapply setitem_ok; [apply lookup_snoc_new|].
    unfold df_setitem. rewrite Hcol. reflexivity. }
  rewrite zip_with_fmap_r.
  replace (<[length h:=_]> (h ++ [df])) with (h ++ [relabelled df j m cells]).
  - by destruct return_labelling.
  - rewrite insert_app_r_alt, Nat.sub_diag by lia. done.
Qed.

Lemma relabelled_strings (df : DataFrame) (j : fin (df_width df))
    (m : gmap string Z) (labels : list string) :
  relabelled df j m (CStr <$> labels) = encoded df j m labels.
Proof. unfold relabelled, encoded. by rewrite zip_with_fmap_r. Qed.

Lemma class_names_labelling (labels : list string) (s : string) :
  s ∈ labels →
  ∃ i : nat,
    dict_of_labels (enumerate (CStr <$> class_names labels)) !! s
    = Some (Z.of_nat i) ∧
    class_names labels !! i = Some s.
Proof.
  intros Hs. destruct (class_names_spec labels) as (_ & _ & Hnd & Hin).
  apply Hin, list_elem_of_lookup_1 in Hs as [i Hi]. exists i. split; [|done].
  apply dict_of_labels_lookup; [done|]. eauto.
Qed.

(** Encoding and decoding: in the frame that [dataframe_labels_2_int]
    returns, a row keeps its index label and its other cells, and its
    label cell holds the position of the row's label string in the sorted
    class names; reading the class names at that position gives the label
    back. The labelling returned with it is the one the cells were made
    with. *)
Theorem dataframe_labels_2_int_decode
    (h : heap) (dataframe : loc) (df : DataFrame) (label_column : string)
    (j : fin (df_width df)) (labels : list string) :
  h !! dataframe = Some df →
  col_pos label_column (df_columns df) = Some j →
  column_strings df j labels →
  ∃ (m : gmap string Z),
    dataframe_labels_2_int dataframe label_column true h
    = (Ok (length h, Some m), h ++ [encoded df j m labels]) ∧
    length (df_rows (encoded df j m labels)) = length (df_rows df) ∧
    ∀ (k : nat) (idx : Z) (r : vec cell (df_width df)),
      df_rows df !! k = Some (idx, r) →
      ∃ (i : nat) (s : string),
        r !!! j = CStr s ∧
        m !! s = Some (Z.of_nat i) ∧
        class_names labels !! i = Some s ∧
        df_rows (encoded df j m labels) !! k
        = Some (idx, vinsert j (CInt (Z.of_nat i)) r).
Proof.
  intros Hdf Hcol Hstr.
  destruct (class_names_spec labels) as (Hsorted & _ & Hnd & Hin).
  set (m := dict_of_labels (enumerate (CStr <$> class_names labels))).
  assert (Hlen : length (df_rows df) = length labels).
  { unfold column_strings in Hstr. apply (f_equal length) in Hstr.
    by rewrite !length_fmap in Hstr. }
  exists m. split; [|split].
  - rewrite <- relabelled_strings.
    apply (dataframe_labels_2_int_run h dataframe df label_column j
             (CStr <$> labels) (CStr <$> class_names labels) true); try done.
    intros x [s [-> Hs]]%list_elem_of_fmap.
    destruct (class_names_labelling labels s Hs) as (i & Hi & _). by eexists.
  - unfold encoded; cbn [df_rows]. rewrite length_zip_with. lia.
  - intros k idx r Hk.
    assert (Hs : ∃ s, labels !! k = Some s ∧ r !!! j = CStr s).
    { unfold column_strings in Hstr.
      apply (f_equal (λ l, l !! k)) in Hstr.
      rewrite !list_lookup_fmap, Hk in Hstr. simpl in Hstr.
      destruct (labels !! k) as [s|]; [|done]. exists s. split; [done|].
      by injection Hstr. }
    destruct Hs as (s & Hls & Hrs).
    destruct (class_names_labelling labels s) as (i & Hi & Hn).
    { by eapply list_elem_of_lookup_2. }
    exists i, s. split; [done|]. split; [done|]. split; [done|].
    unfold encoded; cbn [df_rows]. rewrite lookup_zip_with, Hk, Hls. simpl.
    fold m. by rewrite (lookup_total_correct _ _ _ Hi).
Qed.

Lemma dataframe_labels_2_int_decode_witness :
  ∃ (m : gmap string Z),
    dataframe_labels_2_int 0%nat "target" true [fold_frame]
    = (Ok (1%nat, Some m),
       [fold_frame; encoded fold_frame 1%fin m ["dog"; "cat"; "dog"; "ant"]]) ∧
    length (df_rows (encoded fold_frame 1%fin m ["dog"; "cat"; "dog"; "ant"]))
    = length (df_rows fold_frame) ∧
    ∀ (k : nat) (idx : Z) (r : vec cell 3),
      df_rows fold_frame !! k = Some (idx, r) →
      ∃ (i : nat) (s : string),
        r !!! 1%fin = CStr s ∧
        m !! s = Some (Z.of_nat i) ∧
        class_names ["dog"; "cat"; "dog"; "ant"] !! i = Some s ∧
        df_rows (encoded fold_frame 1%fin m ["dog"; "cat"; "dog"; "ant"]) !! k
        = Some (idx, vinsert 1%fin (CInt (Z.of_nat i)) r).
Proof.
  apply (dataframe_labels_2_int_decode [fold_frame] 0%nat fold_frame "target"
           1%fin ["dog"; "cat"; "dog"; "ant"]); reflexivity.
Defined.

Lemma Sorted_seqZ (m n : Z) : Sorted Z.le (seqZ m n).
Proof.
  assert (H : ∀ (k : nat) m, Sorted Z.le (seqZ m (Z.of_nat k))).
  { induction k as [|k IH]; intros a; [constructor|].
    rewrite seqZ_cons by lia.
    replace (Z.pred (Z.of_nat (S k))) with (Z.of_nat k) by lia.
    constructor; [apply IH|].
    destruct k as [|k]; [constructor|].
    rewrite seqZ_cons by lia. constructor. lia. }
  destruct (decide (0 ≤ n)) as [Hn|Hn].
  - rewrite <- (Z2Nat.id n) by done. apply H.
  - rewrite seqZ_nil by lia. constructor.
Qed.

Lemma int_names_range (ids : list Z) (n : nat) :
  (∀ i, i ∈ ids ↔ 0 ≤ i < Z.of_nat n) → int_names ids = seqZ 0 (Z.of_nat n).
Proof.
  intros Hids. destruct (int_names_spec ids) as (_ & Hs & Hnd & Hin).
  apply (Sorted_unique Z.le); [done|apply Sorted_seqZ|].
  apply NoDup_Permutation; [done|apply NoDup_seqZ|].
  intros i. rewrite Hin, Hids, elem_of_seqZ. lia.
Qed.

(** Encoding again changes nothing: [dataframe_labels_2_int] applied to
    the frame it returned gives a frame with the same rows, and a
    labelling that sends the decimal writing of each class number to that
    number. *)
Theorem dataframe_labels_2_int_twice
    (h : heap) (dataframe : loc) (df : DataFrame) (label_column : string)
    (j : fin (df_width df)) (labels : list string) :
  h !! dataframe = Some df →
  col_pos label_column (df_columns df) = Some j →
  column_strings df j labels →
  ∃ (m m2 : gmap string Z) (e : DataFrame),
    dataframe_labels_2_int dataframe label_column true h
    = (Ok (length h, Some m), h ++ [e]) ∧
    dataframe_labels_2_int (length h) label_column true (h ++ [e])
    = (Ok (S (length h), Some m2), h ++ [e; e]) ∧
    ∀ s i, m !! s = Some i → m2 !! pretty i = Some i.
Proof.
  intros Hdf Hcol Hstr.
  destruct (class_names_spec labels) as (Hsorted & _ & Hnd & Hin).
  set (m := dict_of_labels (enumerate (CStr <$> class_names labels))).
  set (n := length (class_names labels)).
  set (ids := (λ s, m !!! s) <$> labels).
  set (m2 := dict_of_labels (enumerate (CInt <$> seqZ 0 (Z.of_nat n)))).
  assert (Hlen : length (df_rows df) = length labels).
  { unfold column_strings in Hstr. apply (f_equal length) in Hstr.
    by rewrite !length_fmap in Hstr. }
  assert (Hm : ∀ s i, m !! s = Some i
                      ↔ ∃ k : nat, i = Z.of_nat k ∧ class_names labels !! k = Some s).
  { intros s i. by apply dict_of_labels_lookup. }
  assert (Hm2 : ∀ i, 0 ≤ i < Z.of_nat n → m2 !! pretty i = Some i).
  { intros i Hi. apply dict_of_labels_lookup_cells.
    - rewrite <- list_fmap_compose. apply NoDup_fmap_2; [|apply NoDup_seqZ].
      intros a b Hab. simpl in Hab. by apply (inj pretty) in Hab.
    - exists (Z.to_nat i). split; [lia|].
      rewrite !list_lookup_fmap, lookup_seqZ_lt by lia. simpl.
      do 2 f_equal. lia. }
  assert (Hids : ∀ i, i ∈ ids ↔ 0 ≤ i < Z.of_nat n).
  { intros i. unfold ids. rewrite list_elem_of_fmap. split.
    - intros (s & -> & Hs).
      destruct (class_names_labelling labels s Hs) as (k & Hk & Hnk).
      fold m in Hk. rewrite (lookup_total_correct _ _ _ Hk).
      apply lookup_lt_Some in Hnk. unfold n. lia.
    - intros Hi. destruct (lookup_lt_is_Some_2 (class_names labels) (Z.to_nat i))
        as [s Hs]; [unfold n in Hi; lia|].
      exists s. split.
      + assert (m !! s = Some i) as Hmi by (apply Hm; exists (Z.to_nat i); split; [lia|done]).
        by rewrite (lookup_total_correct _ _ _ Hmi).
      + apply Hin. by eapply list_elem_of_lookup_2. }
  set (e := encoded df j m labels).
  assert (Hcells : column_cells e j (CInt <$> ids)).
  { unfold column_cells, e, encoded, ids; cbn [df_rows df_width].
    apply list_eq. intros k.
    rewrite <- list_fmap_compose, !list_lookup_fmap, lookup_zip_with.
    destruct (df_rows df !! k) as [r|] eqn:Hr; simpl.
    - destruct (labels !! k) as [s|] eqn:Hs; simpl.
      + by rewrite vlookup_insert.
      + apply lookup_ge_None in Hs. apply lookup_lt_Some in Hr. lia.
    - destruct (labels !! k) as [s|] eqn:Hs; [|done].
      apply lookup_ge_None in Hr. apply lookup_lt_Some in Hs. lia. }
  exists m, m2, e. split; [|split].
  - unfold e. rewrite <- relabelled_strings.
    apply (dataframe_labels_2_int_run h dataframe df label_column j
             (CStr <$> labels) (CStr <$> class_names labels) true); try done.
    intros x [s [-> Hs]]%list_elem_of_fmap.
    destruct (class_names_labelling labels s Hs) as (i & Hi & _). by eexists.
  - assert (Hrun := dataframe_labels_2_int_run (h ++ [e]) (length h) e
                      label_column j (CInt <$> ids)
                      (CInt <$> seqZ 0 (Z.of_nat n)) true).
    rewrite Hrun; clear Hrun.
    + rewrite length_app. simpl. rewrite Nat.add_1_r.
      rewrite <- app_assoc. simpl. do 4 f_equal.
      unfold relabelled, e, encoded; cbn [df_rows df_width df_columns].
      f_equal. fold m2. apply list_eq. intros k.
      rewrite !lookup_zip_with. unfold ids. rewrite !list_lookup_fmap.
      destruct (df_rows df !! k) as [r|] eqn:Hr; [|done]. simpl.
      destruct (labels !! k) as [s|] eqn:Hs; [|done]. simpl.
      assert (Hi : 0 ≤ m !!! s < Z.of_nat n).
      { apply Hids. unfold ids. apply list_elem_of_fmap. exists s. split; [done|].
        by eapply list_elem_of_lookup_2. }
      rewrite (lookup_total_correct _ _ _ (Hm2 _ Hi)).
      cbn [fst snd]. do 2 f_equal.
      set (v := vinsert j (CInt (m !!! s)) (snd r)).
      assert (CInt (m !!! s) = v !!! j) as -> by (symmetry; apply vlookup_insert).
      apply vlookup_insert_self.
    + apply lookup_snoc_new.
    + done.
    + done.
    + destruct (int_names_spec ids) as (-> & _). by rewrite (int_names_range ids n).
    + intros x [i [-> Hi]]%list_elem_of_fmap. exists i. apply Hm2. by apply Hids.
  - intros s i Hsi. apply Hm2. apply Hm in Hsi as (k & -> & Hk).
    apply lookup_lt_Some in Hk. unfold n. lia.
Qed.

Lemma dataframe_labels_2_int_twice_witness :
  ∃ (m m2 : gmap string Z) (e : DataFrame),
    dataframe_labels_2_int 0%nat "target" true [fold_frame]
    = (Ok (1%nat, Some m), [fold_frame; e]) ∧
    dataframe_labels_2_int 1%nat "target" true [fold_frame; e]
    = (Ok (2%nat, Some m2), [fold_frame; e; e]) ∧
    ∀ s i, m !! s = Some i → m2 !! pretty i = Some i.
Proof.
  apply (dataframe_labels_2_int_twice [fold_frame] 0%nat fold_frame "target"
           1%fin ["dog"; "cat"; "dog"; "ant"]); reflexivity.
Defined.

End pandas_more.

Section core_more.
Import CoreClasses.
Context {Optimizer Scheduler Params : Type}.
Variable optimizer_class : Optimizer → string.
Variable scheduler_class : Scheduler → string.
Variable OPTIM_REGISTRY : gmap string (Params → kwds → result Optimizer).
Variable SCHEDULER_REGISTRY :
  gmap string (option Optimizer → kwds → result Scheduler).

Local Abbreviation Task := (@Task Optimizer Scheduler Params).
Local Abbreviation build_lr_scheduler :=
  (@build_lr_scheduler Optimizer Scheduler Params scheduler_class
     SCHEDULER_REGISTRY).
Local Abbreviation build_optimizer :=
  (@build_optimizer Optimizer Scheduler Params optimizer_class OPTIM_REGISTRY).
Local Abbreviation setup_optimization :=
  (@setup_optimization Optimizer Scheduler Params optimizer_class
     scheduler_class OPTIM_REGISTRY SCHEDULER_REGISTRY).
Local Abbreviation configure_optimizers :=
  (@configure_optimizers Optimizer Scheduler Params optimizer_class
     scheduler_class OPTIM_REGISTRY SCHEDULER_REGISTRY).
Local Abbreviation process_optim_config :=
  (@process_optim_config Optimizer Scheduler Params).

(** *** The resolved configuration *)

Lemma fill_sentinel_run key value sched_config init_args (t : Task) :
  ∃ l, fill_sentinel key value sched_config init_args t
       = (Ok (fill key value sched_config init_args), add_log l t).
Proof.
  unfold fill_sentinel, fill. destruct (sched_config !! key) as [v|].
  - destruct (py_eq_int v (-1)).
    + unfold mbind, T_bind. rewrite log_main_process_spec. by eexists.
    + exists []. by rewrite add_log_nil.
  - exists []. by rewrite add_log_nil.
Qed.

Lemma lookup_fill key value (sched_config init_args : gmap string pyval) k :
  fill key value sched_config init_args !! k
  = match sched_config !! key with
    | Some v => if py_eq_int v (-1) && bool_decide (key = k)
                then Some (VInt value) else init_args !! k
    | None => init_args !! k
    end.
Proof.
  unfold fill. destruct (sched_config !! key) as [v|]; [|done].
  destruct (py_eq_int v (-1)); [|done]. simpl.
  rewrite lookup_insert. by case_decide; case_bool_decide.
Qed.

Lemma lookup_filled max_steps max_epochs steps (d : gmap string pyval) k :
  filled max_steps max_epochs steps d !! k
  = match d !! k with
    | Some v =>
        if py_eq_int v (-1) then
          match sentinel_value max_steps max_epochs steps k with
          | Some r => Some (VInt r)
          | None => Some v
          end
        else Some v
    | None => None
    end.
Proof.
  assert (Hfill : ∀ key value ia,
    fill key value d ia !! k
    = if decide (k = key)
      then match d !! k with
           | Some v => if py_eq_int v (-1) then Some (VInt value) else ia !! k
           | None => ia !! k
           end
      else ia !! k).
  { intros key value ia. rewrite lookup_fill.
    destruct (decide (k = key)) as [->|Hk].
    - destruct (d !! key) as [v|]; [|done].
      rewrite bool_decide_eq_true_2 by done. by rewrite andb_true_r.
    - destruct (d !! key) as [v|]; [|done].
      rewrite bool_decide_eq_false_2 by done. by rewrite andb_false_r. }
  unfold filled, sentinel_value. rewrite !Hfill. clear Hfill.
  destruct (decide (k = "max_iters")) as [->|?];
    [by destruct (d !! "max_iters") as [v|]; [destruct (py_eq_int v (-1))|]|].
  destruct (decide (k = "epochs")) as [->|?];
    [by destruct (d !! "epochs") as [v|]; [destruct (py_eq_int v (-1))|]|].
  destruct (decide (k = "steps_per_epoch")) as [->|?];
    [by destruct (d !! "steps_per_epoch") as [v|]; [destruct (py_eq_int v (-1))|]|].
  destruct (decide (k = "max_steps")) as [->|?];
    [by destruct (d !! "max_steps") as [v|]; [destruct (py_eq_int v (-1))|]|].
  by destruct (d !! k) as [v|]; [destruct (py_eq_int v (-1))|].
Qed.

Lemma num_training_steps_add_log l (t : Task) :
  num_training_steps (add_log l t) = num_training_steps t.
Proof. reflexivity. Qed.

Lemma process_optim_config_run (opt_conf : OptimConf) (t : Task)
    (ms st e : Z) (d : gmap string pyval) :
  num_training_steps t = Ok (StepsPair ms st) →
  st ≠ 0 →
  max_epochs (_trainer t) = Some e →
  sch_init_args (scheduler opt_conf) = Some d →
  ∃ l, process_optim_config opt_conf t
       = (Ok (resolved opt_conf ms e st (filled ms e st d)), add_log l t).
Proof.
  intros Hn Hst He Hd.
  unfold CoreClasses.process_optim_config, mbind, T_bind, self, of_result, throw,
    mret, T_ret.
  rewrite bool_decide_eq_false_2 by (rewrite He; intros [? _]; done).
  rewrite Hn, He, Hd. cbn [ifnone default from_option id].
  destruct (Z.eqb_spec st 0) as [|_]; [done|].
  destruct (fill_sentinel_run "max_iters" ms d d t) as (l1 & ->).
  destruct (fill_sentinel_run "epochs" e d (fill "max_iters" ms d d) (add_log l1 t))
    as (l2 & ->).
  destruct (fill_sentinel_run "steps_per_epoch" st d
              (fill "epochs" e d (fill "max_iters" ms d d))
              (add_log l2 (add_log l1 t))) as (l3 & ->).
  destruct (fill_sentinel_run "max_steps" ms d
              (fill "steps_per_epoch" st d
                 (fill "epochs" e d (fill "max_iters" ms d d)))
              (add_log l3 (add_log l2 (add_log l1 t)))) as (l4 & ->).
  rewrite !add_log_add_log. by eexists.
Qed.

Lemma process_optim_config_inv (opt_conf opt_conf' : OptimConf) (t t1 : Task) :
  process_optim_config opt_conf t = (Ok opt_conf', t1) →
  ∃ ms st e d,
    num_training_steps t = Ok (StepsPair ms st) ∧ st ≠ 0 ∧
    max_epochs (_trainer t) = Some e ∧
    sch_init_args (scheduler opt_conf) = Some d.
Proof.
  intros H.
  destruct (max_epochs (_trainer t)) as [e|] eqn:He; last first.
  { destruct (process_optim_config_no_epochs opt_conf t He) as [x Hx]. congruence. }
  revert H.
  unfold CoreClasses.process_optim_config, mbind, T_bind, self, of_result, throw,
    mret, T_ret.
  case_bool_decide; [done|].
  destruct (num_training_steps t) as [[n|ms st]|x]; try done.
  destruct (Z.eqb_spec st 0); [done|].
  destruct (sch_init_args (scheduler opt_conf)) as [d|]; [|done].
  intros _. by exists ms, st, e, d.
Qed.

(** Whatever [process_optim_config] does, the task it leaves differs from
    the one it found in the log only; when it raises, not even there. *)
Lemma process_optim_config_state (opt_conf : OptimConf) (t : Task) :
  (∃ l, snd (process_optim_config opt_conf t) = add_log l t) ∧
  (∀ e, fst (process_optim_config opt_conf t) = Raise e →
        snd (process_optim_config opt_conf t) = t).
Proof.
  destruct (process_optim_config opt_conf t) as [[c|e] t1] eqn:H.
  - destruct (process_optim_config_frame _ _ _ _ H) as ([l ->] & _).
    split; [by exists l|done].
  - revert H.
    unfold CoreClasses.process_optim_config, mbind, T_bind, self, of_result, throw,
      mret, T_ret.
    case_bool_decide; [intros [= <- <-]; split; [exists []; by rewrite add_log_nil|done]|].
    destruct (num_training_steps t) as [[n|ms st]|x];
      [intros [= <- <-]; split; [exists []; by rewrite add_log_nil|done]| |
       intros [= <- <-]; split; [exists []; by rewrite add_log_nil|done]].
    destruct (Z.eqb st 0);
      [intros [= <- <-]; split; [exists []; by rewrite add_log_nil|done]|].
    destruct (sch_init_args (scheduler opt_conf)) as [d|];
      [|intros [= <- <-]; split; [exists []; by rewrite add_log_nil|done]].
    destruct (fill_sentinel_spec "max_iters" ms d d t) as (a1 & l1 & ->).
    destruct (fill_sentinel_spec "epochs"
                (ifnone (max_epochs (_trainer t)) (ms / st)) d a1 (add_log l1 t))
      as (a2 & l2 & ->).
    destruct (fill_sentinel_spec "steps_per_epoch" st d a2 (add_log l2 (add_log l1 t)))
      as (a3 & l3 & ->).
    destruct (fill_sentinel_spec "max_steps" ms d a3
                (add_log l3 (add_log l2 (add_log l1 t)))) as (a4 & l4 & ->).
    done.
Qed.

(** *** The resolved configuration *)

(** What [process_optim_config] resolves. If it returns a configuration
    then [num_training_steps] gave the pair of the estimated steps and a
    non-zero dataset size, and the trainer has [max_epochs]; in the
    configuration returned, each of [steps_per_epoch], [max_steps] and
    [max_epochs] is the configured number if that is at least 1 and
    otherwise the dataset size, the estimated steps and the trainer's
    [max_epochs]; the scheduler's arguments have the keys they had, and
    the only values that differ are those equal to [-1] at [max_iters],
    [epochs], [steps_per_epoch] and [max_steps], replaced by the estimated
    steps, the trainer's [max_epochs], the dataset size and the estimated
    steps. *)
Theorem process_optim_config_resolved
    (opt_conf opt_conf' : OptimConf) (t t1 : Task) :
  process_optim_config opt_conf t = (Ok opt_conf', t1) →
  ∃ (ms st e : Z) (d a : gmap string pyval),
    num_training_steps t = Ok (StepsPair ms st) ∧ st ≠ 0 ∧
    max_epochs (_trainer t) = Some e ∧
    sch_init_args (scheduler opt_conf) = Some d ∧
    conf_steps_per_epoch opt_conf'
    = (if conf_steps_per_epoch opt_conf <? 1 then st
       else conf_steps_per_epoch opt_conf) ∧
    conf_max_steps opt_conf'
    = (if conf_max_steps opt_conf <? 1 then ms else conf_max_steps opt_conf) ∧
    conf_max_epochs opt_conf'
    = (if conf_max_epochs opt_conf <? 1 then e else conf_max_epochs opt_conf) ∧
    sch_init_args (scheduler opt_conf') = Some a ∧
    ∀ k, a !! k
         = match d !! k with
           | Some v =>
               if py_eq_int v (-1) then
                 match sentinel_value ms e st k with
                 | Some r => Some (VInt r)
                 | None => Some v
                 end
               else Some v
           | None => None
           end.
Proof.
  intros H.
  destruct (process_optim_config_inv _ _ _ _ H) as (ms & st & e & d & Hn & Hst & He & Hd).
  destruct (process_optim_config_run opt_conf t ms st e d Hn Hst He Hd) as [l Hrun].
  rewrite Hrun in H. injection H as <- <-.
  exists ms, st, e, d, (filled ms e st d).
  repeat (split; [done|]). intros k. apply lookup_filled.
Qed.

Lemma filled_filled (ms e st : Z) (d : gmap string pyval) :
  filled ms e st (filled ms e st d) = filled ms e st d.
Proof.
  apply map_eq. intros k. rewrite (lookup_filled ms e st (filled ms e st d)).
  rewrite lookup_filled.
  destruct (d !! k) as [v|]; [|done].
  destruct (py_eq_int v (-1)) eqn:Hv; [|by rewrite Hv].
  destruct (sentinel_value ms e st k) as [r|] eqn:Hs; [|by rewrite Hv].
  by destruct (py_eq_int (VInt r) (-1)).
Qed.

Lemma resolved_resolved (opt_conf : OptimConf) (ms e st : Z)
    (a b : gmap string pyval) :
  resolved (resolved opt_conf ms e st a) ms e st b = resolved opt_conf ms e st b.
Proof.
  unfold resolved; cbn.
  f_equal;
    match goal with
    | |- context [?x <? 1] => destruct (Z.ltb_spec x 1) as [H|H]
    end;
    try done;
    match goal with
    | |- context [?x <? 1] => by destruct (Z.ltb_spec x 1); [|lia]
    end.
Qed.

(** Resolving is idempotent: [process_optim_config] applied to a
    configuration that it returned returns that configuration. *)
Theorem process_optim_config_idempotent
    (opt_conf opt_conf' : OptimConf) (t t1 : Task) :
  process_optim_config opt_conf t = (Ok opt_conf', t1) →
  fst (process_optim_config opt_conf' t1) = Ok opt_conf'.
Proof.
  intros H.
  destruct (process_optim_config_inv _ _ _ _ H) as (ms & st & e & d & Hn & Hst & He & Hd).
  destruct (process_optim_config_run opt_conf t ms st e d Hn Hst He Hd) as [l Hrun].
  rewrite Hrun in H. injection H as <- <-.
  destruct (process_optim_config_run (resolved opt_conf ms e st (filled ms e st d))
              (add_log l t) ms st e (filled ms e st d)) as [l' ->]; try done.
  cbn [fst]. by rewrite resolved_resolved, filled_filled.
Qed.

(** *** A cap below the estimate *)

(** A [max_steps] of the trainer that is set, not zero, and below the
    estimated number of steps: [num_training_steps] returns that number
    alone, not a pair, and [process_optim_config] raises [TypeError] at
    the unpacking; the task is as it was. *)
Theorem process_optim_config_capped
    (opt_conf : OptimConf) (t : Task) (cap ms st : Z) :
  max_steps (_trainer t) = Some cap →
  cap ≠ 0 →
  num_training_steps (with_trainer (with_max_steps None (_trainer t)) t)
  = Ok (StepsPair ms st) →
  cap < ms →
  num_training_steps t = Ok (Steps cap) ∧
  process_optim_config opt_conf t = (Raise TypeError, t).
Proof.
  intros Hcap Hnz Hn Hlt.
  assert (Hs : num_training_steps t = Ok (Steps cap)).
  { revert Hn. unfold num_training_steps, len_train_dl.
    cbn [_trainer _train_dl with_trainer with_max_steps limit_train_batches
         num_gpus num_processes tpu_cores accumulate_grad_batches
         CoreClasses.max_epochs CoreClasses.max_steps].
    rewrite Hcap.
    repeat match goal with
           | |- rbind ?r _ = _ → _ => destruct r; cbn [rbind]; [|done]
           | |- (if ?b then _ else _) = _ → _ => destruct b; [done|]
           end.
    destruct (CoreClasses.max_epochs (_trainer t)) as [e|]; [|done].
    intros [= <- <-].
    destruct (Z.eqb_spec cap 0) as [|_]; [done|].
    by destruct (Z.ltb_spec cap (a / (accumulate_grad_batches (_trainer t) * a0) * e));
      [|lia]. }
  split; [done|].
  unfold CoreClasses.process_optim_config, mbind, T_bind, self, of_result, throw.
  rewrite bool_decide_eq_false_2 by (rewrite Hcap; intros [_ ?]; done).
  by rewrite Hs.
Qed.

(** *** What the set-up stores *)

Lemma build_optimizer_state (opt_conf : OptimConf) (params : Params) (t : Task) :
  ∃ l, snd (build_optimizer opt_conf params t) = add_log l t.
Proof.
  unfold CoreClasses.build_optimizer, mbind, T_bind, of_result, throw, mret, T_ret.
  destruct (opt_name (optimizer opt_conf)) as [name|].
  - destruct (registry_get OPTIM_REGISTRY name) as [instance|e];
      [|exists []; by rewrite add_log_nil].
    destruct (opt_init_args (optimizer opt_conf)) as [a|];
      [|exists []; by rewrite add_log_nil].
    destruct (instance params a) as [opt|e]; [|exists []; by rewrite add_log_nil].
    rewrite log_main_process_spec. by eexists.
  - rewrite log_main_process_spec. by eexists.
Qed.

Lemma build_lr_scheduler_state (opt_conf : OptimConf) (o : option Optimizer)
    (t : Task) :
  ∃ l, snd (build_lr_scheduler opt_conf o t) = add_log l t.
Proof.
  unfold CoreClasses.build_lr_scheduler, mbind, T_bind, self, of_result, throw,
    mret, T_ret.
  destruct (hypers_lr t) as [lr|]; [|exists []; by rewrite add_log_nil].
  destruct (sch_name (scheduler opt_conf)) as [name|].
  - destruct (sch_init_args (scheduler opt_conf)) as [d|];
      [|exists []; by rewrite add_log_nil].
    destruct (registry_get SCHEDULER_REGISTRY name) as [instance|e];
      [|exists []; by rewrite add_log_nil].
    destruct (instance o _) as [sch|e]; [|exists []; by rewrite add_log_nil].
    rewrite log_main_process_spec. by eexists.
  - rewrite log_main_process_spec. by eexists.
Qed.

(** After [setup_optimization] neither attribute is [noop] any more; when
    it raises, the scheduler attribute is the one it found. *)
Lemma setup_optimization_attrs (conf : option OptimConf) (t t' : Task)
    (r : result unit) :
  setup_optimization conf t = (r, t') →
  match r with
  | Ok _ => is_noop (_optimizer t') = false ∧ is_noop (_scheduler t') = false
  | Raise _ => _scheduler t' = _scheduler t
  end.
Proof.
  unfold CoreClasses.setup_optimization.
  erewrite T_bind_ok by reflexivity.
  destruct (match conf with Some c => Some c | None => cfg_optimization t end)
    as [opt_conf|].
  - destruct (process_optim_config opt_conf t) as [[c|e] t1] eqn:Hp.
    2: { erewrite T_bind_raise by exact Hp. intros [= <- <-].
         destruct (process_optim_config_state opt_conf t) as [[l Hl] _].
         rewrite Hp in Hl. cbn [snd] in Hl. by rewrite Hl. }
    erewrite T_bind_ok by exact Hp.
    erewrite T_bind_ok by reflexivity.
    destruct (process_optim_config_state opt_conf t) as [[l1 Hl1] _].
    rewrite Hp in Hl1. cbn [snd] in Hl1. subst t1.
    destruct (build_optimizer c (param_dicts (add_log l1 t)) (add_log l1 t))
      as [[o|e] t2] eqn:Ho.
    2: { erewrite T_bind_raise by exact Ho. intros [= <- <-].
         destruct (build_optimizer_state c (param_dicts (add_log l1 t)) (add_log l1 t))
           as [l Hl].
         rewrite Ho in Hl. cbn [snd] in Hl. by rewrite Hl. }
    erewrite T_bind_ok by exact Ho.
    destruct (build_optimizer_state c (param_dicts (add_log l1 t)) (add_log l1 t))
      as [l2 Hl2].
    rewrite Ho in Hl2. cbn [snd] in Hl2. subst t2.
    erewrite T_bind_ok by reflexivity.
    match goal with
    | |- (build_lr_scheduler c o ≫= _) ?t3 = _ → _ =>
        destruct (build_lr_scheduler c o t3) as [[s|e] t4] eqn:Hs;
        destruct (build_lr_scheduler_state c o t3) as [l3 Hl3];
        rewrite Hs in Hl3; cbn [snd] in Hl3; subst t4
    end.
    + erewrite T_bind_ok by exact Hs. intros [= <- <-].
      split; [by destruct o|by destruct s].
    + erewrite T_bind_raise by exact Hs. by intros [= <- <-].
  - erewrite T_bind_ok by apply log_main_process_spec.
    erewrite T_bind_ok by reflexivity. by intros [= <- <-].
Qed.

(** [configure_optimizers] sets the optimisation up once: called again
    after it returned, it returns the same and leaves the task as it
    is; no optimiser or scheduler is constructed a second time. *)
Theorem configure_optimizers_once (t t' : Task) (r : configured) :
  configure_optimizers t = (Ok r, t') →
  configure_optimizers t' = (Ok r, t').
Proof.
  unfold CoreClasses.configure_optimizers.
  erewrite T_bind_ok by reflexivity.
  assert (Hskip : ∀ t0 : Task,
    is_noop (_optimizer t0) && is_noop (_scheduler t0) = false →
    (self ≫= λ t1 : Task,
       (if is_noop (_optimizer t1) && is_noop (_scheduler t1)
        then setup_optimization None else mret ());;
       self ≫= λ t2 : Task,
         match _scheduler t2 with
         | PyNone => mret (JustOptimizer (_optimizer t2))
         | s => mret (WithScheduler [_optimizer t2] [s])
         end) t0
    = (Ok (match _scheduler t0 with
           | PyNone => JustOptimizer (_optimizer t0)
           | s => WithScheduler [_optimizer t0] [s]
           end), t0)).
  { intros t0 H0. erewrite T_bind_ok by reflexivity. rewrite H0.
    erewrite T_bind_ok by reflexivity. erewrite T_bind_ok by reflexivity.
    by destruct (_scheduler t0). }
  destruct (is_noop (_optimizer t) && is_noop (_scheduler t)) eqn:Hb.
  - destruct (setup_optimization None t) as [[[]|e] t0] eqn:Hs.
    + erewrite T_bind_ok by exact Hs. erewrite T_bind_ok by reflexivity.
      apply setup_optimization_attrs in Hs as [Ho Hsch].
      intros H. assert (t' = t0) as -> by (by destruct (_scheduler t0); injection H).
      rewrite Hskip by (by rewrite Ho). rewrite <- H. by destruct (_scheduler t0).
    + by erewrite T_bind_raise by exact Hs.
  - erewrite T_bind_ok by reflexivity. erewrite T_bind_ok by reflexivity.
    intros H. assert (t' = t) as -> by (by destruct (_scheduler t); injection H).
    rewrite Hskip by done. rewrite <- H. by destruct (_scheduler t).
Qed.

(** A set-up that failed after the optimiser was stored is not tried
    again: the next [configure_optimizers] raises nothing and returns the
    optimiser with [noop] in the place of the scheduler. *)
Theorem configure_optimizers_after_failure (t t' : Task) (e : exn) :
  configure_optimizers t = (Raise e, t') →
  is_noop (_optimizer t') = false →
  configure_optimizers t' = (Ok (WithScheduler [_optimizer t'] [Noop]), t').
Proof.
  unfold CoreClasses.configure_optimizers.
  erewrite T_bind_ok by reflexivity.
  destruct (is_noop (_optimizer t) && is_noop (_scheduler t)) eqn:Hb.
  - destruct (setup_optimization None t) as [[[]|e0] t0] eqn:Hs.
    + erewrite T_bind_ok by exact Hs. erewrite T_bind_ok by reflexivity.
      by destruct (_scheduler t0).
    + erewrite T_bind_raise by exact Hs. intros [= <- <-] Ho.
      apply setup_optimization_attrs in Hs.
      apply andb_true_iff in Hb as [_ Hn].
      assert (Hsch : _scheduler t0 = Noop).
      { rewrite Hs. by destruct (_scheduler t). }
      erewrite T_bind_ok by reflexivity. rewrite Ho. cbn [andb].
      erewrite T_bind_ok by reflexivity. erewrite T_bind_ok by reflexivity.
      by rewrite Hsch.
  - erewrite T_bind_ok by reflexivity. erewrite T_bind_ok by reflexivity.
    by destruct (_scheduler t).
Qed.

Lemma build_optimizer_named (opt_conf : OptimConf) (params : Params) (t : Task)
    (name : string) :
  opt_name (optimizer opt_conf) = Some name →
  build_optimizer opt_conf params t
  = match OPTIM_REGISTRY !! name with
    | None => (Raise (KeyError name), t)
    | Some make_optimizer =>
        match opt_init_args (optimizer opt_conf) with
        | None => (Raise TypeError, t)
        | Some a =>
            match make_optimizer params a with
            | Ok opt =>
                (Ok (Some opt),
                 add_log (if rank t =? 0
                          then [(DEBUG, "Created optimizer: " +:+ optimizer_class opt)]
                          else []) t)
            | Raise e => (Raise e, t)
            end
        end
    end.
Proof.
  intros Hn.
  unfold CoreClasses.build_optimizer, mbind, T_bind, of_result, throw, mret, T_ret,
    registry_get.
  rewrite Hn. destruct (OPTIM_REGISTRY !! name) as [make_optimizer|]; [|done].
  destruct (opt_init_args (optimizer opt_conf)) as [a|]; [|done].
  destruct (make_optimizer params a) as [opt|e]; [|done].
  by rewrite log_main_process_spec.
Qed.

Lemma build_lr_scheduler_named (opt_conf : OptimConf) (o : option Optimizer)
    (t : Task) (name : string) (lr : pyval) :
  hypers_lr t = Some lr →
  sch_name (scheduler opt_conf) = Some name →
  build_lr_scheduler opt_conf o t
  = match sch_init_args (scheduler opt_conf) with
    | None =>
        (Raise (ValueError "Input cfg is not an OmegaConf config object (NoneType)"),
         t)
    | Some d =>
        match SCHEDULER_REGISTRY !! name with
        | None => (Raise (KeyError name), t)
        | Some make_scheduler =>
            match make_scheduler o (scheduler_kwds lr d) with
            | Ok sch =>
                (Ok (Some {| lrs_scheduler := sch;
                             lrs_interval := sch_interval (scheduler opt_conf);
                             lrs_monitor := sch_monitor (scheduler opt_conf) |}),
                 add_log (if rank t =? 0
                          then [(DEBUG, "Created lr_scheduler : "
                                          +:+ scheduler_class sch +:+ ".")]
                          else []) t)
            | Raise e => (Raise e, t)
            end
        end
    end.
Proof.
  intros Hlr Hn.
  unfold CoreClasses.build_lr_scheduler, mbind, T_bind, self, of_result, throw,
    mret, T_ret, registry_get.
  rewrite Hlr, Hn. destruct (sch_init_args (scheduler opt_conf)) as [d|]; [|done].
  destruct (SCHEDULER_REGISTRY !! name) as [make_scheduler|]; [|done].
  destruct (make_scheduler o _) as [sch|e]; [|done].
  by rewrite log_main_process_spec.
Qed.

(** With an optimiser and a scheduler named, a set-up that returns has
    constructed the optimiser with the registered constructor, on the
    parameters of the task and the configured arguments, and the scheduler
    with its registered constructor on that very optimiser, with the
    keyword arguments made of the resolved scheduler arguments; both are
    stored, the scheduler with the configured interval and monitor. *)
Theorem setup_optimization_binds
    (opt_conf : OptimConf) (t t' : Task) (optimizer_name scheduler_name : string) :
  setup_optimization (Some opt_conf) t = (Ok (), t') →
  opt_name (optimizer opt_conf) = Some optimizer_name →
  sch_name (scheduler opt_conf) = Some scheduler_name →
  ∃ make_optimizer make_scheduler (a d : gmap string pyval) opt_conf' opt sch lr,
    OPTIM_REGISTRY !! optimizer_name = Some make_optimizer ∧
    opt_init_args (optimizer opt_conf) = Some a ∧
    make_optimizer (param_dicts t) a = Ok opt ∧
    _optimizer t' = Obj opt ∧
    fst (process_optim_config opt_conf t) = Ok opt_conf' ∧
    sch_init_args (scheduler opt_conf') = Some d ∧
    SCHEDULER_REGISTRY !! scheduler_name = Some make_scheduler ∧
    hypers_lr t = Some lr ∧
    make_scheduler (Some opt) (scheduler_kwds lr d) = Ok sch ∧
    _scheduler t'
    = Obj {| lrs_scheduler := sch;
             lrs_interval := sch_interval (scheduler opt_conf);
             lrs_monitor := sch_monitor (scheduler opt_conf) |}.
Proof.
  intros H Hon Hsn. revert H.
  unfold CoreClasses.setup_optimization, mbind, T_bind, self.
  destruct (process_optim_config opt_conf t) as [[c|e] t1] eqn:Hp; [|done].
  destruct (process_optim_config_frame _ _ _ _ Hp)
    as ([l1 ->] & Hopt & Hname & Hint & Hmon & [d Hd]).
  rewrite (build_optimizer_named c _ _ optimizer_name) by (by rewrite Hopt).
  rewrite Hopt.
  destruct (OPTIM_REGISTRY !! optimizer_name) as [make_optimizer|]; [|done].
  destruct (opt_init_args (optimizer opt_conf)) as [a|]; [|done].
  destruct (make_optimizer (param_dicts (add_log l1 t)) a) as [opt|e] eqn:Hmk;
    [|done].
  cbn [set_optimizer attr_of_option].
  destruct (hypers_lr t) as [lr|] eqn:Hlr; last first.
  { unfold CoreClasses.build_lr_scheduler, mbind, T_bind, self, throw.
    cbn [hypers_lr add_log]. by rewrite Hlr. }
  rewrite (build_lr_scheduler_named c _ _ scheduler_name lr)
    by (done || by rewrite Hname).
  rewrite Hd, Hint, Hmon.
  destruct (SCHEDULER_REGISTRY !! scheduler_name) as [make_scheduler|]; [|done].
  destruct (make_scheduler (Some opt) (scheduler_kwds lr d))
    as [sch|e] eqn:Hsch; [|done].
  intros [= <-].
  by exists make_optimizer, make_scheduler, a, d, c, opt, sch, lr.
Qed.

(** *** Ranks other than zero *)

Lemma log_main_process_quiet (lvl : Z) (msg : string) (t : Task) :
  rank t ≠ 0 → log_main_process lvl msg t = (Ok (), t).
Proof.
  intros Hr. unfold log_main_process. by destruct (Z.eqb_spec (rank t) 0).
Qed.

Lemma add_log_quiet (lvl : Z) (msg : string) (t : Task) :
  rank t ≠ 0 → add_log (if rank t =? 0 then [(lvl, msg)] else []) t = t.
Proof.
  intros Hr. destruct (Z.eqb_spec (rank t) 0); [done|]. apply add_log_nil.
Qed.

Lemma process_optim_config_quiet (opt_conf : OptimConf) (t : Task) :
  rank t ≠ 0 → snd (process_optim_config opt_conf t) = t.
Proof.
  intros Hr.
  assert (Hfill : ∀ key value sc ia,
            fill_sentinel key value sc ia t = (Ok (fill key value sc ia), t)).
  { intros key value sc ia. unfold fill_sentinel, fill.
    destruct (sc !! key) as [v|]; [|done].
    destruct (py_eq_int v (-1)); [|done].
    unfold mbind, T_bind. by rewrite log_main_process_quiet. }
  unfold CoreClasses.process_optim_config, mbind, T_bind, self, of_result, throw,
    mret, T_ret.
  case_bool_decide; [done|].
  destruct (num_training_steps t) as [[n|ms st]|x]; try done.
  destruct (Z.eqb st 0); [done|].
  destruct (sch_init_args (scheduler opt_conf)) as [d|]; [|done].
  by rewrite !Hfill.
Qed.

Lemma build_optimizer_quiet (opt_conf : OptimConf) (params : Params) (t : Task) :
  rank t ≠ 0 → snd (build_optimizer opt_conf params t) = t.
Proof.
  intros Hr.
  destruct (opt_name (optimizer opt_conf)) as [name|] eqn:Hn.
  - rewrite (build_optimizer_named _ _ _ name Hn).
    destruct (OPTIM_REGISTRY !! name) as [mk|]; [|done].
    destruct (opt_init_args (optimizer opt_conf)) as [a|]; [|done].
    destruct (mk params a); [|done]. by apply add_log_quiet.
  - unfold CoreClasses.build_optimizer, mbind, T_bind. rewrite Hn.
    by rewrite log_main_process_quiet.
Qed.

Lemma build_lr_scheduler_quiet (opt_conf : OptimConf) (o : option Optimizer)
    (t : Task) :
  rank t ≠ 0 → snd (build_lr_scheduler opt_conf o t) = t.
Proof.
  intros Hr.
  destruct (hypers_lr t) as [lr|] eqn:Hlr; last first.
  { unfold CoreClasses.build_lr_scheduler, mbind, T_bind, self, throw.
    by rewrite Hlr. }
  destruct (sch_name (scheduler opt_conf)) as [name|] eqn:Hn.
  - rewrite (build_lr_scheduler_named _ _ _ name lr Hlr Hn).
    destruct (sch_init_args (scheduler opt_conf)) as [d|]; [|done].
    destruct (SCHEDULER_REGISTRY !! name) as [mk|]; [|done].
    destruct (mk o _); [|done]. by apply add_log_quiet.
  - unfold CoreClasses.build_lr_scheduler, mbind, T_bind, self, mret, T_ret.
    rewrite Hlr, Hn. by rewrite log_main_process_quiet.
Qed.

(** On a process whose rank is not zero the set-up of the optimisation
    logs nothing, whatever it constructs and whether it returns or
    raises: [setup_optimization] and [configure_optimizers] leave the
    log as it was. *)
Theorem setup_optimization_quiet (conf : option OptimConf) (t : Task) :
  rank t ≠ 0 →
  log (snd (setup_optimization conf t)) = log t ∧
  log (snd (configure_optimizers t)) = log t.
Proof.
  intros Hr.
  assert (Hsetup : ∀ conf, log (snd (setup_optimization conf t)) = log t).
  { clear conf. intros conf.
    unfold CoreClasses.setup_optimization, mbind, T_bind, self.
    destruct (match conf with Some c => Some c | None => cfg_optimization t end)
      as [opt_conf|].
    - pose proof (process_optim_config_quiet opt_conf t Hr) as Hp.
      destruct (process_optim_config opt_conf t) as [[c|e] t1];
        cbn [snd] in Hp; subst t1; [|done].
      pose proof (build_optimizer_quiet c (param_dicts t) t Hr) as Ho.
      destruct (build_optimizer c (param_dicts t) t) as [[o|e] t2];
        cbn [snd] in Ho; subst t2; [|done].
      cbn [set_optimizer].
      match goal with
      | |- context [build_lr_scheduler c o ?t3] =>
          pose proof (build_lr_scheduler_quiet c o t3 Hr) as Hs;
          destruct (build_lr_scheduler c o t3) as [[s|e] t4];
          cbn [snd] in Hs; subst t4; done
      end.
    - by rewrite log_main_process_quiet. }
  split; [done|].
  unfold CoreClasses.configure_optimizers, mbind, T_bind, self.
  destruct (is_noop (_optimizer t) && is_noop (_scheduler t)).
  - specialize (Hsetup None).
    destruct (setup_optimization None t) as [[[]|e] t0]; cbn [snd] in Hsetup;
      [|done].
    by destruct (_scheduler t0).
  - unfold mret, T_ret. by destruct (_scheduler t).
Qed.

(** *** The keyword arguments of the scheduler *)

(** The keyword arguments that [build_lr_scheduler] passes to the
    scheduler have exactly the keys of the configured arguments, and at
    every key but [max_lr] the configured value. *)
Theorem scheduler_kwds_verbatim (max_lrs : pyval) (d_args : gmap string pyval) :
  dom (scheduler_kwds max_lrs d_args) = dom d_args ∧
  ∀ key, key ≠ "max_lr" → scheduler_kwds max_lrs d_args !! key = d_args !! key.
Proof.
  split.
  - apply set_eq. intros key.
    by rewrite !elem_of_dom, scheduler_kwds_lookup, fmap_is_Some.
  - intros key Hk. rewrite scheduler_kwds_lookup.
    destruct (d_args !! key) as [v|]; [|done]. cbn. f_equal.
    unfold kwd_value. destruct v; try done; by rewrite decide_False.
Qed.

End core_more.

(** The statement for [one_cycle_conf]. *)
Lemma process_optim_config_resolved_witness :
  ∃ (ms st e : Z) (d a : gmap string pyval),
    CoreClasses.num_training_steps (demo_task demo_trainer)
    = Ok (CoreClasses.StepsPair ms st) ∧ st ≠ 0 ∧
    CoreClasses.max_epochs (CoreClasses._trainer (demo_task demo_trainer)) = Some e ∧
    CoreClasses.sch_init_args (CoreClasses.scheduler one_cycle_conf) = Some d ∧
    CoreClasses.conf_steps_per_epoch one_cycle_resolved
    = (if CoreClasses.conf_steps_per_epoch one_cycle_conf <? 1 then st
       else CoreClasses.conf_steps_per_epoch one_cycle_conf) ∧
    CoreClasses.conf_max_steps one_cycle_resolved
    = (if CoreClasses.conf_max_steps one_cycle_conf <? 1 then ms
       else CoreClasses.conf_max_steps one_cycle_conf) ∧
    CoreClasses.conf_max_epochs one_cycle_resolved
    = (if CoreClasses.conf_max_epochs one_cycle_conf <? 1 then e
       else CoreClasses.conf_max_epochs one_cycle_conf) ∧
    CoreClasses.sch_init_args (CoreClasses.scheduler one_cycle_resolved) = Some a ∧
    ∀ k, a !! k
         = match d !! k with
           | Some v =>
               if CoreClasses.py_eq_int v (-1) then
                 match CoreClasses.sentinel_value ms e st k with
                 | Some r => Some (VInt r)
                 | None => Some v
                 end
               else Some v
           | None => None
           end.
Proof.
  apply (process_optim_config_resolved one_cycle_conf one_cycle_resolved
           (demo_task demo_trainer)
           (snd (CoreClasses.process_optim_config one_cycle_conf
                   (demo_task demo_trainer)))).
  vm_compute. reflexivity.
Defined.

(** The statement for [one_cycle_conf]. *)
Lemma process_optim_config_idempotent_witness :
  fst (CoreClasses.process_optim_config one_cycle_resolved
         (snd (CoreClasses.process_optim_config one_cycle_conf
                 (demo_task demo_trainer))))
  = Ok one_cycle_resolved.
Proof.
  apply (process_optim_config_idempotent one_cycle_conf one_cycle_resolved
           (demo_task demo_trainer)).
  vm_compute. reflexivity.
Defined.

(** The statement for a trainer with [max_epochs=10], [max_steps=100] and
    a training set of 500: the estimate is 5000. *)
Lemma process_optim_config_capped_witness :
  let t := demo_task (CoreClasses.with_max_steps (Some 100) demo_trainer) in
  CoreClasses.num_training_steps t = Ok (CoreClasses.Steps 100) ∧
  CoreClasses.process_optim_config one_cycle_conf t = (Raise TypeError, t).
Proof.
  apply (process_optim_config_capped one_cycle_conf
           (demo_task (CoreClasses.with_max_steps (Some 100) demo_trainer))
           100 5000 500).
  - reflexivity.
  - lia.
  - vm_compute. reflexivity.
  - lia.
Defined.

(** The statement for the task configured with [one_cycle_conf]. *)
Lemma configure_optimizers_once_witness :
  let t' := snd (demo_configure_optimizers (demo_task_with one_cycle_conf 0)) in
  demo_configure_optimizers t' = (Ok one_cycle_configured, t').
Proof.
  apply (configure_optimizers_once (λ o, fst o) (λ s, fst (fst s))
           demo_optim_registry demo_scheduler_registry
           (demo_task_with one_cycle_conf 0)).
  vm_compute. reflexivity.
Defined.

(** The statement for a scheduler that is not registered: the first
    call raises [KeyError], the second returns the optimiser and [noop]. *)
Lemma configure_optimizers_after_failure_witness :
  let t' := snd (demo_configure_optimizers
                   (demo_task_with unknown_scheduler_conf 0)) in
  demo_configure_optimizers t'
  = (Ok (CoreClasses.WithScheduler [CoreClasses._optimizer t'] [CoreClasses.Noop]),
     t').
Proof.
  apply (configure_optimizers_after_failure (λ o, fst o) (λ s, fst (fst s))
           demo_optim_registry demo_scheduler_registry
           (demo_task_with unknown_scheduler_conf 0) _ (KeyError "CosineLR")).
  - vm_compute. reflexivity.
  - vm_compute. reflexivity.
Defined.

(** The statement for [one_cycle_conf]. *)
Lemma setup_optimization_binds_witness :
  let t := demo_task demo_trainer in
  let t' := snd (demo_setup_optimization (Some one_cycle_conf) t) in
  ∃ make_optimizer make_scheduler (a d : gmap string pyval) opt_conf' opt sch lr,
    demo_optim_registry !! "SGD" = Some make_optimizer ∧
    CoreClasses.opt_init_args (CoreClasses.optimizer one_cycle_conf) = Some a ∧
    make_optimizer (CoreClasses.param_dicts t) a = Ok opt ∧
    CoreClasses._optimizer t' = CoreClasses.Obj opt ∧
    fst (CoreClasses.process_optim_config one_cycle_conf t) = Ok opt_conf' ∧
    CoreClasses.sch_init_args (CoreClasses.scheduler opt_conf') = Some d ∧
    demo_scheduler_registry !! "OneCycleLR" = Some make_scheduler ∧
    CoreClasses.hypers_lr t = Some lr ∧
    make_scheduler (Some opt) (CoreClasses.scheduler_kwds lr d) = Ok sch ∧
    CoreClasses._scheduler t'
    = CoreClasses.Obj
        {| CoreClasses.lrs_scheduler := sch;
           CoreClasses.lrs_interval :=
             CoreClasses.sch_interval (CoreClasses.scheduler one_cycle_conf);
           CoreClasses.lrs_monitor :=
             CoreClasses.sch_monitor (CoreClasses.scheduler one_cycle_conf) |}.
Proof.
  apply (setup_optimization_binds (λ o, fst o) (λ s, fst (fst s))
           demo_optim_registry demo_scheduler_registry
           one_cycle_conf (demo_task demo_trainer)
           (snd (demo_setup_optimization (Some one_cycle_conf)
                   (demo_task demo_trainer)))
           "SGD" "OneCycleLR").
  - vm_compute. reflexivity.
  - reflexivity.
  - reflexivity.
Defined.

(** The statement on the process of rank 1. *)
Lemma setup_optimization_quiet_witness :
  let t := demo_task_with one_cycle_conf 1 in
  CoreClasses.log (snd (demo_setup_optimization None t)) = CoreClasses.log t ∧
  CoreClasses.log (snd (demo_configure_optimizers t)) = CoreClasses.log t.
Proof.
  apply (setup_optimization_quiet (λ o, fst o) (λ s, fst (fst s))
           demo_optim_registry demo_scheduler_registry
           None (demo_task_with one_cycle_conf 1)).
  cbn. lia.
Defined.

Section module_facts.
Import BasicModule.

Lemma foldl_insert_seq (rg : bool) (lo k : nat) (flags : list bool) (i : nat) :
  foldl (λ fl p, <[p := rg]> fl) flags (seq lo k) !! i
  = if bool_decide (lo ≤ i < lo + k)%nat
    then (λ _, rg) <$> flags !! i else flags !! i.
Proof.
  revert lo flags. induction k as [|k IH]; intros lo flags; cbn [seq foldl].
  - rewrite bool_decide_eq_false_2 by lia. done.
  - rewrite IH. rewrite list_lookup_insert.
    repeat case_bool_decide; repeat case_decide; try lia; destruct_and?; subst;
      try done; try lia.
    all: destruct (flags !! i) eqn:E; try done.
    all: try (apply lookup_ge_None in E; lia).
    all: apply lookup_lt_Some in E; exfalso; naive_solver lia.
Qed.

Lemma length_foldl_insert (rg : bool) (ps : list nat) (flags : list bool) :
  length (foldl (λ fl p, <[p := rg]> fl) flags ps) = length flags.
Proof.
  revert flags. induction ps as [|p ps IH]; intros flags; [done|].
  cbn [foldl]. by rewrite IH, length_insert.
Qed.

(** [freeze_to(n)] sets [frozen_idx] to [n], or to [n] counted from the
    end when it is negative, and makes the flags follow it whatever they
    were: a parameter requires a gradient exactly when its position is at
    least [frozen_idx]. The mode of the module stays, and the warning is
    logged exactly when [frozen_idx] is at least the number of
    parameters. *)
Theorem freeze_to_flags (n : Z) (m : nn_module) :
  let len := length (requires_grad m) in
  let idx := if 0 <=? n then n else Z.of_nat len + n in
  let m' := freeze_to n m in
  frozen_idx m' = Some idx ∧
  length (requires_grad m') = len ∧
  (∀ i, (i < len)%nat →
        requires_grad m' !! i = Some (bool_decide (idx ≤ Z.of_nat i))) ∧
  training m' = training m ∧
  (if Z.of_nat len <=? idx
   then warnings m'
        = warnings m
          ++ ["Freezing " +:+ pretty idx +:+ " groups; model has "
                +:+ pretty (Z.of_nat len) +:+ "; whole model is frozen."]
   else warnings m' = warnings m).
Proof.
  intros len idx m'. subst m'. unfold freeze_to, set_require_grad, all_params.
  cbn [requires_grad training frozen_idx warnings].
  rewrite !length_foldl_insert. fold len. fold idx.
  split; [done|]. split; [done|]. split; [|split; [done|]].
  - intros i Hi. rewrite !foldl_insert_seq.
    destruct (lookup_lt_is_Some_2 (requires_grad m) i Hi) as [f ->].
    unfold slice_bound, idx.
    destruct (Z.leb_spec 0 n), (Z.ltb_spec n 0); try lia;
      repeat case_bool_decide; try done; lia.
  - by destruct (Z.of_nat len <=? idx).
Qed.

(** [as_frozen] does not bring back what was frozen before it: whatever
    the flags and the mode were, and whether the body returns or raises,
    after the block every parameter requires a gradient and the module is
    in training mode; the body ran on the module with no parameter
    requiring a gradient, in evaluation mode, and its outcome is the
    outcome of the block. *)
Theorem as_frozen_unfreezes {A} (body : nn_module → result A * nn_module)
    (m m' : nn_module) (r : result A) :
  as_frozen body m = (r, m') →
  (∀ f, f ∈ requires_grad m' → f = true) ∧
  training m' = true ∧
  (∀ f, f ∈ requires_grad (freeze m) → f = false) ∧
  training (freeze m) = false ∧
  fst (body (freeze m)) = r ∧
  length (requires_grad m') = length (requires_grad (snd (body (freeze m)))).
Proof.
  unfold as_frozen. destruct (body (freeze m)) as [r1 m1] eqn:Hb.
  intros [= <- <-]. cbn.
  split; [by intros f [? [-> _]]%list_elem_of_fmap|]. split; [done|].
  split; [by intros f [? [-> _]]%list_elem_of_fmap|]. split; [done|].
  split; [done|]. by rewrite length_fmap.
Qed.

End module_facts.

(** The statement for a module frozen up to its first parameter, with a
    body that does nothing: the first parameter is not frozen any more. *)
Lemma as_frozen_unfreezes_witness :
  let m := BasicModule.freeze_to 1 three_params in
  let m' := BasicModule.unfreeze (BasicModule.freeze m) in
  (∀ f, f ∈ BasicModule.requires_grad m' → f = true) ∧
  BasicModule.training m' = true ∧
  (∀ f, f ∈ BasicModule.requires_grad (BasicModule.freeze m) → f = false) ∧
  BasicModule.training (BasicModule.freeze m) = false ∧
  fst (Ok (), BasicModule.freeze m) = Ok () ∧
  length (BasicModule.requires_grad m')
  = length (BasicModule.requires_grad (snd (Ok (), BasicModule.freeze m))).
Proof.
  apply (as_frozen_unfreezes (λ m, (Ok (), m))
           (BasicModule.freeze_to 1 three_params)).
  reflexivity.
Defined.

Section logger_more.
Import Logger.

Lemma setup_logger_body_loggers rank color name lvl m :
  (∀ ref l, m !! ref = Some l →
     propagate l = false ∧ ∀ hd, hd ∈ handlers l → h_level hd = DEBUG) →
  ∀ ref l, snd (setup_logger_body rank color name lvl m) !! ref = Some l →
    propagate l = false ∧ ∀ hd, hd ∈ handlers l → h_level hd = DEBUG.
Proof.
  intros Hm ref l. unfold setup_logger_body, getLogger.
  set (r := logger_ref name).
  assert (Hnew : ∀ m0 : gmap string LoggerObj,
    (∀ ref l, m0 !! ref = Some l →
       ref = r ∨ (propagate l = false ∧ ∀ hd, hd ∈ handlers l → h_level hd = DEBUG)) →
    (∀ l, m0 !! r = Some l → ∀ hd, hd ∈ handlers l → h_level hd = DEBUG) →
    snd (let m1 := alter (setLevel lvl) r m0 in
         let m2 := alter (set_propagate false) r m1 in
         if rank =? 0
         then (r, alter (addHandler {| h_level := DEBUG;
                                       h_formatter :=
                                         if color then new_ColorfulFormatter name name
                                         else PlainFormatter |}) r m2)
         else (r, m2)) !! ref = Some l →
    propagate l = false ∧ ∀ hd, hd ∈ handlers l → h_level hd = DEBUG).
  { intros m0 H0 Hr. cbn zeta.
    destruct (rank =? 0); cbn [snd]; rewrite ?lookup_alter;
      (destruct (decide (r = ref)) as [<-|Hne];
       [|rewrite ?decide_False by done; intros Hl; by destruct (H0 _ _ Hl)]).
    - rewrite !decide_True by done.
      destruct (m0 !! r) as [l0|] eqn:E; [|done]. intros [= <-]. cbn.
      split; [done|]. intros hd [Hhd|Hhd]%elem_of_app; [by eapply Hr|].
      by apply list_elem_of_singleton in Hhd as ->.
    - rewrite !decide_True by done.
      destruct (m0 !! r) as [l0|] eqn:E; [|done]. intros [= <-]. cbn.
      split; [done|]. by eapply Hr. }
  destruct (m !! r) as [l0|] eqn:E.
  - apply Hnew.
    + intros ref' l' Hl'. right. by eapply Hm.
    + intros l' Hl'. by eapply Hm.
  - apply Hnew.
    + intros ref' l'. rewrite lookup_insert. case_decide; [by left|].
      intros Hl'. right. by eapply Hm.
    + intros l'. rewrite lookup_insert, decide_True by done. intros [= <-] hd Hhd.
      cbn in Hhd. by apply elem_of_nil in Hhd.
Qed.

Lemma length_filter_hit (c : call) (r : string) (entries : list (call * string)) :
  (c, r) ∈ entries →
  (length (filter (λ e, fst e ≠ c) entries) < length entries)%nat.
Proof.
  induction entries as [|e entries IH]; intros H; [by apply elem_of_nil in H|].
  rewrite filter_cons. apply elem_of_cons in H as [<-|H].
  - rewrite decide_False by (cbn; by intros ?).
    pose proof (length_filter (λ e, fst e ≠ c) entries). cbn. lia.
  - specialize (IH H). case_decide; cbn; lia.
Qed.

Lemma Sound_init : Sound [] init.
Proof.
  split; cbn.
  - by intros c r H%elem_of_nil.
  - unfold maxsize. lia.
  - intros ref. unfold handlers_of, handlers_in. cbn. by rewrite lookup_empty.
  - intros ref l. by rewrite lookup_empty.
Qed.

(** One more call, whatever the cache holds. *)
Lemma setup_logger_sound t c s :
  Sound t s → ∃ s', setup_logger c s = (returns c, s') ∧ Sound (t ++ [c]) s'.
Proof.
  intros [Hc Hsz Hh Hl].
  assert (Hmono : ∀ ref,
    length (filter (λ c, attaches ref c) (t ++ [c]))
    = (length (filter (λ c, attaches ref c) t)
       + if attaches ref c then 1 else 0)%nat).
  { intros ref. rewrite filter_app, length_app. f_equal.
    rewrite filter_cons, filter_nil. by destruct (attaches ref c). }
  unfold setup_logger. destruct (cache_find c (cache s)) as [r|] eqn:Hfind.
  - apply cache_find_Some in Hfind.
    eexists. split; [by rewrite (Hc _ _ Hfind)|].
    split; unfold handlers_of; cbn [cache manager].
    + intros c' r' [ [= -> ->] |[_ Hin]%list_elem_of_filter]%elem_of_cons;
        [by apply Hc|by eapply Hc].
    + pose proof (length_filter_hit c r (cache s) Hfind). cbn. lia.
    + intros ref. rewrite Hmono. specialize (Hh ref). unfold handlers_of in Hh. lia.
    + done.
  - unfold returns.
    destruct (bind_args c) as [[[[rank color] name] lvl]|e] eqn:Hb.
    + pose proof (setup_logger_body_loggers rank color name lvl (manager s) Hl) as Hl'.
      destruct (setup_logger_body_spec rank color name lvl (manager s))
        as (m' & hd & Hbody & Hm').
      rewrite Hbody in Hl' |- *. cbn [snd] in Hl'.
      eexists. split; [done|].
      split; unfold handlers_of; cbn [cache manager].
      * intros c' r' [ [= -> ->] |Hin]%elem_of_cons.
        -- unfold returns. by rewrite Hb.
        -- destruct (decide (maxsize ≤ length (cache s))%nat);
             [apply elem_of_take in Hin as (i & Hin & _);
              apply list_elem_of_lookup_2 in Hin|]; by eapply Hc.
      * destruct (decide (maxsize ≤ length (cache s))%nat); cbn [length];
          [rewrite length_take|]; unfold maxsize in *; lia.
      * intros ref. rewrite Hm', length_app, Hmono.
        assert (attaches ref c
                = bool_decide (rank = 0 ∧ logger_ref name = ref)) as <-.
        { unfold attaches. by rewrite Hb. }
        specialize (Hh ref). unfold handlers_of in Hh.
        destruct (attaches ref c); cbn; lia.
      * done.
    + eexists. split; [done|].
      split; try done.
      intros ref. rewrite Hmono. specialize (Hh ref). lia.
Qed.

Lemma run_Sound t0 t s :
  Sound t0 s → ∃ s', run t s = (returns <$> t, s') ∧ Sound (t0 ++ t) s'.
Proof.
  revert t0 s. induction t as [|c t IH]; intros t0 s HS.
  - exists s. by rewrite app_nil_r.
  - destruct (setup_logger_sound t0 c s HS) as (s1 & Hstep & HS1).
    destruct (IH _ _ HS1) as (s2 & Hrun & HS2).
    exists s2. cbn [run]. rewrite Hstep, Hrun. split; [done|].
    by rewrite <- app_assoc in HS2.
Qed.

(** However many calls are made and however they are written (the cache
    may be full and evict): every call returns the logger of the name it
    binds, or the error of a call that does not bind; the cache never
    holds more than 128 entries; a logger never has more handlers than
    there were calls binding its name and rank 0; and every logger that
    was set up does not propagate, with all its handlers at level
    [DEBUG]. *)
Theorem setup_logger_any_run (t : list call) :
  ∃ s, run t init = (returns <$> t, s) ∧
    (length (cache s) ≤ maxsize)%nat ∧
    (∀ ref, (length (handlers_of s ref)
             ≤ length (filter (λ c, attaches ref c) t))%nat) ∧
    (∀ ref l, manager s !! ref = Some l →
       propagate l = false ∧ ∀ hd, hd ∈ handlers l → h_level hd = DEBUG).
Proof.
  destruct (run_Sound [] t init Sound_init) as (s & Hrun & [Hc Hsz Hh Hl]).
  by exists s.
Qed.

End logger_more.

Section losses_more.
Import Losses.
Context {Loss : Type}.
Variable class_name : Loss → string.
Variable torch_tensor : pyval → result pyval.
Variable LOSS_REGISTRY : gmap string (kwds → result Loss).
Variable torch_losses : gmap string (kwds → result Loss).

Local Abbreviation build_loss :=
  (build_loss class_name torch_tensor LOSS_REGISTRY torch_losses).

Lemma convert_weight_args (a a' : gmap string pyval) :
  convert_weight torch_tensor (Some a) = Ok (Some a') →
  dom a' = dom a ∧
  (∀ key, key ≠ "weight" → a' !! key = a !! key) ∧
  match a !! "weight" with
  | None | Some VNone => a' = a
  | Some w => ∃ t, torch_tensor w = Ok t ∧ a' !! "weight" = Some t
  end.
Proof.
  unfold convert_weight.
  assert (Hconv : ∀ w, a !! "weight" = Some w →
    rbind (torch_tensor w) (λ t, Ok (Some (<["weight" := t]> a))) = Ok (Some a') →
    dom a' = dom a ∧ (∀ key, key ≠ "weight" → a' !! key = a !! key) ∧
    ∃ t, torch_tensor w = Ok t ∧ a' !! "weight" = Some t).
  { intros w Hw. destruct (torch_tensor w) as [t|e]; [|done]. cbn.
    intros [= <-]. split; [|split].
    - rewrite dom_insert_L. apply (elem_of_dom_2 (D := gset string)) in Hw. set_solver.
    - intros key Hk. by rewrite lookup_insert_ne.
    - exists t. by rewrite lookup_insert_eq. }
  destruct (a !! "weight") as [w|] eqn:Hw.
  - destruct w; try (by apply Hconv); by intros [= <-].
  - by intros [= <-].
Qed.

(** What a successful [build_loss] has done: the name is a string found
    in the registry, or else in [torch.nn.modules.loss]; the loss is what
    that constructor gave on the arguments; the arguments are the
    configured ones, key by key, except that a [weight] other than [None]
    has become a tensor; and one line is logged, naming the class of the
    loss. *)
Theorem build_loss_arguments (config : LossConfig) (loss : Loss)
    (lines : list string) :
  build_loss config = (Ok loss, lines) →
  ∃ (name : string) (init_args args : option kwds) instance,
    cfg_name config = Some (VStr name) ∧
    cfg_init_args config = Some init_args ∧
    (LOSS_REGISTRY !! name = Some instance ∨
     (LOSS_REGISTRY !! name = None ∧ torch_losses !! name = Some instance)) ∧
    construct instance args = Ok loss ∧
    lines = ["Built loss function: " +:+ class_name loss] ∧
    match init_args, args with
    | None, None => True
    | Some a, Some a' =>
        dom a' = dom a ∧
        (∀ key, key ≠ "weight" → a' !! key = a !! key) ∧
        match a !! "weight" with
        | None | Some VNone => a' = a
        | Some w => ∃ t, torch_tensor w = Ok t ∧ a' !! "weight" = Some t
        end
    | _, _ => False
    end.
Proof.
  unfold Losses.build_loss.
  destruct (cfg_name config) as [name|]; [|done].
  destruct (cfg_init_args config) as [init_args|]; [|done].
  destruct (convert_weight torch_tensor init_args) as [args|e] eqn:Hw; [|done].
  destruct name as [| | | |name| |]; try done.
  destruct (resolve LOSS_REGISTRY torch_losses name) as [instance|e] eqn:Hr;
    [|done].
  destruct (construct instance args) as [l|e] eqn:Hc; [|done].
  intros [= <- <-].
  exists name, init_args, args, instance.
  split; [done|]. split; [done|]. split.
  { revert Hr. unfold resolve.
    destruct (LOSS_REGISTRY !! name) as [i|]; [intros [= <-]; by left|].
    destruct (torch_losses !! name) as [i|]; [intros [= <-]; by right|done]. }
  split; [done|]. split; [done|].
  destruct init_args as [a|].
  - destruct args as [a'|].
    + by apply convert_weight_args.
    + revert Hw. unfold convert_weight.
      destruct (a !! "weight") as [[]|]; try done;
        by match goal with |- context [torch_tensor ?w] => destruct (torch_tensor w) end.
  - revert Hw. cbn. by intros [= <-].
Qed.

End losses_more.

(** The statement for [CrossEntropyLoss] with a weight and a smoothing. *)
Lemma build_loss_arguments_witness :
  let a : gmap string pyval :=
    {["weight" := VList [VInt 1; VInt 2]; "label_smoothing" := VInt 0]} in
  let config := {| Losses.cfg_name := Some (VStr "CrossEntropyLoss");
                   Losses.cfg_init_args := Some (Some a) |} in
  let loss := ("CrossEntropyLoss", <["weight" := VTensor (VList [VInt 1; VInt 2])]> a) in
  ∃ (name : string) (init_args args : option (gmap string pyval)) instance,
    Losses.cfg_name config = Some (VStr name) ∧
    Losses.cfg_init_args config = Some init_args ∧
    (demo_registry !! name = Some instance ∨
     (demo_registry !! name = None ∧ demo_torch_losses !! name = Some instance)) ∧
    Losses.construct instance args = Ok loss ∧
    ["Built loss function: CrossEntropyLoss"]
    = ["Built loss function: " +:+ fst loss] ∧
    match init_args, args with
    | None, None => True
    | Some a, Some a' =>
        dom a' = dom a ∧
        (∀ key, key ≠ "weight" → a' !! key = a !! key) ∧
        match a !! "weight" with
        | None | Some VNone => a' = a
        | Some w => ∃ t, demo_tensor w = Ok t ∧ a' !! "weight" = Some t
        end
    | _, _ => False
    end.
Proof.
  apply (build_loss_arguments fst demo_tensor demo_registry demo_torch_losses).
  vm_compute. reflexivity.
Defined.
